(** * caffeine-counter: the HTTP handlers of [server.js], embedded and verified

    The development follows the session-aware server ([src/server.js], first
    module) and, where a claim names it, the variant without sessions
    ([src/unnamed/part_000]).

    Modelling conventions.
    - A JavaScript [Date] is its time value: an integer number of
      milliseconds since the epoch.  The server's local time zone is taken
      to be UTC, so that local-time setters and getters coincide with the
      ECMAScript abstract operations [Day], [YearFromTime], [MakeDay], ...
      on the time value itself.
    - [caffeineMg] is an integer number of milligrams; the JavaScript
      truthiness tests on it are kept ([0] is falsy).
    - A MongoDB collection is the list of its documents in insertion
      order; a stored [_id] is the hexadecimal string of its ObjectId.
    - A route parameter [:id] is an arbitrary string.  The handlers named
      [...Request] take it raw and cast it as [findById] does, answering
      500 when the cast throws; [deleteEntry], [deleteType] and their
      variants are the same handlers for a parameter that stands for an
      ObjectId. *)

From Stdlib Require Import ZArith List Lia Bool Ascii String.
From stdpp Require Import gmap strings list pretty sorting.

Local Open Scope Z_scope.

(** ** ECMAScript dates (ECMA-262, section "Date Objects"), in UTC *)

Module JSDate.

Definition msPerDay : Z := 86400000.

Definition Day (t : Z) : Z := t / msPerDay.
Definition TimeWithinDay (t : Z) : Z := t mod msPerDay.

Definition isLeap (y : Z) : bool :=
  ((y mod 4 =? 0) && negb (y mod 100 =? 0)) || (y mod 400 =? 0).

Definition DaysInYear (y : Z) : Z := if isLeap y then 366 else 365.

Definition DayFromYear (y : Z) : Z :=
  365 * (y - 1970) + (y - 1969) / 4 - (y - 1901) / 100 + (y - 1601) / 400.

(** [YearFromTime]: "the largest integer y such that
    TimeFromYear(y) <= t".  The estimate from the mean Gregorian year
    (146097 days per 400 years) is off by at most one; see
    [YearFromDay_spec]. *)
Definition YearFromDay (n : Z) : Z :=
  let y := 1970 + (400 * n) / 146097 in
  if DayFromYear (y + 1) <=? n then y + 1
  else if DayFromYear y <=? n then y
  else y - 1.

Definition YearFromTime (t : Z) : Z := YearFromDay (Day t).

Definition DayWithinYear (t : Z) : Z := Day t - DayFromYear (YearFromTime t).

(** Number of days of the year before month [m] (0 = January). *)
Definition monthOffset (leap : bool) (m : Z) : Z :=
  let l := if leap then 1 else 0 in
  if m =? 0 then 0
  else if m =? 1 then 31
  else if m =? 2 then 59 + l
  else if m =? 3 then 90 + l
  else if m =? 4 then 120 + l
  else if m =? 5 then 151 + l
  else if m =? 6 then 181 + l
  else if m =? 7 then 212 + l
  else if m =? 8 then 243 + l
  else if m =? 9 then 273 + l
  else if m =? 10 then 304 + l
  else 334 + l.

Definition MonthFromTime (t : Z) : Z :=
  let d := DayWithinYear t in
  let l := if isLeap (YearFromTime t) then 1 else 0 in
  if d <? 31 then 0
  else if d <? 59 + l then 1
  else if d <? 90 + l then 2
  else if d <? 120 + l then 3
  else if d <? 151 + l then 4
  else if d <? 181 + l then 5
  else if d <? 212 + l then 6
  else if d <? 243 + l then 7
  else if d <? 273 + l then 8
  else if d <? 304 + l then 9
  else if d <? 334 + l then 10
  else 11.

Definition DateFromTime (t : Z) : Z :=
  DayWithinYear t
  - monthOffset (isLeap (YearFromTime t)) (MonthFromTime t) + 1.

(** [MakeDay(year, month, date)]: months outside 0..11 carry into the
    year, dates outside the month carry into the neighbouring months. *)
Definition MakeDay (year month date : Z) : Z :=
  let ym := year + month / 12 in
  let mn := month mod 12 in
  DayFromYear ym + monthOffset (isLeap ym) mn + date - 1.

Definition MakeDate (day time : Z) : Z := day * msPerDay + time.

(** Getters and setters of [Date.prototype] (local time = UTC). *)
Definition getFullYear (t : Z) : Z := YearFromTime t.
Definition getMonth (t : Z) : Z := MonthFromTime t.
Definition getDate (t : Z) : Z := DateFromTime t.

(** [d.setHours(0, 0, 0, 0)] *)
Definition setHours0 (t : Z) : Z := MakeDate (Day t) 0.

(** [d.setDate(date)] *)
Definition setDate (t date : Z) : Z :=
  MakeDate (MakeDay (YearFromTime t) (MonthFromTime t) date)
           (TimeWithinDay t).

(** [d.setMonth(month)] and [d.setMonth(month, date)] *)
Definition setMonth (t month : Z) : Z :=
  MakeDate (MakeDay (YearFromTime t) month (DateFromTime t))
           (TimeWithinDay t).

Definition setMonthDate (t month date : Z) : Z :=
  MakeDate (MakeDay (YearFromTime t) month date) (TimeWithinDay t).

(** [d.setFullYear(year)] *)
Definition setFullYear (t year : Z) : Z :=
  MakeDate (MakeDay year (MonthFromTime t) (DateFromTime t))
           (TimeWithinDay t).

(** [new Date(year, month, date)]: a two-digit year means 19xx. *)
Definition newDateYMD (year month date : Z) : Z :=
  let yr := if (0 <=? year) && (year <=? 99) then 1900 + year else year in
  MakeDate (MakeDay yr month date) 0.

(** A UTC civil date as a time value, for writing examples. *)
Definition utc (y m d hh mm : Z) : Z :=
  MakeDate (MakeDay y (m - 1) d) (hh * 3600000 + mm * 60000).

End JSDate.

Import JSDate.


(** ** JavaScript values, strings and formatting *)

(** The scalar JSON values a request body field can hold; [JUndefined]
    stands for an absent field. *)
Inductive jsval : Type :=
| JUndefined
| JNull
| JBool (b : bool)
| JNum (n : Z)
| JStr (s : string).

(** [ToBoolean] *)
Definition truthy (v : jsval) : bool :=
  match v with
  | JUndefined | JNull => false
  | JBool b => b
  | JNum n => negb (n =? 0)
  | JStr s => negb (String.eqb s EmptyString)
  end.

(** The two string-to-number conversions of the language are left to an
    implementation: [StringToNumber] is what [ToNumber] does on a string,
    [parseFloatString] what [parseFloat] does; [None] is [NaN]. *)
Class NumberParsing : Type := {
  StringToNumber : string -> option Z;
  parseFloatString : string -> option Z
}.

(** [ToNumber] *)
Definition ToNumber `{NumberParsing} (v : jsval) : option Z :=
  match v with
  | JUndefined => None
  | JNull => Some 0
  | JBool b => Some (if b then 1 else 0)
  | JNum n => Some n
  | JStr s => StringToNumber s
  end.

(** [v <= 0]: false as soon as [v] converts to [NaN]. *)
Definition leZero `{NumberParsing} (v : jsval) : bool :=
  match ToNumber v with
  | Some n => n <=? 0
  | None => false
  end.

(** [parseFloat(v)]: the argument is first converted to a string. *)
Definition parseFloat `{NumberParsing} (v : jsval) : option Z :=
  match v with
  | JNum n => Some n
  | JStr s => parseFloatString s
  | JUndefined | JNull | JBool _ => None
  end.

(** White space and line terminators stripped by [String.prototype.trim],
    within the ASCII range. *)
Definition isWhiteSpace (c : ascii) : bool :=
  let n := nat_of_ascii c in
  ((9 <=? n) && (n <=? 13))%nat || (n =? 32)%nat.

Fixpoint trimStart (s : string) : string :=
  match s with
  | EmptyString => EmptyString
  | String c s' => if isWhiteSpace c then trimStart s' else s
  end.

Fixpoint trimEnd (s : string) : string :=
  match s with
  | EmptyString => EmptyString
  | String c s' =>
      match trimEnd s' with
      | EmptyString => if isWhiteSpace c then EmptyString else String c EmptyString
      | r => String c r
      end
  end.

Definition trim (s : string) : string := trimEnd (trimStart s).

(** [s.padStart(n, c)] for a one-character pad string. *)
Fixpoint replicateChar (n : nat) (c : ascii) : string :=
  match n with
  | O => EmptyString
  | S k => String c (replicateChar k c)
  end.

Definition padStart (n : nat) (c : ascii) (s : string) : string :=
  replicateChar (n - String.length s) c +:+ s.

(** Decimal rendering of an integer ([Number.prototype.toString]). *)
Definition numToString (n : Z) : string := pretty n.

Definition monthShort (m : Z) : string :=
  if m =? 0 then "Jan"
  else if m =? 1 then "Feb"
  else if m =? 2 then "Mar"
  else if m =? 3 then "Apr"
  else if m =? 4 then "May"
  else if m =? 5 then "Jun"
  else if m =? 6 then "Jul"
  else if m =? 7 then "Aug"
  else if m =? 8 then "Sep"
  else if m =? 9 then "Oct"
  else if m =? 10 then "Nov"
  else "Dec".

(** [d.toLocaleDateString("en-US", { month: "short", day: "numeric" })] *)
Definition fmtMonthDay (d : Z) : string :=
  monthShort (getMonth d) +:+ " " +:+ numToString (getDate d).

(** [d.toLocaleDateString("en-US", { month: "short" })] *)
Definition fmtMonth (d : Z) : string := monthShort (getMonth d).

(** [d.toLocaleDateString("en-US", { month: "short", year: "numeric" })] *)
Definition fmtMonthYear (d : Z) : string :=
  monthShort (getMonth d) +:+ " " +:+ numToString (getFullYear d).

(** [d.getFullYear().toString()] *)
Definition fmtYear (d : Z) : string := numToString (getFullYear d).

(** [d.toISOString()]: "YYYY-MM-DDTHH:mm:ss.sssZ", with the expanded
    six-digit signed year outside 0..9999. *)
Definition isoYear (y : Z) : string :=
  if (0 <=? y) && (y <=? 9999) then padStart 4 "0" (numToString y)
  else (if y <? 0 then "-" else "+") +:+ padStart 6 "0" (numToString (Z.abs y)).

Definition toISOString (d : Z) : string :=
  let tm := TimeWithinDay d in
  isoYear (YearFromTime d)
  +:+ "-" +:+ padStart 2 "0" (numToString (MonthFromTime d + 1))
  +:+ "-" +:+ padStart 2 "0" (numToString (DateFromTime d))
  +:+ "T" +:+ padStart 2 "0" (numToString (tm / 3600000))
  +:+ ":" +:+ padStart 2 "0" (numToString (tm / 60000 mod 60))
  +:+ ":" +:+ padStart 2 "0" (numToString (tm / 1000 mod 60))
  +:+ "." +:+ padStart 3 "0" (numToString (tm mod 1000))
  +:+ "Z".

(** The one-character string holding a double quote. *)
Definition doubleQuote : string := String (ascii_of_nat 34) EmptyString.

(** [s.slice(0, n)] *)
Definition slice0 (n : nat) (s : string) : string := String.substring 0 n s.

(** ** Documents and responses *)

(** [req.session.user] *)
Record SessionUser : Type := {
  googleId : string;
  email : string;
  name : string;
  picture : option string
}.

(** A document of the "entries" collection ([caffeineEntrySchema]). *)
Record CaffeineEntry : Type := {
  entryId : string;
  drinkName : string;
  sizeName : string;
  fullName : string;
  caffeineMg : Z;
  customDescription : string;
  timestamp : Z;
  isCustomDrink : bool;
  userId : string;
  userName : string;
  userAvatar : option string
}.

(** A size variant and a document of the "types" collection
    ([sizeVariantSchema], [drinkTypeSchema]). *)
Record SizeVariant : Type := {
  sizeVariantName : string;
  sizeCaffeineMg : Z
}.

Record DrinkType : Type := {
  typeId : string;
  typeName : string;
  imageUrl : string;
  sizes : list SizeVariant;
  createdAt : Z;
  deleted : bool
}.

(** What a handler sends: [res.status(s).json(body)], or
    [res.status(s).json({ error })]. *)
Inductive Response (A : Type) : Type :=
| Json (status : Z) (body : A)
| Error (status : Z) (error : string).
Arguments Json {A} status body.
Arguments Error {A} status error.

(** [requireAuth]: without a session user the request ends in 401. *)
Definition requireAuth {A S : Type} (session : option SessionUser)
    (next : SessionUser -> Response A * S) (s : S) : Response A * S :=
  match session with
  | None => (Error 401 "Authentication required", s)
  | Some user => next user
  end.

(** ** GET /api/caffeine-chart *)

Inductive Step : Type := StepDay | StepMonth | StepYear.

Record ChartData : Type := {
  labels : list string;
  values : list Z
}.

(** [CaffeineEntry.findOne().sort({ timestamp: 1 })] and
    [.sort({ timestamp: -1 })] *)
Definition findEarliest (store : list CaffeineEntry) : option CaffeineEntry :=
  fold_left (fun acc e =>
    match acc with
    | None => Some e
    | Some a => if timestamp e <? timestamp a then Some e else Some a
    end) store None.

Definition findLatest (store : list CaffeineEntry) : option CaffeineEntry :=
  fold_left (fun acc e =>
    match acc with
    | None => Some e
    | Some a => if timestamp a <? timestamp e then Some e else Some a
    end) store None.

(** [Math.floor((endDate - startDate) / (1000 * 60 * 60 * 24)) + 1] *)
Definition daysSpanOf (startDate endDate : Z) : Z :=
  (endDate - startDate) / (1000 * 60 * 60 * 24) + 1.

(** The outcome of the [switch (period)]: the three variables it sets, or
    one of its two early returns. *)
Inductive ChartPlan : Type :=
| Plan (startDate : Z) (labelFormatter : Z -> string) (step : Step)
| PlanNoEntries
| PlanInvalidPeriod.

Definition chartPlan (period : string) (today : Z)
    (store : list CaffeineEntry) : ChartPlan :=
  if String.eqb period "week" then
    Plan (setDate today (getDate today - 6)) fmtMonthDay StepDay
  else if String.eqb period "month" then
    Plan (setDate today (getDate today - 29)) fmtMonthDay StepDay
  else if String.eqb period "year" then
    Plan (setFullYear today (getFullYear today - 1)) fmtMonth StepMonth
  else if String.eqb period "all" then
    match findEarliest store, findLatest store with
    | Some earliest, Some latest =>
        let startDate := setHours0 (timestamp earliest) in
        let endDate := setHours0 (timestamp latest) in
        let daysSpan := daysSpanOf startDate endDate in
        if daysSpan <=? 90 then
          Plan startDate fmtMonthDay StepDay
        else if daysSpan <=? 18 * 30 then
          Plan (setDate startDate 1) fmtMonthYear StepMonth
        else
          Plan (newDateYMD (getFullYear startDate) 0 1) fmtYear StepYear
    | _, _ => PlanNoEntries
    end
  else PlanInvalidPeriod.

(** The key under which the [forEach] files an entry. *)
Definition entryKey (step : Step) (ts : Z) : string :=
  match step with
  | StepDay =>
      let d := setHours0 ts in
      slice0 10 (toISOString d)
  | StepMonth =>
      let d := setHours0 (setDate ts 1) in
      numToString (getFullYear d) +:+ "-"
        +:+ padStart 2 "0" (numToString (getMonth d + 1))
  | StepYear =>
      let d := setHours0 (setMonthDate ts 0 1) in
      numToString (getFullYear d)
  end.

(** The key the axis loops look up for the iterator [d]. *)
Definition axisKey (step : Step) (d : Z) : string :=
  match step with
  | StepDay => slice0 10 (toISOString d)
  | StepMonth =>
      numToString (getFullYear d) +:+ "-"
        +:+ padStart 2 "0" (numToString (getMonth d + 1))
  | StepYear => numToString (getFullYear d)
  end.

(** How each loop moves its iterator. *)
Definition advance (step : Step) (d : Z) : Z :=
  match step with
  | StepDay => setDate d (getDate d + 1)
  | StepMonth => setMonth d (getMonth d + 1)
  | StepYear => setFullYear d (getFullYear d + 1)
  end.

(** [buckets[key] || 0] *)
Definition bucketOrZero (buckets : gmap string Z) (key : string) : Z :=
  match buckets !! key with
  | Some v => if v =? 0 then 0 else v
  | None => 0
  end.

(** [if (!buckets[key]) buckets[key] = 0; buckets[key] += entry.caffeineMg;] *)
Definition addToBucket (step : Step) (buckets : gmap string Z)
    (entry : CaffeineEntry) : gmap string Z :=
  let key := entryKey step (timestamp entry) in
  let buckets1 :=
    match buckets !! key with
    | Some v => if v =? 0 then <[key := 0]> buckets else buckets
    | None => <[key := 0]> buckets
    end in
  <[key := default 0 (buckets1 !! key) + caffeineMg entry]> buckets1.

(** [CaffeineEntry.find({ timestamp: { $gte: startDate, $lte: now } })] *)
Definition inWindow (startDate now : Z) (e : CaffeineEntry) : bool :=
  (startDate <=? timestamp e) && (timestamp e <=? now).

Definition findInWindow (startDate now : Z) (store : list CaffeineEntry)
    : list CaffeineEntry :=
  List.filter (inWindow startDate now) store.

(** The three axis loops share one shape: while the iterator is not past
    [today], push a label and a value and advance by one step.  [None]
    means the fuel ran out before the loop condition failed. *)
Fixpoint axisLoop (fuel : nat) (step : Step) (labelFormatter : Z -> string)
    (buckets : gmap string Z) (today d : Z) : option (list string * list Z) :=
  match fuel with
  | O => None
  | S fuel' =>
      if d <=? today then
        let key := axisKey step d in
        match axisLoop fuel' step labelFormatter buckets today
                (advance step d) with
        | Some (ls, vs) =>
            Some (labelFormatter d :: ls, bucketOrZero buckets key :: vs)
        | None => None
        end
      else Some ([], [])
  end.

(** Every step moves the iterator at least one day forward
    ([advance_Day_lt]), so this many iterations suffice. *)
Definition axisFuel (today startDate : Z) : nat :=
  S (Z.to_nat (Day today - Day startDate + 1)).

(** The handler, after [requireAuth]; [period] is [req.query.period] and
    [now] the clock reading of [new Date()]. *)
Definition caffeineChart (period : option string) (now : Z)
    (store : list CaffeineEntry) : option (Response ChartData) :=
  let period := default "week" period in
  let today := setHours0 now in
  match chartPlan period today store with
  | PlanInvalidPeriod => Some (Error 400 "Invalid period")
  | PlanNoEntries => Some (Json 200 {| labels := []; values := [] |})
  | Plan startDate labelFormatter step =>
      let entries := findInWindow startDate now store in
      let buckets := fold_left (addToBucket step) entries ∅ in
      match axisLoop (axisFuel today startDate) step labelFormatter
              buckets today startDate with
      | Some (ls, vs) => Some (Json 200 {| labels := ls; values := vs |})
      | None => None
      end
  end.

(** The succession of iterator values the axis loop goes through. *)
Fixpoint axisDates (fuel : nat) (step : Step) (today d : Z) : list Z :=
  match fuel with
  | O => []
  | S fuel' =>
      if d <=? today then d :: axisDates fuel' step today (advance step d)
      else []
  end.

(** The sum of [caffeineMg] over a list of entries. *)
Definition sumMg (l : list CaffeineEntry) : Z :=
  foldr (fun e s => caffeineMg e + s) 0 l.

(** The entries of the store that belong to the bucket [key]: inside the
    window, and with a timestamp that truncates to [key]. *)
Definition bucketMembers (step : Step) (startDate now : Z) (key : string)
    (store : list CaffeineEntry) : list CaffeineEntry :=
  List.filter
    (fun e => inWindow startDate now e
              && String.eqb (entryKey step (timestamp e)) key) store.

(** Whether the time values [ts] and [d] agree once truncated to the
    granularity of the step: the same calendar day, the same calendar
    month, or the same calendar year. *)
Definition sameBucket (step : Step) (ts d : Z) : bool :=
  match step with
  | StepDay =>
      (getFullYear ts =? getFullYear d) && (getMonth ts =? getMonth d)
      && (getDate ts =? getDate d)
  | StepMonth =>
      (getFullYear ts =? getFullYear d) && (getMonth ts =? getMonth d)
  | StepYear => getFullYear ts =? getFullYear d
  end.

(** The entries of the store that the calendar puts into the bucket of the
    axis date [d]: inside the window, and of the day, month or year of
    [d]. *)
Definition calendarMembers (step : Step) (startDate now d : Z)
    (store : list CaffeineEntry) : list CaffeineEntry :=
  List.filter
    (fun e => inWindow startDate now e && sameBucket step (timestamp e) d)
    store.

(** ** POST /api/entries *)

(** [req.body], destructured. *)
Record EntryBody : Type := {
  bodyDrinkName : jsval;
  bodySizeName : jsval;
  bodyCaffeineMg : jsval;
  bodyCustomDescription : jsval;
  bodyIsCustomDrink : jsval
}.

(** [v.trim()]: a [TypeError] ([None]) unless [v] is a string. *)
Definition callTrim (v : jsval) : option string :=
  match v with
  | JStr s => Some (trim s)
  | _ => None
  end.

(** [`${a} ${b}`] on two strings. *)
Definition template2 (a b : string) : string := a +:+ " " +:+ b.

(** [customDescription ? customDescription.trim() : the empty string] *)
Definition trimOrEmpty (v : jsval) : option string :=
  if truthy v then callTrim v else Some EmptyString.

(** Mongoose's [required] on a String path rejects the empty string. *)
Definition requiredString (s : string) : bool := negb (String.eqb s EmptyString).

(** Validation run by [save()] against [caffeineEntrySchema]; the
    [String] paths were trimmed when they were set. *)
Definition validEntry (withUser : bool) (e : CaffeineEntry) : bool :=
  requiredString (drinkName e) && requiredString (sizeName e)
  && requiredString (fullName e) && (0 <=? caffeineMg e)
  && (negb withUser || (requiredString (userId e) && requiredString (userName e))).

(** [new CaffeineEntry({...})] followed by [save()]: the schema trims the
    [String] paths, fills [_id] and the [timestamp] default, and [save]
    rejects ([None]) a document that fails validation. *)
Definition saveEntry (withUser : bool) (doc : CaffeineEntry)
    (store : list CaffeineEntry) : option (CaffeineEntry * list CaffeineEntry) :=
  let doc' :=
    {| entryId := entryId doc;
       drinkName := trim (drinkName doc);
       sizeName := trim (sizeName doc);
       fullName := trim (fullName doc);
       caffeineMg := caffeineMg doc;
       customDescription := trim (customDescription doc);
       timestamp := timestamp doc;
       isCustomDrink := isCustomDrink doc;
       userId := userId doc;
       userName := userName doc;
       userAvatar := userAvatar doc |} in
  if validEntry withUser doc' then Some (doc', store ++ [doc']) else None.

Definition serverError {A S : Type} (msg : string) (s : S) : Response A * S :=
  (Error 500 msg, s).

(** The body of the handler, shared by the two variants: [owner] is the
    session user whose identity is copied into the entry, absent in the
    variant without sessions.  [newId] is the fresh [_id], [now] the
    clock reading used for the [timestamp] default. *)
Definition createEntry `{NumberParsing} (owner : option SessionUser)
    (body : EntryBody) (newId : string) (now : Z)
    (store : list CaffeineEntry)
    : Response CaffeineEntry * list CaffeineEntry :=
  let drinkName := bodyDrinkName body in
  let sizeName := bodySizeName body in
  let caffeineMg := bodyCaffeineMg body in
  if negb (truthy drinkName) || negb (truthy sizeName)
     || negb (truthy caffeineMg) || leZero caffeineMg
  then (Error 400
          "Drink name, size name, and positive caffeine amount are required",
        store)
  else
    match drinkName, sizeName with
    | JStr dn, JStr sn =>
        let fullName := template2 sn dn in
        match trimOrEmpty (bodyCustomDescription body), parseFloat caffeineMg with
        | Some description, Some mg =>
            let newEntry :=
              {| entryId := newId;
                 drinkName := trim dn;
                 sizeName := trim sn;
                 fullName := trim fullName;
                 caffeineMg := mg;
                 customDescription := description;
                 timestamp := now;
                 isCustomDrink := truthy (bodyIsCustomDrink body);
                 userId := from_option googleId EmptyString owner;
                 userName := from_option name EmptyString owner;
                 userAvatar := owner ≫= picture |} in
            match saveEntry (bool_decide (is_Some owner)) newEntry store with
            | Some (savedEntry, store') => (Json 201 savedEntry, store')
            | None => serverError "Failed to save entry" store
            end
        | _, _ => serverError "Failed to save entry" store
        end
    | _, _ => serverError "Failed to save entry" store
    end.

(** [app.post("/api/entries", requireAuth, ...)] of [server.js] *)
Definition postEntry `{NumberParsing} (session : option SessionUser)
    (body : EntryBody) (newId : string) (now : Z)
    (store : list CaffeineEntry)
    : Response CaffeineEntry * list CaffeineEntry :=
  requireAuth session
    (fun user => createEntry (Some user) body newId now store) store.

(** [app.post("/api/entries", ...)] of the variant without sessions *)
Definition postEntrySimple `{NumberParsing} (body : EntryBody) (newId : string)
    (now : Z) (store : list CaffeineEntry)
    : Response CaffeineEntry * list CaffeineEntry :=
  createEntry None body newId now store.

(** ** DELETE /api/entries/:id *)

(** [Model.findById(id)] and [Model.findByIdAndDelete(id)] cast the route
    parameter to an ObjectId before they query, and throw a [CastError]
    when it is none.  The cast belongs to the driver, not to this
    repository: [castObjectId s] is the hexadecimal string of
    [new ObjectId(s)], and [None] when the constructor throws.  Every
    release accepts 24 hexadecimal digits; older ones also accept any
    string of 12 bytes. *)
Class ObjectIdCast : Type := {
  castObjectId : string -> option string
}.

(** [CaffeineEntry.findById(id)], for the ObjectId [id] *)
Definition findEntryById (id : string) (store : list CaffeineEntry)
    : option CaffeineEntry :=
  List.find (fun e => String.eqb (entryId e) id) store.

(** [CaffeineEntry.findByIdAndDelete(id)] *)
Fixpoint deleteEntryById (id : string) (store : list CaffeineEntry)
    : list CaffeineEntry :=
  match store with
  | [] => []
  | e :: rest =>
      if String.eqb (entryId e) id then rest else e :: deleteEntryById id rest
  end.

(** The handler for a parameter that stands for the ObjectId [id]: what
    it does once the cast inside [findById] has succeeded. *)
Definition deleteEntry (session : option SessionUser) (id : string)
    (store : list CaffeineEntry) : Response string * list CaffeineEntry :=
  requireAuth session (fun user =>
    match findEntryById id store with
    | None => (Error 404 "Entry not found", store)
    | Some entry =>
        if negb (String.eqb (userId entry) (googleId user)) then
          (Error 403 "Not authorized to delete this entry", store)
        else
          (Json 200 "Entry deleted successfully", deleteEntryById id store)
    end) store.

(** The handler for the raw parameter [req.params.id]: after
    [requireAuth], a parameter that is no ObjectId makes [findById] throw,
    and the [catch] answers 500. *)
Definition deleteEntryRequest `{ObjectIdCast} (session : option SessionUser)
    (param : string) (store : list CaffeineEntry)
    : Response string * list CaffeineEntry :=
  requireAuth session (fun user =>
    match castObjectId param with
    | None => serverError "Failed to delete entry" store
    | Some id => deleteEntry (Some user) id store
    end) store.

(** ** Drink types *)

(** [DrinkType.find({ deleted: false }).sort({ name: 1 })] *)
Definition nameLe (a b : DrinkType) : Prop := String.le (typeName a) (typeName b).
Global Instance nameLe_dec a b : Decision (nameLe a b).
Proof. unfold nameLe. apply _. Defined.

Definition getTypes (session : option SessionUser) (store : list DrinkType)
    : Response (list DrinkType) * list DrinkType :=
  requireAuth session (fun _ =>
    (Json 200 (merge_sort nameLe (List.filter (fun t => negb (deleted t)) store)),
     store)) store.

(** One element of [req.body.sizes], and the field itself, which may be
    something else than an array. *)
Record SizeBody : Type := {
  sizeBodyName : jsval;
  sizeBodyCaffeineMg : jsval
}.

Inductive SizesField : Type :=
| SizesArray (elements : list SizeBody)
| SizesOther (v : jsval).

Record TypeBody : Type := {
  bodyName : jsval;
  bodyImageUrl : jsval;
  bodySizes : SizesField
}.

(** [!sizes || !Array.isArray(sizes) || sizes.length === 0] *)
Definition sizesMissing (f : SizesField) : bool :=
  match f with
  | SizesArray [] => true
  | SizesArray _ => false
  | SizesOther _ => true
  end.

Definition sizeElements (f : SizesField) : list SizeBody :=
  match f with
  | SizesArray l => l
  | SizesOther _ => []
  end.

(** [!size.name || !size.caffeineMg || size.caffeineMg <= 0] *)
Definition sizeInvalid `{NumberParsing} (size : SizeBody) : bool :=
  negb (truthy (sizeBodyName size)) || negb (truthy (sizeBodyCaffeineMg size))
  || leZero (sizeBodyCaffeineMg size).

(** [DrinkType.findOne({ name })] *)
Definition findTypeByName (n : string) (store : list DrinkType)
    : option DrinkType :=
  List.find (fun t => String.eqb (typeName t) n) store.

(** [sizes.map((size) => ({ name: size.name.trim(),
    caffeineMg: parseFloat(size.caffeineMg) }))]; [None] when a [trim]
    throws or a number does not cast. *)
Fixpoint mapSizes `{NumberParsing} (l : list SizeBody)
    : option (list SizeVariant) :=
  match l with
  | [] => Some []
  | size :: rest =>
      match callTrim (sizeBodyName size), parseFloat (sizeBodyCaffeineMg size),
            mapSizes rest with
      | Some n, Some mg, Some rest' =>
          Some ({| sizeVariantName := n; sizeCaffeineMg := mg |} :: rest')
      | _, _, _ => None
      end
  end.

(** [imageUrl ? imageUrl.trim() : "/images/noImage.png"] *)
Definition imageUrlOrDefault (v : jsval) : option string :=
  if truthy v then callTrim v else Some "/images/noImage.png".

(** Validation run by [save()] against [drinkTypeSchema]. *)
Definition validSize (s : SizeVariant) : bool :=
  requiredString (sizeVariantName s) && (0 <=? sizeCaffeineMg s).

Definition validType (t : DrinkType) : bool :=
  requiredString (typeName t) && forallb validSize (sizes t).

(** [new DrinkType({...})] followed by [save()]: the schema trims the
    [String] paths, and [save] rejects ([None]) an invalid document. *)
Definition saveType (doc : DrinkType) (store : list DrinkType)
    : option (DrinkType * list DrinkType) :=
  let doc' :=
    {| typeId := typeId doc;
       typeName := trim (typeName doc);
       imageUrl := trim (imageUrl doc);
       sizes := map (fun s => {| sizeVariantName := trim (sizeVariantName s);
                                 sizeCaffeineMg := sizeCaffeineMg s |})
                    (sizes doc);
       createdAt := createdAt doc;
       deleted := deleted doc |} in
  if validType doc' then Some (doc', store ++ [doc']) else None.

Definition postType `{NumberParsing} (session : option SessionUser)
    (body : TypeBody) (newId : string) (now : Z) (store : list DrinkType)
    : Response DrinkType * list DrinkType :=
  requireAuth session (fun user =>
    let name := bodyName body in
    let sizes := bodySizes body in
    if negb (truthy name) || sizesMissing sizes then
      (Error 400 "Name and at least one size variant are required", store)
    else if existsb sizeInvalid (sizeElements sizes) then
      (Error 400 "Each size must have a name and positive caffeine amount",
       store)
    else
      match callTrim name with
      | None => serverError "Failed to save drink type" store
      | Some trimmed =>
          match findTypeByName trimmed store with
          | Some existingType => (Error 400 "Drink type already exists", store)
          | None =>
              match imageUrlOrDefault (bodyImageUrl body),
                    mapSizes (sizeElements sizes) with
              | Some url, Some variants =>
                  let newType :=
                    {| typeId := newId;
                       typeName := trimmed;
                       imageUrl := url;
                       sizes := variants;
                       createdAt := now;
                       deleted := false |} in
                  match saveType newType store with
                  | Some (savedType, store') => (Json 201 savedType, store')
                  | None => serverError "Failed to save drink type" store
                  end
              | _, _ => serverError "Failed to save drink type" store
              end
          end
      end) store.

(** [DrinkType.findById(id)] *)
Definition findTypeById (id : string) (store : list DrinkType)
    : option DrinkType :=
  List.find (fun t => String.eqb (typeId t) id) store.

(** [drink.deleted = true; await drink.save()]: the stored document with
    this [_id] is replaced. *)
Definition markDeleted (t : DrinkType) : DrinkType :=
  {| typeId := typeId t; typeName := typeName t; imageUrl := imageUrl t;
     sizes := sizes t; createdAt := createdAt t; deleted := true |}.

Fixpoint saveDeleted (id : string) (store : list DrinkType) : list DrinkType :=
  match store with
  | [] => []
  | t :: rest =>
      if String.eqb (typeId t) id then markDeleted t :: rest
      else t :: saveDeleted id rest
  end.

(** The handler for a parameter that stands for the ObjectId [id]. *)
Definition deleteType (session : option SessionUser) (id : string)
    (store : list DrinkType) : Response string * list DrinkType :=
  requireAuth session (fun user =>
    match findTypeById id store with
    | None => (Error 404 "Drink type not found", store)
    | Some drink =>
        if deleted drink then
          (Error 400 "Drink type already deleted", store)
        else
          (Json 200
             ("Drink type " +:+ doubleQuote +:+ typeName drink +:+ doubleQuote
                +:+ " marked as deleted"),
           saveDeleted id store)
    end) store.

(** The handler for the raw parameter: 500 when it is no ObjectId. *)
Definition deleteTypeRequest `{ObjectIdCast} (session : option SessionUser)
    (param : string) (store : list DrinkType)
    : Response string * list DrinkType :=
  requireAuth session (fun user =>
    match castObjectId param with
    | None => serverError "Failed to delete drink type" store
    | Some id => deleteType (Some user) id store
    end) store.

(** ** GET /api/leaderboard *)

Module Leaderboard.

(** A row of the aggregation's output. *)
Record Row : Type := {
  userId : string;
  totalCaffeine : Z;
  entryCount : Z;
  userName : string;
  userAvatar : option string
}.

End Leaderboard.

(** The [switch (period)]: the lower bound of [dateFilter], [None] for the
    empty filter of "all"; an unknown period ends the request. *)
Definition leaderboardFilter (period : string) (now : Z) : option (option Z) :=
  if String.eqb period "week" then
    Some (Some (setDate now (getDate now - 7)))
  else if String.eqb period "month" then
    Some (Some (setMonth now (getMonth now - 1)))
  else if String.eqb period "year" then
    Some (Some (setFullYear now (getFullYear now - 1)))
  else if String.eqb period "all" then Some None
  else None.

(** [{ $match: dateFilter }] *)
Definition matchesFilter (dateFilter : option Z) (e : CaffeineEntry) : bool :=
  match dateFilter with
  | Some since => since <=? timestamp e
  | None => true
  end.

Definition stageMatch (dateFilter : option Z) (docs : list CaffeineEntry)
    : list CaffeineEntry :=
  List.filter (matchesFilter dateFilter) docs.

(** [{ $group: { _id: "$userId", totalCaffeine: { $sum: "$caffeineMg" },
    entryCount: { $sum: 1 }, userName: { $first: ... },
    userAvatar: { $first: ... } } }]: one accumulator per distinct
    [userId], in order of first appearance. *)
Fixpoint groupAdd (e : CaffeineEntry) (groups : list Leaderboard.Row)
    : list Leaderboard.Row :=
  match groups with
  | [] =>
      [ {| Leaderboard.userId := userId e;
           Leaderboard.totalCaffeine := caffeineMg e;
           Leaderboard.entryCount := 1;
           Leaderboard.userName := userName e;
           Leaderboard.userAvatar := userAvatar e |} ]
  | g :: rest =>
      if String.eqb (Leaderboard.userId g) (userId e) then
        {| Leaderboard.userId := Leaderboard.userId g;
           Leaderboard.totalCaffeine := Leaderboard.totalCaffeine g + caffeineMg e;
           Leaderboard.entryCount := Leaderboard.entryCount g + 1;
           Leaderboard.userName := Leaderboard.userName g;
           Leaderboard.userAvatar := Leaderboard.userAvatar g |} :: rest
      else g :: groupAdd e rest
  end.

Definition stageGroup (docs : list CaffeineEntry) : list Leaderboard.Row :=
  fold_left (fun groups e => groupAdd e groups) docs [].

(** [{ $sort: { totalCaffeine: -1 } }] *)
Definition byTotalDesc (a b : Leaderboard.Row) : Prop :=
  Leaderboard.totalCaffeine b <= Leaderboard.totalCaffeine a.
Global Instance byTotalDesc_dec a b : Decision (byTotalDesc a b).
Proof. unfold byTotalDesc. apply _. Defined.

Definition stageSort (rows : list Leaderboard.Row) : list Leaderboard.Row :=
  merge_sort byTotalDesc rows.

(** [{ $limit: 50 }] *)
Definition stageLimit (rows : list Leaderboard.Row) : list Leaderboard.Row :=
  take 50 rows.

(** The handler, after [requireAuth]; the final [$project] only renames
    [_id] to [userId], which the rows already carry under that name. *)
Definition leaderboard (period : option string) (now : Z)
    (store : list CaffeineEntry) : Response (list Leaderboard.Row) :=
  let period := default "week" period in
  match leaderboardFilter period now with
  | None => Error 400 "Invalid period"
  | Some dateFilter =>
      Json 200 (stageLimit (stageSort (stageGroup (stageMatch dateFilter store))))
  end.

(** The entries a row of the leaderboard accounts for. *)
Definition userEntries (dateFilter : option Z) (uid : string)
    (store : list CaffeineEntry) : list CaffeineEntry :=
  List.filter (fun e => matchesFilter dateFilter e && String.eqb (userId e) uid)
    store.

(** ** Auxiliary notions used in the statements *)

(** An implementation of the string conversions that reads a non-empty
    string of decimal digits as the number it denotes, and any other string
    as [NaN]. *)
Definition digitValue (c : ascii) : option Z :=
  let n := nat_of_ascii c in
  if ((48 <=? n) && (n <=? 57))%nat then Some (Z.of_nat n - 48) else None.

Fixpoint readDigits (acc : Z) (s : string) : option Z :=
  match s with
  | EmptyString => Some acc
  | String c s' =>
      match digitValue c with
      | Some v => readDigits (10 * acc + v) s'
      | None => None
      end
  end.

Definition readDecimal (s : string) : option Z :=
  match s with
  | EmptyString => None
  | _ => readDigits 0 s
  end.

Definition decimalStrings : NumberParsing :=
  {| StringToNumber := readDecimal; parseFloatString := readDecimal |}.

(** The number of calendar steps from the step holding [startDate] to the
    step holding [endDate], both included. *)
Definition calendarSteps (step : Step) (startDate endDate : Z) : Z :=
  match step with
  | StepDay => Day endDate - Day startDate + 1
  | StepMonth =>
      (12 * YearFromTime endDate + MonthFromTime endDate)
      - (12 * YearFromTime startDate + MonthFromTime startDate) + 1
  | StepYear => YearFromTime endDate - YearFromTime startDate + 1
  end.

(** Iterators aligned on a day, on the first day of a month, on the first
    day of a year. *)
Definition midnight (t : Z) : Prop := TimeWithinDay t = 0.
Definition firstOfMonth (t : Z) : Prop := midnight t /\ DateFromTime t = 1.
Definition firstOfYear (t : Z) : Prop := firstOfMonth t /\ MonthFromTime t = 0.

(** Sum and count of the accumulators filed under [uid]. *)
Definition totalOf (uid : string) (groups : list Leaderboard.Row) : Z :=
  foldr (fun g s =>
    if String.eqb (Leaderboard.userId g) uid
    then Leaderboard.totalCaffeine g + s else s) 0 groups.

Definition countOf (uid : string) (groups : list Leaderboard.Row) : Z :=
  foldr (fun g s =>
    if String.eqb (Leaderboard.userId g) uid
    then Leaderboard.entryCount g + s else s) 0 groups.


(** Sample data for the examples: a user, and an entry of that user with a
    given [_id], timestamp and amount. *)
Definition alice : SessionUser :=
  {| googleId := "g-alice"; email := "alice@example.org"; name := "Alice";
     picture := None |}.

Definition bob : SessionUser :=
  {| googleId := "g-bob"; email := "bob@example.org"; name := "Bob";
     picture := None |}.

Definition entryOf (user : SessionUser) (id : string) (ts mg : Z)
    : CaffeineEntry :=
  {| entryId := id; drinkName := "Coffee"; sizeName := "Large";
     fullName := "Large Coffee"; caffeineMg := mg;
     customDescription := EmptyString; timestamp := ts;
     isCustomDrink := false; userId := googleId user;
     userName := name user; userAvatar := picture user |}.

Definition espresso : DrinkType :=
  {| typeId := "t1"; typeName := "Espresso"; imageUrl := "/images/noImage.png";
     sizes := [ {| sizeVariantName := "Single"; sizeCaffeineMg := 63 |} ];
     createdAt := 0; deleted := false |}.

(** ** Authentication routes *)

Module User.

(** A document of the "users" collection ([userSchema]). *)
Record t : Type := {
  googleId : string;
  email : string;
  name : string;
  picture : option string;
  createdAt : Z;
  lastLoginAt : Z
}.

End User.

Module Payload.

(** [ticket.getPayload()]: the claims read by the handler.  [sub] is always
    present in a verified token, the others can be [undefined]. *)
Record t : Type := {
  sub : string;
  email : option string;
  name : option string;
  picture : option string
}.

End Payload.

(** [User.findOne({ googleId })] *)
Definition findUser (gid : string) (users : list User.t) : option User.t :=
  List.find (fun u => String.eqb (User.googleId u) gid) users.

(** Validation run by [save()] against [userSchema]: the three required
    paths. *)
Definition validUser (u : User.t) : bool :=
  requiredString (User.googleId u) && requiredString (User.email u)
  && requiredString (User.name u).

(** The unique index on [email]. *)
Definition emailTaken (e : string) (users : list User.t) : bool :=
  existsb (fun u => String.eqb (User.email u) e) users.

(** [await user.save()] for a document already in the collection. *)
Fixpoint replaceUser (u : User.t) (users : list User.t) : list User.t :=
  match users with
  | [] => []
  | v :: rest =>
      if String.eqb (User.googleId v) (User.googleId u) then u :: rest
      else v :: replaceUser u rest
  end.

(** [req.session.user = { googleId: user.googleId, ... }] *)
Definition sessionOf (u : User.t) : SessionUser :=
  {| googleId := User.googleId u; email := User.email u;
     name := User.name u; picture := User.picture u |}.

(** [app.post("/api/auth/google", ...)].  [ticket] is the outcome of
    [client.verifyIdToken]: [None] when it throws.  The state is the
    "users" collection and [req.session.user]. *)
Definition authGoogle (ticket : option Payload.t) (now : Z)
    (users : list User.t) (session : option SessionUser)
    : Response SessionUser * (list User.t * option SessionUser) :=
  match ticket with
  | None => (Error 400 "Invalid token", (users, session))
  | Some payload =>
      let googleId := Payload.sub payload in
      match findUser googleId users with
      | None =>
          let user :=
            {| User.googleId := googleId;
               User.email := default EmptyString (Payload.email payload);
               User.name := default EmptyString (Payload.name payload);
               User.picture := Payload.picture payload;
               User.createdAt := now;
               User.lastLoginAt := now |} in
          if validUser user && negb (emailTaken (User.email user) users) then
            (Json 200 (sessionOf user), (users ++ [user], Some (sessionOf user)))
          else (Error 400 "Invalid token", (users, session))
      | Some found =>
          let user :=
            {| User.googleId := User.googleId found;
               User.email := User.email found;
               User.name := User.name found;
               User.picture := Payload.picture payload;
               User.createdAt := User.createdAt found;
               User.lastLoginAt := now |} in
          if validUser user then
            (Json 200 (sessionOf user),
             (replaceUser user users, Some (sessionOf user)))
          else (Error 400 "Invalid token", (users, session))
      end
  end.

(** [app.get("/api/auth/check", ...)] *)
Definition authCheck (session : option SessionUser) : Response SessionUser :=
  match session with
  | Some user => Json 200 user
  | None => Error 401 "Not authenticated"
  end.

(** [app.post("/api/auth/logout", ...)]; [destroyFailed] is the [err] the
    session store hands to the callback of [req.session.destroy]. *)
Definition authLogout (destroyFailed : bool) (session : option SessionUser)
    : Response bool * option SessionUser :=
  if destroyFailed then (Error 500 "Failed to logout", session)
  else (Json 200 true, None).

(** ** GET /api/entries *)

(** [.sort({ timestamp: -1 })] *)
Definition newestFirst (a b : CaffeineEntry) : Prop :=
  timestamp b <= timestamp a.
Global Instance newestFirst_dec a b : Decision (newestFirst a b).
Proof. unfold newestFirst. apply _. Defined.


(** The variant without sessions has no limit. *)
Definition getEntriesSimple (store : list CaffeineEntry)
    : Response (list CaffeineEntry) :=
  Json 200 (merge_sort newestFirst store).

(** ** GET /api/total-today and GET /api/total-all *)

Module Totals.

Record t : Type := {
  total : Z;
  count : Z
}.

End Totals.

(** [entries.reduce((sum, entry) => sum + entry.caffeineMg, 0)] *)
Definition reduceMg (entries : list CaffeineEntry) : Z :=
  fold_left (fun sum entry => sum + caffeineMg entry) entries 0.

(** [CaffeineEntry.find({ timestamp: { $gte: today, $lt: tomorrow } })] *)
Definition findToday (today tomorrow : Z) (store : list CaffeineEntry)
    : list CaffeineEntry :=
  List.filter
    (fun e => (today <=? timestamp e) && (timestamp e <? tomorrow)) store.

Definition totalToday (now : Z) (store : list CaffeineEntry) : Totals.t :=
  let today := setHours0 now in
  let tomorrow := setDate today (getDate today + 1) in
  let todayEntries := findToday today tomorrow store in
  {| Totals.total := reduceMg todayEntries;
     Totals.count := Z.of_nat (length todayEntries) |}.

Definition totalAll (store : list CaffeineEntry) : Totals.t :=
  {| Totals.total := reduceMg store;
     Totals.count := Z.of_nat (length store) |}.

(** ** The variants that delete for good *)

(** [DELETE /api/entries/:id] without sessions, for a parameter that
    stands for the ObjectId [id]: [CaffeineEntry.findByIdAndDelete(id)],
    404 when it finds nothing. *)
Definition deleteEntrySimple (id : string) (store : list CaffeineEntry)
    : Response string * list CaffeineEntry :=
  match findEntryById id store with
  | None => (Error 404 "Entry not found", store)
  | Some deletedEntry =>
      (Json 200 "Entry deleted successfully", deleteEntryById id store)
  end.

(** The same handler for the raw parameter: [findByIdAndDelete] throws on
    a parameter that is no ObjectId, and the [catch] answers 500. *)
Definition deleteEntrySimpleRequest `{ObjectIdCast} (param : string)
    (store : list CaffeineEntry) : Response string * list CaffeineEntry :=
  match castObjectId param with
  | None => serverError "Failed to delete entry" store
  | Some id => deleteEntrySimple id store
  end.

(** [DrinkType.findByIdAndDelete(id)] *)
Fixpoint deleteTypeById (id : string) (store : list DrinkType)
    : list DrinkType :=
  match store with
  | [] => []
  | t :: rest =>
      if String.eqb (typeId t) id then rest else t :: deleteTypeById id rest
  end.

(** [DELETE /api/types/:id] of the second module of [server.js], for a
    parameter that stands for the ObjectId [id] *)
Definition deleteTypeHard (session : option SessionUser) (id : string)
    (store : list DrinkType) : Response string * list DrinkType :=
  requireAuth session (fun _ =>
    match findTypeById id store with
    | None => (Error 404 "Drink type not found", store)
    | Some deletedType =>
        (Json 200 "Drink type deleted successfully", deleteTypeById id store)
    end) store.

(** The same handler for the raw parameter. *)
Definition deleteTypeHardRequest `{ObjectIdCast}
    (session : option SessionUser) (param : string) (store : list DrinkType)
    : Response string * list DrinkType :=
  requireAuth session (fun user =>
    match castObjectId param with
    | None => serverError "Failed to delete drink type" store
    | Some id => deleteTypeHard (Some user) id store
    end) store.

(** [GET /api/types] of that module: [DrinkType.find().sort({ name: 1 })] *)
Definition getTypesAll (session : option SessionUser) (store : list DrinkType)
    : Response (list DrinkType) * list DrinkType :=
  requireAuth session (fun _ =>
    (Json 200 (merge_sort nameLe store), store)) store.

(** [GET /api/leaderboard] of that module: no "year" period. *)
Definition leaderboardFilterOld (period : string) (now : Z)
    : option (option Z) :=
  if String.eqb period "week" then
    Some (Some (setDate now (getDate now - 7)))
  else if String.eqb period "month" then
    Some (Some (setMonth now (getMonth now - 1)))
  else if String.eqb period "all" then Some None
  else None.

Definition leaderboardOld (period : option string) (now : Z)
    (store : list CaffeineEntry) : Response (list Leaderboard.Row) :=
  let period := default "week" period in
  match leaderboardFilterOld period now with
  | None => Error 400 "Invalid period"
  | Some dateFilter =>
      Json 200 (stageLimit (stageSort (stageGroup (stageMatch dateFilter store))))
  end.

(** ** The client's [escapeHtml] and [formatTime] *)

(** [map[m]] for the five characters of the regular expression: ampersand,
    less-than, greater-than, double quote and single quote; any other
    character is left in place. *)
Definition escapeChar (c : ascii) : string :=
  if Ascii.eqb c "&" then "&amp;"
  else if Ascii.eqb c "<" then "&lt;"
  else if Ascii.eqb c ">" then "&gt;"
  else if Ascii.eqb c (ascii_of_nat 34) then "&quot;"
  else if Ascii.eqb c "'" then "&#039;"
  else String c EmptyString.

Fixpoint escapeHtml (text : string) : string :=
  match text with
  | EmptyString => EmptyString
  | String c rest => escapeChar c +:+ escapeHtml rest
  end.

(** The characters [escapeHtml] exists to remove. *)
Definition isMarkup (c : ascii) : bool :=
  Ascii.eqb c "<" || Ascii.eqb c ">" || Ascii.eqb c (ascii_of_nat 34)
  || Ascii.eqb c "'".

Fixpoint stringForall (p : ascii -> bool) (s : string) : bool :=
  match s with
  | EmptyString => true
  | String c rest => p c && stringForall p rest
  end.

(** What the schema guarantees of a stored entry: the required names are
    present and trimmed, the amount is not negative, and the entry names
    its owner. *)
Definition entryWellFormed (e : CaffeineEntry) : Prop :=
  validEntry true e = true /\
  trim (drinkName e) = drinkName e /\
  trim (sizeName e) = sizeName e /\
  trim (fullName e) = fullName e.

Definition carol : User.t :=
  {| User.googleId := "g-carol"; User.email := "carol@example.org";
     User.name := "Carol"; User.picture := None; User.createdAt := 0;
     User.lastLoginAt := 0 |}.

(** Months counted from year 0: the index of the calendar month a time
    value falls in. *)
Definition monthIndex (t : Z) : Z := 12 * YearFromTime t + MonthFromTime t.

(** An iterator at midnight of day [dom] of some month. *)
Definition onDayOfMonth (dom : Z) (t : Z) : Prop :=
  midnight t /\ DateFromTime t = dom.

(** Sums over the rows of a leaderboard. *)
Definition sumTotals (rows : list Leaderboard.Row) : Z :=
  foldr (fun r s => Leaderboard.totalCaffeine r + s) 0 rows.

Definition sumCounts (rows : list Leaderboard.Row) : Z :=
  foldr (fun r s => Leaderboard.entryCount r + s) 0 rows.

(** Sample data: 51 users with one entry each, user [k] with [k + 1] mg. *)
Definition crowd : list CaffeineEntry :=
  map (fun k : nat =>
         {| entryId := "e" +:+ pretty k; drinkName := "Coffee";
            sizeName := "Large"; fullName := "Large Coffee";
            caffeineMg := Z.of_nat k + 1; customDescription := EmptyString;
            timestamp := 0; isCustomDrink := false;
            userId := "u" +:+ pretty k; userName := "User " +:+ pretty k;
            userAvatar := None |})
      (seq 0 51).

(** The cast of the current driver, for examples: exactly 24 hexadecimal
    digits, read without regard to case. *)
Definition isHexDigit (c : ascii) : bool :=
  let n := nat_of_ascii c in
  ((48 <=? n) && (n <=? 57) || (65 <=? n) && (n <=? 70)
   || (97 <=? n) && (n <=? 102))%nat.

Definition lowerHex (c : ascii) : ascii :=
  let n := nat_of_ascii c in
  if ((65 <=? n) && (n <=? 70))%nat then ascii_of_nat (n + 32) else c.

Fixpoint mapString (f : ascii -> ascii) (s : string) : string :=
  match s with
  | EmptyString => EmptyString
  | String c rest => String (f c) (mapString f rest)
  end.

Definition hexObjectIds : ObjectIdCast :=
  {| castObjectId s :=
       if (String.length s =? 24)%nat && stringForall isHexDigit s
       then Some (mapString lowerHex s) else None |}.

(** Sample documents with ObjectIds for [_id]. *)
Definition oidEntry1 : string := "65a1f0c2b3d4e5f6a7b8c901".
Definition oidEntry2 : string := "65a1f0c2b3d4e5f6a7b8c902".
Definition oidAbsent : string := "65a1f0c2b3d4e5f6a7b8c9ff".


Lemma DayFromYear_succ y :
  DayFromYear (y + 1) = DayFromYear y + DaysInYear y.
Proof.
  unfold DayFromYear, DaysInYear, isLeap.
  destruct (Z.eqb_spec (y mod 4) 0), (Z.eqb_spec (y mod 100) 0),
    (Z.eqb_spec (y mod 400) 0); simpl;
    Z.div_mod_to_equations; lia.
Qed.

Lemma YearFromDay_spec n :
  DayFromYear (YearFromDay n) <= n < DayFromYear (YearFromDay n + 1).
Proof.
  unfold YearFromDay.
  set (y := 1970 + 400 * n / 146097).
  destruct (Z.leb_spec (DayFromYear (y + 1)) n) as [H1|H1].
  - split; [lia|]. unfold DayFromYear in *. subst y.
    Z.div_mod_to_equations. lia.
  - destruct (Z.leb_spec (DayFromYear y) n) as [H2|H2].
    + lia.
    + replace (y - 1 + 1) with y by lia. split; [|lia].
      unfold DayFromYear in *. subst y.
      Z.div_mod_to_equations. lia.
Qed.

Lemma DayFromYear_lt y1 y2 :
  y1 < y2 -> DayFromYear y1 + 365 * (y2 - y1) <= DayFromYear y2.
Proof.
  intros H. replace y2 with (y1 + Z.of_nat (Z.to_nat (y2 - y1))) by lia.
  generalize (Z.to_nat (y2 - y1)) as k. clear H y2.
  induction k as [|k IH].
  - rewrite Z.add_0_r. lia.
  - replace (y1 + Z.of_nat (S k)) with (y1 + Z.of_nat k + 1) by lia.
    rewrite DayFromYear_succ. unfold DaysInYear.
    destruct (isLeap _); lia.
Qed.

Lemma YearFromDay_unique y n :
  DayFromYear y <= n < DayFromYear (y + 1) -> YearFromDay n = y.
Proof.
  intros Hy. pose proof (YearFromDay_spec n) as Hs.
  destruct (Z.lt_trichotomy (YearFromDay n) y) as [Hlt|[Heq|Hgt]]; [|done|].
  - destruct (Z.eq_dec (YearFromDay n + 1) y) as [He|Hne].
    + rewrite He in Hs. lia.
    + pose proof (DayFromYear_lt (YearFromDay n + 1) y ltac:(lia)). lia.
  - destruct (Z.eq_dec (y + 1) (YearFromDay n)) as [He|Hne].
    + rewrite He in Hy. lia.
    + pose proof (DayFromYear_lt (y + 1) (YearFromDay n) ltac:(lia)). lia.
Qed.

Lemma TimeWithinDay_bound t : 0 <= TimeWithinDay t < msPerDay.
Proof. unfold TimeWithinDay, msPerDay. apply Z.mod_pos_bound. lia. Qed.

Lemma Day_TimeWithinDay t : t = MakeDate (Day t) (TimeWithinDay t).
Proof.
  unfold MakeDate, Day, TimeWithinDay, msPerDay.
  pose proof (Z.div_mod t 86400000). lia.
Qed.

Lemma Day_MakeDate d tm : 0 <= tm < msPerDay -> Day (MakeDate d tm) = d.
Proof.
  unfold MakeDate, Day, msPerDay. intros H.
  Z.div_mod_to_equations. lia.
Qed.

Lemma TimeWithinDay_MakeDate d tm :
  0 <= tm < msPerDay -> TimeWithinDay (MakeDate d tm) = tm.
Proof.
  unfold MakeDate, TimeWithinDay, msPerDay. intros H.
  Z.div_mod_to_equations. lia.
Qed.

Lemma Day_mono t1 t2 : t1 <= t2 -> Day t1 <= Day t2.
Proof. unfold Day, msPerDay. intros. apply Z.div_le_mono; lia. Qed.

Lemma MonthFromTime_range t : 0 <= MonthFromTime t <= 11.
Proof.
  unfold MonthFromTime.
  repeat match goal with |- context [if ?b then _ else _] => destruct b end; lia.
Qed.

Lemma DayWithinYear_bound t :
  0 <= DayWithinYear t < DaysInYear (YearFromTime t).
Proof.
  unfold DayWithinYear, YearFromTime.
  pose proof (YearFromDay_spec (Day t)) as H.
  rewrite DayFromYear_succ in H. lia.
Qed.

(** Months 0..11 need no carry in [MakeDay]. *)
Lemma MakeDay_in_year y m d :
  0 <= m <= 11 -> MakeDay y m d = DayFromYear y + monthOffset (isLeap y) m + d - 1.
Proof.
  intros Hm. unfold MakeDay.
  rewrite (Z.div_small m 12), (Z.mod_small m 12) by lia.
  by rewrite Z.add_0_r.
Qed.

Lemma MakeDay_date y m d k : MakeDay y m (d + k) = MakeDay y m d + k.
Proof. unfold MakeDay. lia. Qed.

(** The civil date of a time value denotes its own day. *)
Lemma MakeDay_civil t :
  MakeDay (YearFromTime t) (MonthFromTime t) (DateFromTime t) = Day t.
Proof.
  rewrite MakeDay_in_year by apply MonthFromTime_range.
  unfold DateFromTime, DayWithinYear. lia.
Qed.

Lemma setDate_add t k : setDate t (getDate t + k) = t + k * msPerDay.
Proof.
  unfold setDate, getDate. rewrite MakeDay_date, MakeDay_civil.
  rewrite (Day_TimeWithinDay t) at 3. unfold MakeDate. lia.
Qed.

Lemma setHours0_Day t : Day (setHours0 t) = Day t.
Proof. unfold setHours0. apply Day_MakeDate. unfold msPerDay. lia. Qed.

Lemma setHours0_le t : setHours0 t <= t.
Proof.
  unfold setHours0. rewrite (Day_TimeWithinDay t) at 2.
  pose proof (TimeWithinDay_bound t). unfold MakeDate. lia.
Qed.

Lemma monthOffset_succ l m :
  0 <= m <= 10 -> monthOffset l m + 28 <= monthOffset l (m + 1).
Proof.
  intros Hm.
  assert (m = 0 \/ m = 1 \/ m = 2 \/ m = 3 \/ m = 4 \/ m = 5 \/ m = 6 \/
          m = 7 \/ m = 8 \/ m = 9 \/ m = 10) as Hc by lia.
  destruct l; repeat (destruct Hc as [->|Hc]; [vm_compute; discriminate|]);
    subst; vm_compute; discriminate.
Qed.

Lemma MakeDay_month_succ y m d :
  0 <= m <= 11 -> MakeDay y m d + 28 <= MakeDay y (m + 1) d.
Proof.
  intros Hm. destruct (Z.eq_dec m 11) as [->|Hne].
  - unfold MakeDay. change ((11 + 1) / 12) with 1. change ((11 + 1) mod 12) with 0.
    change (11 / 12) with 0. change (11 mod 12) with 11.
    rewrite Z.add_0_r, DayFromYear_succ. unfold DaysInYear.
    change (monthOffset (isLeap (y + 1)) 0) with 0.
    change (monthOffset (isLeap y) 11) with (334 + if isLeap y then 1 else 0).
    destruct (isLeap y); lia.
  - rewrite !MakeDay_in_year by lia.
    pose proof (monthOffset_succ (isLeap y) m). lia.
Qed.

Lemma monthOffset_leap_diff l1 l2 m :
  0 <= m <= 11 -> monthOffset l1 m - 1 <= monthOffset l2 m <= monthOffset l1 m + 1.
Proof.
  intros Hm. unfold monthOffset.
  repeat match goal with |- context [if ?b then _ else _] => destruct b end; lia.
Qed.

Lemma MakeDay_year_succ y m d :
  0 <= m <= 11 -> MakeDay y m d + 364 <= MakeDay (y + 1) m d.
Proof.
  intros Hm. rewrite !MakeDay_in_year by lia.
  rewrite DayFromYear_succ. unfold DaysInYear.
  pose proof (monthOffset_leap_diff (isLeap y) (isLeap (y + 1)) m Hm).
  destruct (isLeap y); lia.
Qed.

Lemma Day_setMonth t m :
  Day (setMonth t m) = MakeDay (YearFromTime t) m (DateFromTime t).
Proof. apply Day_MakeDate, TimeWithinDay_bound. Qed.

Lemma Day_setFullYear t y :
  Day (setFullYear t y) = MakeDay y (MonthFromTime t) (DateFromTime t).
Proof. apply Day_MakeDate, TimeWithinDay_bound. Qed.

Lemma Day_setDate t d :
  Day (setDate t d) = MakeDay (YearFromTime t) (MonthFromTime t) d.
Proof. apply Day_MakeDate, TimeWithinDay_bound. Qed.

(** Each of the three loops moves its iterator to a later day. *)
Lemma advance_Day_lt step d : Day d < Day (advance step d).
Proof.
  destruct step; simpl.
  - rewrite Day_setDate. unfold getDate.
    rewrite MakeDay_date, MakeDay_civil. lia.
  - rewrite Day_setMonth. unfold getMonth.
    pose proof (MakeDay_month_succ (YearFromTime d) (MonthFromTime d)
                  (DateFromTime d) (MonthFromTime_range d)).
    rewrite MakeDay_civil in H. lia.
  - rewrite Day_setFullYear. unfold getFullYear.
    pose proof (MakeDay_year_succ (YearFromTime d) (MonthFromTime d)
                  (DateFromTime d) (MonthFromTime_range d)).
    rewrite MakeDay_civil in H. lia.
Qed.

(** *** From a civil date back to its components *)

Lemma monthOffset_bound y m :
  0 <= m <= 11 -> 0 <= monthOffset (isLeap y) m < DaysInYear y - 30.
Proof.
  intros Hm. unfold DaysInYear, monthOffset.
  repeat match goal with |- context [if ?b then _ else _] => destruct b end; lia.
Qed.

Lemma MonthFromTime_first t y m :
  0 <= m <= 11 ->
  YearFromTime t = y ->
  DayWithinYear t = monthOffset (isLeap y) m ->
  MonthFromTime t = m.
Proof.
  intros Hm Hy Hd. unfold MonthFromTime. rewrite Hd, Hy. clear Hd Hy.
  assert (m = 0 \/ m = 1 \/ m = 2 \/ m = 3 \/ m = 4 \/ m = 5 \/ m = 6 \/
          m = 7 \/ m = 8 \/ m = 9 \/ m = 10 \/ m = 11) as Hc by lia.
  destruct (isLeap y);
    repeat (destruct Hc as [->|Hc]; [reflexivity|]); subst; reflexivity.
Qed.

(** The first of month [m] of year [y], at any time of the day, reads back
    as year [y], month [m], date 1. *)
Lemma civil_first_of_month t y m :
  0 <= m <= 11 ->
  Day t = MakeDay y m 1 ->
  YearFromTime t = y /\ MonthFromTime t = m /\ DateFromTime t = 1.
Proof.
  intros Hm Hday. rewrite MakeDay_in_year in Hday by done.
  pose proof (monthOffset_bound y m Hm) as Hoff.
  assert (YearFromTime t = y) as Hy.
  { unfold YearFromTime. apply YearFromDay_unique.
    rewrite DayFromYear_succ. lia. }
  assert (DayWithinYear t = monthOffset (isLeap y) m) as Hd.
  { unfold DayWithinYear. rewrite Hy. lia. }
  assert (MonthFromTime t = m) as Hmo by (by apply MonthFromTime_first with y).
  repeat split; try done.
  unfold DateFromTime. rewrite Hy, Hmo, Hd. lia.
Qed.

Lemma MakeDay_normal y m d : MakeDay y m d = MakeDay (y + m / 12) (m mod 12) d.
Proof.
  unfold MakeDay.
  rewrite (Z.div_small (m mod 12) 12) by (apply Z.mod_pos_bound; lia).
  rewrite Z.mod_mod by lia. by rewrite Z.add_0_r.
Qed.

(** Two time values with the same month and date, less than 365 days
    apart, fall on the same day. *)
Lemma same_month_date_same_day t1 t2 :
  MonthFromTime t1 = MonthFromTime t2 ->
  DateFromTime t1 = DateFromTime t2 ->
  Z.abs (Day t1 - Day t2) < 365 ->
  Day t1 = Day t2.
Proof.
  intros Hm Hd Hclose.
  rewrite <- (MakeDay_civil t1), <- (MakeDay_civil t2) in *.
  rewrite <- Hm, <- Hd in *.
  pose proof (MonthFromTime_range t1) as Hr.
  set (m := MonthFromTime t1) in *. set (d := DateFromTime t1) in *.
  set (y1 := YearFromTime t1) in *. set (y2 := YearFromTime t2) in *.
  clearbody m d y1 y2. clear Hm Hd.
  rewrite !MakeDay_in_year in * by done.
  assert (forall ya yb, ya < yb ->
    DayFromYear ya + monthOffset (isLeap ya) m + 365
      <= DayFromYear yb + monthOffset (isLeap yb) m) as Hstep.
  { intros ya yb Hlt.
    destruct (Z.leb_spec m 1) as [Hm1|Hm2].
    - assert (monthOffset (isLeap ya) m = monthOffset (isLeap yb) m) as ->.
      { assert (m = 0 \/ m = 1) as [->| ->] by lia; reflexivity. }
      pose proof (DayFromYear_lt ya yb Hlt). lia.
    - pose proof (DayFromYear_lt (ya + 1) (yb + 1) ltac:(lia)) as H.
      rewrite !DayFromYear_succ in H. unfold DaysInYear in H.
      assert (forall l, monthOffset l m =
                monthOffset false m + if l then 1 else 0) as Hoff.
      { intros l. unfold monthOffset.
        repeat match goal with
               | |- context [?a =? ?b] => destruct (Z.eqb_spec a b) end;
          destruct l; lia. }
      rewrite (Hoff (isLeap ya)), (Hoff (isLeap yb)).
      destruct (isLeap ya), (isLeap yb); lia. }
  destruct (Z.lt_trichotomy y1 y2) as [Hlt|[->|Hgt]]; [|done|].
  - specialize (Hstep y1 y2 Hlt). lia.
  - specialize (Hstep y2 y1 Hgt). lia.
Qed.


(** *** The bucket map *)

Lemma bucketOrZero_addToBucket step buckets e key :
  bucketOrZero (addToBucket step buckets e) key =
  if String.eqb (entryKey step (timestamp e)) key
  then bucketOrZero buckets key + caffeineMg e
  else bucketOrZero buckets key.
Proof.
  unfold addToBucket, bucketOrZero.
  set (k := entryKey step (timestamp e)).
  destruct (String.eqb_spec k key) as [<-|Hne].
  - destruct (buckets !! k) as [v|] eqn:Hk.
    + destruct (Z.eqb_spec v 0) as [->|Hv].
      * rewrite !lookup_insert_eq. simpl.
        destruct (Z.eqb_spec (0 + caffeineMg e) 0); lia.
      * rewrite lookup_insert_eq, Hk. simpl.
        destruct (Z.eqb_spec (v + caffeineMg e) 0); lia.
    + rewrite !lookup_insert_eq. simpl.
      destruct (Z.eqb_spec (0 + caffeineMg e) 0); lia.
  - destruct (buckets !! k) as [v|] eqn:Hk.
    + destruct (Z.eqb_spec v 0) as [->|Hv];
        by rewrite ?lookup_insert_ne by done.
    + by rewrite !lookup_insert_ne by done.
Qed.

Lemma bucketOrZero_fold step entries buckets key :
  bucketOrZero (fold_left (addToBucket step) entries buckets) key =
  bucketOrZero buckets key
  + sumMg (List.filter
             (fun e => String.eqb (entryKey step (timestamp e)) key) entries).
Proof.
  revert buckets. induction entries as [|e entries IH]; intros buckets; simpl.
  - lia.
  - rewrite IH, bucketOrZero_addToBucket.
    destruct (String.eqb _ key); simpl; lia.
Qed.

Lemma filter_filter_andb {A} (p q : A -> bool) (l : list A) :
  List.filter q (List.filter p l) = List.filter (fun x => p x && q x) l.
Proof.
  induction l as [|x l IH]; simpl; [done|].
  destruct (p x); simpl; [destruct (q x)|]; by rewrite IH.
Qed.

(** What the chart reads for a key is the sum over that bucket's members. *)
Lemma bucketOrZero_window step startDate now store key :
  bucketOrZero
    (fold_left (addToBucket step) (findInWindow startDate now store) ∅) key
  = sumMg (bucketMembers step startDate now key store).
Proof.
  rewrite bucketOrZero_fold. unfold findInWindow, bucketMembers.
  rewrite filter_filter_andb. unfold bucketOrZero.
  rewrite lookup_empty. lia.
Qed.

(** *** The axis loops *)

Lemma axisLoop_Some fuel step fmt buckets today d ls vs :
  axisLoop fuel step fmt buckets today d = Some (ls, vs) ->
  ls = map fmt (axisDates fuel step today d) /\
  vs = map (fun x => bucketOrZero buckets (axisKey step x))
           (axisDates fuel step today d).
Proof.
  revert d ls vs. induction fuel as [|fuel IH]; intros d ls vs; simpl; [done|].
  destruct (d <=? today).
  - destruct (axisLoop fuel step fmt buckets today (advance step d))
      as [[ls' vs']|] eqn:Hrec; [|done].
    intros [= <- <-]. destruct (IH _ _ _ Hrec) as [-> ->]. done.
  - by intros [= <- <-].
Qed.

(** The loop stops because its condition fails, not for lack of fuel. *)
Lemma axisLoop_terminates fuel step fmt buckets today d :
  (Z.to_nat (Day today - Day d + 1) < fuel)%nat ->
  is_Some (axisLoop fuel step fmt buckets today d).
Proof.
  revert d. induction fuel as [|fuel IH]; intros d Hf; simpl; [lia|].
  destruct (Z.leb_spec d today) as [Hle|Hgt]; [|by eexists].
  pose proof (advance_Day_lt step d) as Hadv.
  pose proof (Day_mono _ _ Hle) as Hday.
  destruct (IH (advance step d)) as [[ls vs] ->]; [lia|by eexists].
Qed.

(** With enough fuel the walk is the same whatever the fuel. *)
Lemma axisDates_fuel fuel1 fuel2 step today d :
  (Z.to_nat (Day today - Day d + 1) < fuel1)%nat ->
  (Z.to_nat (Day today - Day d + 1) < fuel2)%nat ->
  axisDates fuel1 step today d = axisDates fuel2 step today d.
Proof.
  revert fuel2 d. induction fuel1 as [|fuel1 IH]; intros fuel2 d H1 H2; [lia|].
  destruct fuel2 as [|fuel2]; [lia|]. simpl.
  destruct (Z.leb_spec d today) as [Hle|Hgt]; [|done].
  pose proof (advance_Day_lt step d) as Hadv.
  pose proof (Day_mono _ _ Hle) as Hday.
  f_equal. apply IH; lia.
Qed.

Lemma caffeineChart_plan period now store startDate fmt step :
  chartPlan (default "week" period) (setHours0 now) store
    = Plan startDate fmt step ->
  let dates :=
    axisDates (axisFuel (setHours0 now) startDate) step (setHours0 now)
      startDate in
  caffeineChart period now store =
  Some (Json 200
    {| labels := map fmt dates;
       values := map (fun d => sumMg (bucketMembers step startDate now
                                        (axisKey step d) store)) dates |}).
Proof.
  intros Hplan dates. unfold caffeineChart. rewrite Hplan.
  destruct (axisLoop_terminates (axisFuel (setHours0 now) startDate) step fmt
    (fold_left (addToBucket step) (findInWindow startDate now store) ∅)
    (setHours0 now) startDate) as [[ls vs] Hloop].
  { unfold axisFuel. lia. }
  rewrite Hloop. apply axisLoop_Some in Hloop as [-> ->].
  do 3 f_equal. apply map_ext. intros d. apply bucketOrZero_window.
Qed.

(** The chart always answers: the axis loops never run out of fuel. *)
Lemma caffeineChart_total period now store :
  is_Some (caffeineChart period now store).
Proof.
  destruct (chartPlan (default "week" period) (setHours0 now) store)
    as [startDate fmt step| |] eqn:Hplan.
  - eexists. by apply caffeineChart_plan.
  - unfold caffeineChart. rewrite Hplan. by eexists.
  - unfold caffeineChart. rewrite Hplan. by eexists.
Qed.

(** *** Earliest and latest entry *)

Lemma findEarliest_fold store acc :
  match fold_left (fun acc e =>
          match acc with
          | None => Some e
          | Some a => if timestamp e <? timestamp a then Some e else Some a
          end) store acc with
  | Some a =>
      (forall e, e ∈ store -> timestamp a <= timestamp e) /\
      (forall a0, acc = Some a0 -> timestamp a <= timestamp a0) /\
      (a ∈ store \/ acc = Some a)
  | None => store = [] /\ acc = None
  end.
Proof.
  revert acc. induction store as [|e store IH]; intros acc; simpl.
  - destruct acc as [a|]; [|done].
    split; [by intros e ?%elem_of_nil|]. split; [by intros ? [= <-]|by right].
  - specialize (IH (match acc with
                    | None => Some e
                    | Some a => if timestamp e <? timestamp a then Some e else Some a
                    end)).
    destruct (fold_left _ store _) as [a|].
    + destruct IH as (Hall & Hacc & Hin). split; [|split].
      * intros e' [->|He']%elem_of_cons; [|by apply Hall].
        destruct acc as [a0|]; [|by apply Hacc].
        destruct (Z.ltb_spec (timestamp e) (timestamp a0));
          [by apply Hacc|].
        specialize (Hacc a0 eq_refl). lia.
      * intros a0 ->. destruct (Z.ltb_spec (timestamp e) (timestamp a0)).
        -- specialize (Hacc e eq_refl). lia.
        -- by apply Hacc.
      * destruct Hin as [Hin|Hin]; [left; by right|].
        destruct acc as [a0|].
        -- destruct (timestamp e <? timestamp a0); injection Hin as <-;
             [left; left|by right].
        -- injection Hin as <-. left. left.
    + destruct IH as [_ Hacc]. destruct acc as [a0|]; [|done].
      by destruct (timestamp e <? timestamp a0).
Qed.

Lemma findLatest_fold store acc :
  match fold_left (fun acc e =>
          match acc with
          | None => Some e
          | Some a => if timestamp a <? timestamp e then Some e else Some a
          end) store acc with
  | Some a =>
      (forall e, e ∈ store -> timestamp e <= timestamp a) /\
      (forall a0, acc = Some a0 -> timestamp a0 <= timestamp a) /\
      (a ∈ store \/ acc = Some a)
  | None => store = [] /\ acc = None
  end.
Proof.
  revert acc. induction store as [|e store IH]; intros acc; simpl.
  - destruct acc as [a|]; [|done].
    split; [by intros e ?%elem_of_nil|]. split; [by intros ? [= <-]|by right].
  - specialize (IH (match acc with
                    | None => Some e
                    | Some a => if timestamp a <? timestamp e then Some e else Some a
                    end)).
    destruct (fold_left _ store _) as [a|].
    + destruct IH as (Hall & Hacc & Hin). split; [|split].
      * intros e' [->|He']%elem_of_cons; [|by apply Hall].
        destruct acc as [a0|]; [|by apply Hacc].
        destruct (Z.ltb_spec (timestamp a0) (timestamp e));
          [by apply Hacc|].
        specialize (Hacc a0 eq_refl). lia.
      * intros a0 ->. destruct (Z.ltb_spec (timestamp a0) (timestamp e)).
        -- specialize (Hacc e eq_refl). lia.
        -- by apply Hacc.
      * destruct Hin as [Hin|Hin]; [left; by right|].
        destruct acc as [a0|].
        -- destruct (timestamp a0 <? timestamp e); injection Hin as <-;
             [left; left|by right].
        -- injection Hin as <-. left. left.
    + destruct IH as [_ Hacc]. destruct acc as [a0|]; [|done].
      by destruct (timestamp a0 <? timestamp e).
Qed.

Lemma findEarliest_spec store a :
  findEarliest store = Some a ->
  a ∈ store /\ forall e, e ∈ store -> timestamp a <= timestamp e.
Proof.
  unfold findEarliest. intros H. pose proof (findEarliest_fold store None) as Hf.
  rewrite H in Hf. destruct Hf as (Hall & _ & [Hin|?]); done.
Qed.

Lemma findLatest_spec store a :
  findLatest store = Some a ->
  a ∈ store /\ forall e, e ∈ store -> timestamp e <= timestamp a.
Proof.
  unfold findLatest. intros H. pose proof (findLatest_fold store None) as Hf.
  rewrite H in Hf. destruct Hf as (Hall & _ & [Hin|?]); done.
Qed.


(** *** Label formats determine the civil components they print *)

Lemma monthShort_cases m :
  exists a b c, monthShort m = String a (String b (String c EmptyString)).
Proof.
  unfold monthShort.
  repeat match goal with |- context [if ?b then _ else _] => destruct b end;
    by do 3 eexists.
Qed.

Lemma monthShort_inj m1 m2 :
  0 <= m1 <= 11 -> 0 <= m2 <= 11 ->
  monthShort m1 = monthShort m2 -> m1 = m2.
Proof.
  intros H1 H2.
  assert (m1 = 0 \/ m1 = 1 \/ m1 = 2 \/ m1 = 3 \/ m1 = 4 \/ m1 = 5 \/ m1 = 6
          \/ m1 = 7 \/ m1 = 8 \/ m1 = 9 \/ m1 = 10 \/ m1 = 11) as C1 by lia.
  assert (m2 = 0 \/ m2 = 1 \/ m2 = 2 \/ m2 = 3 \/ m2 = 4 \/ m2 = 5 \/ m2 = 6
          \/ m2 = 7 \/ m2 = 8 \/ m2 = 9 \/ m2 = 10 \/ m2 = 11) as C2 by lia.
  clear H1 H2.
  repeat (destruct C1 as [->|C1]); try subst m1;
    repeat (destruct C2 as [->|C2]); try subst m2;
    first [reflexivity | vm_compute; discriminate].
Qed.

Lemma monthShort_append_inj m1 m2 s1 s2 :
  0 <= m1 <= 11 -> 0 <= m2 <= 11 ->
  monthShort m1 +:+ " " +:+ s1 = monthShort m2 +:+ " " +:+ s2 ->
  m1 = m2 /\ s1 = s2.
Proof.
  intros H1 H2 Heq.
  destruct (monthShort_cases m1) as (a1 & b1 & c1 & E1).
  destruct (monthShort_cases m2) as (a2 & b2 & c2 & E2).
  rewrite E1, E2 in Heq. cbn in Heq. injection Heq as Ha Hb Hc Hs.
  split; [|done]. apply monthShort_inj; [done..|]. rewrite E1, E2. congruence.
Qed.

Lemma numToString_inj n1 n2 : numToString n1 = numToString n2 -> n1 = n2.
Proof. unfold numToString. apply (inj pretty). Qed.

Lemma fmtMonthDay_inj d1 d2 :
  fmtMonthDay d1 = fmtMonthDay d2 ->
  getMonth d1 = getMonth d2 /\ getDate d1 = getDate d2.
Proof.
  unfold fmtMonthDay. intros H.
  apply monthShort_append_inj in H as [Hm Hd];
    [|apply MonthFromTime_range..].
  split; [done|]. by apply numToString_inj.
Qed.

Lemma fmtMonthYear_inj d1 d2 :
  fmtMonthYear d1 = fmtMonthYear d2 ->
  getMonth d1 = getMonth d2 /\ getFullYear d1 = getFullYear d2.
Proof.
  unfold fmtMonthYear. intros H.
  apply monthShort_append_inj in H as [Hm Hd];
    [|apply MonthFromTime_range..].
  split; [done|]. by apply numToString_inj.
Qed.

Lemma fmtYear_inj d1 d2 : fmtYear d1 = fmtYear d2 -> getFullYear d1 = getFullYear d2.
Proof. apply numToString_inj. Qed.

(** *** What the iterator visits *)

Lemma advance_lt step d : d < advance step d.
Proof.
  pose proof (advance_Day_lt step d) as H.
  destruct (Z.lt_ge_cases d (advance step d)) as [|Hge]; [done|].
  apply Day_mono in Hge. lia.
Qed.

Lemma axisDates_bounds fuel step today d x :
  In x (axisDates fuel step today d) -> d <= x <= today.
Proof.
  revert d. induction fuel as [|fuel IH]; intros d; simpl; [done|].
  destruct (Z.leb_spec d today) as [Hle|Hgt]; [|done].
  intros [<-|Hin]; [lia|].
  apply IH in Hin. pose proof (advance_lt step d). lia.
Qed.

Lemma axisDates_invariant (P : Z -> Prop) fuel step today d :
  (forall t, P t -> P (advance step t)) ->
  P d -> Forall P (axisDates fuel step today d).
Proof.
  intros Hstep. revert d. induction fuel as [|fuel IH]; intros d Hd; simpl.
  - constructor.
  - destruct (d <=? today); constructor; [done|]. apply IH, Hstep, Hd.
Qed.

Lemma axisDates_NoDup fuel step today d :
  List.NoDup (axisDates fuel step today d).
Proof.
  revert d. induction fuel as [|fuel IH]; intros d; simpl; [constructor|].
  destruct (d <=? today); constructor; [|apply IH].
  intros Hin. apply axisDates_bounds in Hin.
  pose proof (advance_lt step d). lia.
Qed.

Lemma NoDup_map_on {A B} (f : A -> B) (l : list A) :
  (forall x y, In x l -> In y l -> f x = f y -> x = y) ->
  List.NoDup l -> List.NoDup (map f l).
Proof.
  induction l as [|a l IH]; intros Hinj Hnd; simpl; [constructor|].
  inversion Hnd as [|? ? Hnotin Hnd']; subst. constructor.
  - intros Hin. apply in_map_iff in Hin as (y & Hfy & Hy).
    assert (y = a) as -> by (apply Hinj; simpl; auto).
    contradiction.
  - apply IH; [|done]. intros x y Hx Hy. apply Hinj; simpl; auto.
Qed.

(** *** Aligned iterators *)


Lemma midnight_MakeDate day : midnight (MakeDate day 0).
Proof. apply TimeWithinDay_MakeDate. unfold msPerDay. lia. Qed.

Lemma midnight_setHours0 t : midnight (setHours0 t).
Proof. apply midnight_MakeDate. Qed.

Lemma midnight_eq t1 t2 : midnight t1 -> midnight t2 -> Day t1 = Day t2 -> t1 = t2.
Proof.
  unfold midnight. intros H1 H2 Hd.
  rewrite (Day_TimeWithinDay t1), (Day_TimeWithinDay t2). congruence.
Qed.

Lemma midnight_advance step t : midnight t -> midnight (advance step t).
Proof.
  unfold midnight. intros Ht.
  destruct step; simpl; unfold setDate, setMonth, setFullYear; rewrite Ht;
    apply midnight_MakeDate.
Qed.

Lemma firstOfMonth_MakeDay y m :
  firstOfMonth (MakeDate (MakeDay y m 1) 0)
  /\ YearFromTime (MakeDate (MakeDay y m 1) 0) = y + m / 12
  /\ MonthFromTime (MakeDate (MakeDay y m 1) 0) = m mod 12.
Proof.
  destruct (civil_first_of_month (MakeDate (MakeDay y m 1) 0)
              (y + m / 12) (m mod 12)) as (Hy & Hm & Hd).
  { pose proof (Z.mod_pos_bound m 12). lia. }
  { rewrite Day_MakeDate by (unfold msPerDay; lia). apply MakeDay_normal. }
  repeat split; try done. apply midnight_MakeDate.
Qed.

Lemma firstOfMonth_advance t : firstOfMonth t -> firstOfMonth (advance StepMonth t).
Proof.
  intros [Hmid Hd]. simpl. unfold setMonth. rewrite Hmid, Hd.
  apply firstOfMonth_MakeDay.
Qed.

Lemma firstOfYear_advance t : firstOfYear t -> firstOfYear (advance StepYear t).
Proof.
  intros [[Hmid Hd] Hm]. simpl. unfold setFullYear. rewrite Hmid, Hd, Hm.
  destruct (firstOfMonth_MakeDay (getFullYear t + 1) 0) as (H1 & _ & H3).
  split; [done|]. by rewrite H3.
Qed.

Lemma firstOfMonth_eq t1 t2 :
  firstOfMonth t1 -> firstOfMonth t2 ->
  YearFromTime t1 = YearFromTime t2 -> MonthFromTime t1 = MonthFromTime t2 ->
  t1 = t2.
Proof.
  intros [Hm1 Hd1] [Hm2 Hd2] Hy Hm. apply midnight_eq; [done..|].
  rewrite <- (MakeDay_civil t1), <- (MakeDay_civil t2). congruence.
Qed.

(** *** Distinct labels along an axis *)

Lemma labels_NoDup_month fuel today d :
  firstOfMonth d ->
  List.NoDup (map fmtMonthYear (axisDates fuel StepMonth today d)).
Proof.
  intros Hd. apply NoDup_map_on; [|apply axisDates_NoDup].
  pose proof (axisDates_invariant firstOfMonth fuel StepMonth today d
                firstOfMonth_advance Hd) as Hall.
  rewrite List.Forall_forall in Hall.
  intros x y Hx Hy Heq. apply fmtMonthYear_inj in Heq as [Hm Hyr].
  apply firstOfMonth_eq; auto.
Qed.

Lemma labels_NoDup_year fuel today d :
  firstOfYear d ->
  List.NoDup (map fmtYear (axisDates fuel StepYear today d)).
Proof.
  intros Hd. apply NoDup_map_on; [|apply axisDates_NoDup].
  pose proof (axisDates_invariant firstOfYear fuel StepYear today d
                firstOfYear_advance Hd) as Hall.
  rewrite List.Forall_forall in Hall.
  intros x y Hx Hy Heq. apply fmtYear_inj in Heq.
  destruct (Hall x Hx) as [Hfx Hmx]. destruct (Hall y Hy) as [Hfy Hmy].
  apply firstOfMonth_eq; auto. congruence.
Qed.

Lemma labels_NoDup_day fuel today d :
  midnight d -> Day today - Day d < 365 ->
  List.NoDup (map fmtMonthDay (axisDates fuel StepDay today d)).
Proof.
  intros Hd Hspan. apply NoDup_map_on; [|apply axisDates_NoDup].
  pose proof (axisDates_invariant midnight fuel StepDay today d
                (midnight_advance StepDay) Hd) as Hall.
  rewrite List.Forall_forall in Hall.
  intros x y Hx Hy Heq. apply fmtMonthDay_inj in Heq as [Hm Hdt].
  apply midnight_eq; auto.
  apply axisDates_bounds in Hx, Hy.
  apply same_month_date_same_day; [done..|].
  destruct Hx as [Hx1 Hx2], Hy as [Hy1 Hy2].
  apply Day_mono in Hx1, Hx2, Hy1, Hy2. lia.
Qed.

(** *** The daily axis *)

Lemma midnight_le t1 t2 : midnight t1 -> midnight t2 -> (t1 <= t2 <-> Day t1 <= Day t2).
Proof.
  unfold midnight. intros H1 H2. split; [apply Day_mono|].
  rewrite (Day_TimeWithinDay t1) at 2. rewrite (Day_TimeWithinDay t2) at 2.
  rewrite H1, H2. unfold MakeDate, msPerDay. lia.
Qed.

Lemma advance_day d : advance StepDay d = d + msPerDay.
Proof. simpl. rewrite setDate_add. lia. Qed.

Lemma Day_add_day d : Day (d + msPerDay) = Day d + 1.
Proof. unfold Day, msPerDay. Z.div_mod_to_equations. lia. Qed.

Lemma axisDates_day fuel today d :
  midnight d -> midnight today ->
  (Z.to_nat (Day today - Day d + 1) < fuel)%nat ->
  axisDates fuel StepDay today d =
  map (fun k : nat => d + Z.of_nat k * msPerDay)
      (seq 0 (Z.to_nat (Day today - Day d + 1))).
Proof.
  intros Hd Ht. revert d Hd. induction fuel as [|fuel IH]; intros d Hd Hf; [lia|].
  cbn [axisDates].
  pose proof (midnight_le d today Hd Ht) as Hle.
  destruct (Z.leb_spec d today) as [Hdt|Hdt].
  - assert (Day d <= Day today) as Hday by (by apply Hle).
    rewrite advance_day.
    rewrite IH; [| |rewrite Day_add_day; lia].
    2:{ rewrite <- advance_day. by apply midnight_advance. }
    rewrite Day_add_day.
    replace (Z.to_nat (Day today - Day d + 1))
      with (S (Z.to_nat (Day today - (Day d + 1) + 1))) by lia.
    cbn [seq map]. f_equal; [lia|].
    rewrite <- seq_shift, map_map. apply map_ext. intros k. lia.
  - assert (Day today < Day d) as Hday by lia.
    by replace (Z.to_nat (Day today - Day d + 1)) with 0%nat by lia.
Qed.


(** ** Bucket keys and the calendar *)

(** *** Strings *)

Lemma string_app_cons c a b : String c a +:+ b = String c (a +:+ b).
Proof. reflexivity. Qed.

Lemma string_app_length a b :
  String.length (a +:+ b) = (String.length a + String.length b)%nat.
Proof.
  induction a as [|c a IH]; [done|].
  rewrite string_app_cons. cbn [String.length]. by rewrite IH.
Qed.

Lemma string_app_assoc a b c : (a +:+ b) +:+ c = a +:+ (b +:+ c).
Proof.
  induction a as [|x a IH]; [done|]. rewrite !string_app_cons. by rewrite IH.
Qed.

Lemma string_app_inj_prefix a b s t :
  String.length a = String.length b -> a +:+ s = b +:+ t -> a = b /\ s = t.
Proof.
  revert b. induction a as [|x a IH]; intros [|y b] Hlen; try done.
  rewrite !string_app_cons. intros [= -> Heq].
  destruct (IH b) as [-> ->]; [by injection Hlen|done|done].
Qed.

Lemma string_app_inj_suffix a b s t :
  String.length s = String.length t -> a +:+ s = b +:+ t -> a = b /\ s = t.
Proof.
  intros Hlen Heq. apply string_app_inj_prefix; [|done].
  apply (f_equal String.length) in Heq. rewrite !string_app_length in Heq. lia.
Qed.

Lemma slice0_app a r : slice0 (String.length a) (a +:+ r) = a.
Proof.
  unfold slice0. induction a as [|c a IH].
  - cbn [String.length]. by destruct (EmptyString +:+ r).
  - rewrite string_app_cons. cbn [String.length String.substring]. by rewrite IH.
Qed.

(** *** Padded decimals *)

(** Reading back a padded decimal, checked over the whole range. *)
Lemma padded_decimal_checked (width bound : nat) n :
  forallb
    (fun k : nat =>
       let s := padStart width "0" (numToString (Z.of_nat k)) in
       (String.length s =? width)%nat
       && match readDecimal s with
          | Some v => v =? Z.of_nat k
          | None => false
          end) (seq 0 bound) = true ->
  0 <= n < Z.of_nat bound ->
  String.length (padStart width "0" (numToString n)) = width /\
  readDecimal (padStart width "0" (numToString n)) = Some n.
Proof.
  intros Hall Hn. rewrite forallb_forall in Hall.
  specialize (Hall (Z.to_nat n)). rewrite Z2Nat.id in Hall by lia.
  cbv zeta in Hall. rewrite andb_true_iff, Nat.eqb_eq in Hall.
  destruct Hall as [Hlen Hread]; [apply in_seq; lia|]. split; [done|].
  destruct (readDecimal _) as [v|]; [|done].
  by apply Z.eqb_eq in Hread as ->.
Qed.

Lemma pad2_spec n :
  0 <= n <= 99 ->
  String.length (padStart 2 "0" (numToString n)) = 2%nat /\
  readDecimal (padStart 2 "0" (numToString n)) = Some n.
Proof.
  intros Hn. apply (padded_decimal_checked 2 100); [|lia].
  vm_compute. reflexivity.
Qed.

Lemma pad4_spec n :
  0 <= n <= 9999 ->
  String.length (padStart 4 "0" (numToString n)) = 4%nat /\
  readDecimal (padStart 4 "0" (numToString n)) = Some n.
Proof.
  intros Hn. apply (padded_decimal_checked 4 (Z.to_nat 10000)).
  - vm_compute. reflexivity.
  - rewrite Z2Nat.id; lia.
Qed.

Lemma pad2_inj n1 n2 :
  0 <= n1 <= 99 -> 0 <= n2 <= 99 ->
  padStart 2 "0" (numToString n1) = padStart 2 "0" (numToString n2) -> n1 = n2.
Proof.
  intros H1 H2 Heq. destruct (pad2_spec n1 H1) as [_ R1].
  destruct (pad2_spec n2 H2) as [_ R2]. congruence.
Qed.

Lemma pad4_inj n1 n2 :
  0 <= n1 <= 9999 -> 0 <= n2 <= 9999 ->
  padStart 4 "0" (numToString n1) = padStart 4 "0" (numToString n2) -> n1 = n2.
Proof.
  intros H1 H2 Heq. destruct (pad4_spec n1 H1) as [_ R1].
  destruct (pad4_spec n2 H2) as [_ R2]. congruence.
Qed.

(** *** Calendar components *)

Lemma YearFromTime_setHours0 t : YearFromTime (setHours0 t) = YearFromTime t.
Proof. unfold YearFromTime. by rewrite setHours0_Day. Qed.

Lemma MonthFromTime_setHours0 t : MonthFromTime (setHours0 t) = MonthFromTime t.
Proof.
  unfold MonthFromTime, DayWithinYear.
  by rewrite YearFromTime_setHours0, setHours0_Day.
Qed.

Lemma DateFromTime_setHours0 t : DateFromTime (setHours0 t) = DateFromTime t.
Proof.
  unfold DateFromTime, DayWithinYear.
  by rewrite MonthFromTime_setHours0, YearFromTime_setHours0, setHours0_Day.
Qed.

Lemma YearFromTime_mono t1 t2 : t1 <= t2 -> YearFromTime t1 <= YearFromTime t2.
Proof.
  intros Hle%Day_mono. unfold YearFromTime.
  pose proof (YearFromDay_spec (Day t1)) as H1.
  pose proof (YearFromDay_spec (Day t2)) as H2.
  destruct (Z.le_gt_cases (YearFromDay (Day t1)) (YearFromDay (Day t2)))
    as [|Hgt]; [done|].
  destruct (Z.eq_dec (YearFromDay (Day t2) + 1) (YearFromDay (Day t1)))
    as [E|Hne].
  - rewrite E in H2. lia.
  - pose proof (DayFromYear_lt (YearFromDay (Day t2) + 1)
                  (YearFromDay (Day t1)) ltac:(lia)). lia.
Qed.

Lemma DateFromTime_range t : 1 <= DateFromTime t <= 31.
Proof.
  pose proof (DayWithinYear_bound t) as Hw.
  unfold DateFromTime, MonthFromTime, DaysInYear in *.
  destruct (isLeap (YearFromTime t));
    repeat match goal with
           | |- context [?a <? ?b] => destruct (Z.ltb_spec a b)
           end;
    repeat match goal with
           | |- context [monthOffset ?l ?c] =>
               let v := eval vm_compute in (monthOffset l c) in
               change (monthOffset l c) with v
           end; lia.
Qed.

(** Moving to the first of the month, or to the first of January, keeps
    the month and the year. *)
Lemma civil_setDate_1 ts :
  YearFromTime (setHours0 (setDate ts 1)) = YearFromTime ts /\
  MonthFromTime (setHours0 (setDate ts 1)) = MonthFromTime ts.
Proof.
  rewrite YearFromTime_setHours0, MonthFromTime_setHours0.
  destruct (civil_first_of_month (setDate ts 1) (YearFromTime ts)
              (MonthFromTime ts) (MonthFromTime_range ts) (Day_setDate ts 1))
    as (Hy & Hm & _).
  by split.
Qed.

Lemma Day_setMonthDate t m d :
  Day (setMonthDate t m d) = MakeDay (YearFromTime t) m d.
Proof. apply Day_MakeDate, TimeWithinDay_bound. Qed.

Lemma civil_setMonthDate_jan1 ts :
  YearFromTime (setHours0 (setMonthDate ts 0 1)) = YearFromTime ts.
Proof.
  rewrite YearFromTime_setHours0.
  by destruct (civil_first_of_month (setMonthDate ts 0 1) (YearFromTime ts) 0
                 ltac:(lia) (Day_setMonthDate ts 0 1)) as (Hy & _).
Qed.

(** *** Keys *)

(** The first ten characters of the ISO string of a date with a four-digit
    year. *)
Lemma isoDate_slice d :
  0 <= YearFromTime d <= 9999 ->
  slice0 10 (toISOString d)
  = padStart 4 "0" (numToString (YearFromTime d))
    +:+ "-" +:+ padStart 2 "0" (numToString (MonthFromTime d + 1))
    +:+ "-" +:+ padStart 2 "0" (numToString (DateFromTime d)).
Proof.
  intros Hy. unfold toISOString, isoYear. cbv zeta.
  destruct (Z.leb_spec 0 (YearFromTime d)); [|lia].
  destruct (Z.leb_spec (YearFromTime d) 9999); [|lia]. cbn [andb].
  pose proof (MonthFromTime_range d) as Hm.
  pose proof (DateFromTime_range d) as Hd.
  destruct (pad4_spec (YearFromTime d) Hy) as [L4 _].
  destruct (pad2_spec (MonthFromTime d + 1) ltac:(lia)) as [Lm _].
  destruct (pad2_spec (DateFromTime d) ltac:(lia)) as [Ld _].
  set (Y := padStart 4 "0" (numToString (YearFromTime d))) in *.
  set (M := padStart 2 "0" (numToString (MonthFromTime d + 1))) in *.
  set (D := padStart 2 "0" (numToString (DateFromTime d))) in *.
  match goal with
  | |- slice0 10 (Y +:+ "-" +:+ M +:+ "-" +:+ D +:+ ?rest) = _ =>
      replace (Y +:+ "-" +:+ M +:+ "-" +:+ D +:+ rest)
        with ((Y +:+ "-" +:+ M +:+ "-" +:+ D) +:+ rest)
        by (by rewrite !string_app_assoc)
  end.
  replace 10%nat with (String.length (Y +:+ "-" +:+ M +:+ "-" +:+ D)).
  - apply slice0_app.
  - rewrite !string_app_length, L4, Lm, Ld. reflexivity.
Qed.

Lemma dayKey_eq t1 t2 :
  0 <= YearFromTime t1 <= 9999 -> 0 <= YearFromTime t2 <= 9999 ->
  slice0 10 (toISOString t1) = slice0 10 (toISOString t2) <->
  YearFromTime t1 = YearFromTime t2 /\ MonthFromTime t1 = MonthFromTime t2
  /\ DateFromTime t1 = DateFromTime t2.
Proof.
  intros H1 H2. rewrite !isoDate_slice by done.
  pose proof (MonthFromTime_range t1). pose proof (MonthFromTime_range t2).
  pose proof (DateFromTime_range t1). pose proof (DateFromTime_range t2).
  split.
  - intros Heq.
    apply string_app_inj_prefix in Heq as [Hy Heq];
      [|by rewrite (proj1 (pad4_spec _ H1)), (proj1 (pad4_spec _ H2))].
    apply pad4_inj in Hy; [|done..].
    apply String.app_inj in Heq.
    apply string_app_inj_prefix in Heq as [Hm Heq];
      [|by rewrite (proj1 (pad2_spec (MonthFromTime t1 + 1) ltac:(lia))),
                   (proj1 (pad2_spec (MonthFromTime t2 + 1) ltac:(lia)))].
    apply pad2_inj in Hm; [|lia..].
    apply String.app_inj in Heq. apply pad2_inj in Heq; [|lia..].
    repeat split; lia.
  - by intros (-> & -> & ->).
Qed.

Lemma monthKey_eq t1 t2 :
  numToString (YearFromTime t1) +:+ "-"
    +:+ padStart 2 "0" (numToString (MonthFromTime t1 + 1))
  = numToString (YearFromTime t2) +:+ "-"
    +:+ padStart 2 "0" (numToString (MonthFromTime t2 + 1)) <->
  YearFromTime t1 = YearFromTime t2 /\ MonthFromTime t1 = MonthFromTime t2.
Proof.
  pose proof (MonthFromTime_range t1). pose proof (MonthFromTime_range t2).
  split.
  - intros Heq.
    apply string_app_inj_suffix in Heq as [Hy Heq].
    + apply numToString_inj in Hy. apply String.app_inj in Heq.
      apply pad2_inj in Heq; [|lia..]. split; lia.
    + rewrite !string_app_length.
      by rewrite (proj1 (pad2_spec (MonthFromTime t1 + 1) ltac:(lia))),
                 (proj1 (pad2_spec (MonthFromTime t2 + 1) ltac:(lia))).
  - by intros (-> & ->).
Qed.

(** The key of an entry equals the key of an axis date exactly when the
    two lie on the same calendar day, in the same calendar month or in
    the same calendar year; for the ISO keys of the daily step this needs
    years of four digits. *)
Lemma key_sameBucket step ts d :
  (step = StepDay ->
   0 <= YearFromTime ts <= 9999 /\ 0 <= YearFromTime d <= 9999) ->
  String.eqb (entryKey step ts) (axisKey step d) = sameBucket step ts d.
Proof.
  intros Hrange. apply eq_true_iff_eq. rewrite String.eqb_eq.
  unfold entryKey, axisKey, sameBucket, getFullYear, getMonth, getDate.
  destruct step; cbv zeta.
  - destruct (Hrange eq_refl) as [H1 H2].
    rewrite dayKey_eq by (by rewrite ?YearFromTime_setHours0).
    rewrite YearFromTime_setHours0, MonthFromTime_setHours0,
      DateFromTime_setHours0.
    rewrite !andb_true_iff, !Z.eqb_eq. tauto.
  - rewrite monthKey_eq. destruct (civil_setDate_1 ts) as [-> ->].
    by rewrite andb_true_iff, !Z.eqb_eq.
  - rewrite civil_setMonthDate_jan1, Z.eqb_eq.
    split; [apply numToString_inj|by intros ->].
Qed.

(** Both ways of collecting a bucket give the same entries. *)
Lemma bucketMembers_calendar step startDate now d store :
  (step = StepDay -> 0 <= YearFromTime startDate /\ YearFromTime now <= 9999) ->
  startDate <= d <= now ->
  bucketMembers step startDate now (axisKey step d) store
  = calendarMembers step startDate now d store.
Proof.
  intros Hrange Hd. unfold bucketMembers, calendarMembers.
  apply filter_ext_in_iff. intros e _. unfold inWindow.
  destruct (Z.leb_spec startDate (timestamp e)) as [Hlo|]; [|done].
  destruct (Z.leb_spec (timestamp e) now) as [Hhi|]; [|done].
  cbn [andb]. rewrite key_sameBucket; [done|].
  intros Hstep. destruct (Hrange Hstep) as [H0 H9].
  pose proof (YearFromTime_mono _ _ Hlo).
  pose proof (YearFromTime_mono _ _ Hhi).
  pose proof (YearFromTime_mono _ _ (proj1 Hd)).
  pose proof (YearFromTime_mono _ _ (proj2 Hd)). lia.
Qed.


(** *** [trim] *)

Lemma trimEnd_nonws c s :
  isWhiteSpace c = false -> trimEnd (String c s) = String c (trimEnd s).
Proof. intros Hc. simpl. rewrite Hc. by destruct (trimEnd s). Qed.

Lemma trimEnd_ws c s :
  isWhiteSpace c = true ->
  trimEnd (String c s) =
  match trimEnd s with EmptyString => EmptyString | r => String c r end.
Proof. intros Hc. simpl. by rewrite Hc. Qed.

Lemma trimStart_trimEnd_comm s : trimEnd (trimStart s) = trimStart (trimEnd s).
Proof.
  induction s as [|c s IH]; [done|].
  destruct (isWhiteSpace c) eqn:Hc.
  - rewrite trimEnd_ws by done. cbn [trimStart]. rewrite Hc, IH.
    destruct (trimEnd s) as [|c' r]; [done|]. cbn [trimStart]. by rewrite Hc.
  - cbn [trimStart]. rewrite Hc, trimEnd_nonws by done.
    cbn [trimStart]. by rewrite Hc.
Qed.

Lemma trimStart_idemp s : trimStart (trimStart s) = trimStart s.
Proof.
  induction s as [|c s IH]; [done|]. simpl.
  destruct (isWhiteSpace c) eqn:Hc; [done|]. simpl. by rewrite Hc.
Qed.

Lemma trimEnd_idemp s : trimEnd (trimEnd s) = trimEnd s.
Proof.
  induction s as [|c s IH]; [done|].
  destruct (isWhiteSpace c) eqn:Hc.
  - rewrite trimEnd_ws by done.
    destruct (trimEnd s) as [|c' r] eqn:Hr; [done|].
    rewrite trimEnd_ws by done. by rewrite IH.
  - rewrite !trimEnd_nonws by done. by rewrite IH.
Qed.

Lemma trim_idemp s : trim (trim s) = trim s.
Proof.
  unfold trim.
  by rewrite <- trimStart_trimEnd_comm, trimStart_idemp, trimEnd_idemp.
Qed.

Lemma trimStart_app a b :
  trimStart a <> EmptyString -> trimStart (a +:+ b) = trimStart a +:+ b.
Proof.
  induction a as [|c a IH]; [done|]. simpl.
  destruct (isWhiteSpace c); [apply IH|done].
Qed.

Lemma trimEnd_app a b :
  trimEnd b <> EmptyString -> trimEnd (a +:+ b) = a +:+ trimEnd b.
Proof.
  intros Hb. induction a as [|c a IH]; [done|].
  change (String c a +:+ b) with (String c (a +:+ b)).
  change (String c a +:+ trimEnd b) with (String c (a +:+ trimEnd b)).
  destruct (isWhiteSpace c) eqn:Hc.
  - rewrite trimEnd_ws, IH by done.
    destruct (a +:+ trimEnd b) as [|c' r] eqn:Hr; [|done].
    destruct a; simpl in Hr; [contradiction|discriminate].
  - by rewrite trimEnd_nonws, IH.
Qed.

Lemma trimEnd_empty_trim s : trim s <> EmptyString -> trimStart s <> EmptyString.
Proof. unfold trim. intros H Hs. by rewrite Hs in H. Qed.

(** [trim] of a template of two non-blank strings keeps everything between
    the first and the last character that is not white space. *)
Lemma trim_template2 sn dn :
  trim sn <> EmptyString -> trim dn <> EmptyString ->
  trim (template2 sn dn) = trimStart sn +:+ " " +:+ trimEnd dn.
Proof.
  intros Hs Hd. unfold trim, template2.
  rewrite trimStart_app by by apply trimEnd_empty_trim.
  assert (trimEnd dn <> EmptyString) as Hd'.
  { unfold trim in Hd. rewrite trimStart_trimEnd_comm in Hd.
    intros E. by rewrite E in Hd. }
  rewrite trimEnd_app.
  - f_equal. by rewrite (trimEnd_app " " dn).
  - rewrite (trimEnd_app " " dn) by done. done.
Qed.

(** *** POST /api/entries *)

Lemma createEntry_falsy `{NumberParsing} owner body newId now store :
  truthy (bodyDrinkName body) = false \/ truthy (bodySizeName body) = false
  \/ truthy (bodyCaffeineMg body) = false \/ leZero (bodyCaffeineMg body) = true ->
  createEntry owner body newId now store =
  (Error 400
     "Drink name, size name, and positive caffeine amount are required",
   store).
Proof.
  intros Hc. unfold createEntry.
  destruct Hc as [-> | [-> | [-> | ->]]]; simpl;
    by rewrite ?orb_true_r.
Qed.

Lemma createEntry_created `{NumberParsing} owner body newId now store e store' :
  createEntry owner body newId now store = (Json 201 e, store') ->
  exists sn dn,
    bodySizeName body = JStr sn /\ bodyDrinkName body = JStr dn /\
    sizeName e = trim sn /\ drinkName e = trim dn /\
    fullName e = trim (template2 sn dn) /\
    trim sn <> EmptyString /\ trim dn <> EmptyString /\
    store' = store ++ [e].
Proof.
  unfold createEntry.
  destruct (_ || _ || _ || _); [done|].
  destruct (bodyDrinkName body) as [| | | |dn]; try done.
  destruct (bodySizeName body) as [| | | |sn]; try done.
  destruct (trimOrEmpty _) as [description|]; [|done].
  destruct (parseFloat _) as [mg|]; [|done].
  unfold saveEntry. cbn [drinkName sizeName fullName].
  destruct (validEntry _ _) eqn:Hvalid; [|done].
  intros [= <- <-]. exists sn, dn. cbn.
  rewrite !trim_idemp.
  unfold validEntry in Hvalid. cbn in Hvalid.
  rewrite !trim_idemp in Hvalid.
  repeat (apply andb_prop in Hvalid as [Hvalid ?]).
  unfold requiredString in *.
  repeat split; try done.
  - intros E. rewrite E in *. done.
  - intros E. rewrite E in *. done.
Qed.

(** *** DELETE /api/entries/:id *)

Lemma findEntryById_None id store :
  (forall e, e ∈ store -> entryId e <> id) -> findEntryById id store = None.
Proof.
  intros Hno. unfold findEntryById. induction store as [|e store IH]; [done|].
  simpl. destruct (String.eqb_spec (entryId e) id) as [Heq|Hne].
  - exfalso. apply (Hno e); [left|done].
  - apply IH. intros e' He'. apply Hno. by right.
Qed.

Lemma findEntryById_Some id store e :
  findEntryById id store = Some e -> e ∈ store /\ entryId e = id.
Proof.
  unfold findEntryById. induction store as [|e' store IH]; [done|]. simpl.
  destruct (String.eqb_spec (entryId e') id) as [Heq|Hne].
  - intros [= <-]. split; [left|done].
  - intros Hf. destruct (IH Hf). split; [by right|done].
Qed.

Lemma findEntryById_unique id store e :
  NoDup (map entryId store) -> e ∈ store -> entryId e = id ->
  findEntryById id store = Some e.
Proof.
  unfold findEntryById. induction store as [|e' store IH]; simpl.
  - intros _ Hin. by apply elem_of_nil in Hin.
  - intros Hnd Hin Hid. apply NoDup_cons in Hnd as [Hnotin Hnd].
    destruct (String.eqb_spec (entryId e') id) as [Heq|Hne].
    + apply elem_of_cons in Hin as [->|Hin]; [done|].
      exfalso. apply Hnotin. rewrite Heq, <- Hid.
      apply list_elem_of_In, in_map, list_elem_of_In, Hin.
    + apply elem_of_cons in Hin as [->|Hin]; [done|]. by apply IH.
Qed.

Lemma deleteEntryById_other id store e :
  e ∈ store -> entryId e <> id -> e ∈ deleteEntryById id store.
Proof.
  induction store as [|e' store IH]; simpl; [done|].
  intros Hin Hne. destruct (String.eqb_spec (entryId e') id) as [Heq|Hne'].
  - apply elem_of_cons in Hin as [->|Hin]; [done|done].
  - apply elem_of_cons in Hin as [->|Hin]; [left|right; by apply IH].
Qed.

Lemma deleteEntryById_gone id store e :
  NoDup (map entryId store) -> entryId e = id -> e ∉ deleteEntryById id store.
Proof.
  induction store as [|e' store IH]; simpl.
  - intros _ _ Hin. by apply elem_of_nil in Hin.
  - intros Hnd Hid. apply NoDup_cons in Hnd as [Hnotin Hnd].
    destruct (String.eqb_spec (entryId e') id) as [Heq|Hne'].
    + intros Hin. apply Hnotin. rewrite Heq, <- Hid.
      apply list_elem_of_In, in_map, list_elem_of_In, Hin.
    + intros Hin. apply elem_of_cons in Hin as [->|Hin]; [done|].
      by apply IH in Hin.
Qed.

(** *** Drink types *)

Lemma findTypeById_split id store drink :
  findTypeById id store = Some drink ->
  exists before after,
    store = before ++ drink :: after /\
    saveDeleted id store = before ++ markDeleted drink :: after.
Proof.
  unfold findTypeById. induction store as [|t store IH]; [done|]. simpl.
  destruct (String.eqb_spec (typeId t) id) as [Heq|Hne].
  - intros [= <-]. by exists [], store.
  - intros Hf. destruct (IH Hf) as (before & after & -> & ->).
    by exists (t :: before), after.
Qed.

Lemma findTypeByName_elem n store t :
  t ∈ store -> typeName t = n -> is_Some (findTypeByName n store).
Proof.
  unfold findTypeByName. induction store as [|t' store IH]; simpl.
  - intros Hin. by apply elem_of_nil in Hin.
  - intros Hin Hn. destruct (String.eqb_spec (typeName t') n); [by eexists|].
    apply elem_of_cons in Hin as [->|Hin]; [done|]. by apply IH.
Qed.

Lemma findTypeByName_None n store :
  findTypeByName n store = None -> n ∉ map typeName store.
Proof.
  unfold findTypeByName. induction store as [|t store IH]; simpl.
  - intros _ Hin. by apply elem_of_nil in Hin.
  - destruct (String.eqb_spec (typeName t) n) as [|Hne]; [done|].
    intros Hf Hin. apply elem_of_cons in Hin as [->|Hin]; [done|]. by apply IH.
Qed.

Lemma saveDeleted_names id store :
  map typeName (saveDeleted id store) = map typeName store.
Proof.
  induction store as [|t store IH]; [done|]. simpl.
  destruct (String.eqb (typeId t) id); simpl; [done|]. by rewrite IH.
Qed.

(** Every request to the drink-type routes keeps the names of the
    collection pairwise distinct. *)
Lemma deleteType_unique_names session id store resp store' :
  NoDup (map typeName store) ->
  deleteType session id store = (resp, store') ->
  NoDup (map typeName store').
Proof.
  intros Hnd. unfold deleteType, requireAuth.
  destruct session; [|by intros [= <- <-]].
  destruct (findTypeById id store) as [drink|]; [|by intros [= <- <-]].
  destruct (deleted drink); intros [= <- <-]; [done|].
  by rewrite saveDeleted_names.
Qed.

Lemma postType_unique_names `{NumberParsing} session body newId now store
    resp store' :
  NoDup (map typeName store) ->
  postType session body newId now store = (resp, store') ->
  NoDup (map typeName store').
Proof.
  intros Hnd. unfold postType, requireAuth, serverError.
  destruct session; [|by intros [= <- <-]].
  destruct (_ || _); [by intros [= <- <-]|].
  destruct (existsb _ _); [by intros [= <- <-]|].
  destruct (callTrim _) as [trimmed|] eqn:Htrim; [|by intros [= <- <-]].
  destruct (findTypeByName trimmed store) eqn:Hfind; [by intros [= <- <-]|].
  destruct (imageUrlOrDefault _); [|by intros [= <- <-]].
  destruct (mapSizes _); [|by intros [= <- <-]].
  unfold saveType. cbn [typeName].
  destruct (validType _); intros [= <- <-]; [|done].
  rewrite map_app. cbn [map typeName].
  apply NoDup_app. split; [done|]. split; [|apply NoDup_singleton].
  intros n Hn Hn'. apply list_elem_of_singleton in Hn' as ->.
  apply findTypeByName_None in Hfind.
  destruct (bodyName body); try done. cbn in Htrim.
  injection Htrim as <-. by rewrite trim_idemp in Hn.
Qed.


(** *** The [$group] stage *)

Lemma totalOf_groupAdd uid e groups :
  totalOf uid (groupAdd e groups) =
  totalOf uid groups + if String.eqb (userId e) uid then caffeineMg e else 0.
Proof.
  induction groups as [|g groups IH]; simpl.
  - destruct (String.eqb (userId e) uid); lia.
  - destruct (String.eqb_spec (Leaderboard.userId g) (userId e)) as [Heq|Hne];
      simpl.
    + rewrite Heq. destruct (String.eqb (userId e) uid); lia.
    + rewrite IH. destruct (String.eqb (Leaderboard.userId g) uid); lia.
Qed.

Lemma countOf_groupAdd uid e groups :
  countOf uid (groupAdd e groups) =
  countOf uid groups + if String.eqb (userId e) uid then 1 else 0.
Proof.
  induction groups as [|g groups IH]; simpl.
  - destruct (String.eqb (userId e) uid); lia.
  - destruct (String.eqb_spec (Leaderboard.userId g) (userId e)) as [Heq|Hne];
      simpl.
    + rewrite Heq. destruct (String.eqb (userId e) uid); lia.
    + rewrite IH. destruct (String.eqb (Leaderboard.userId g) uid); lia.
Qed.

Lemma groupAdd_ids_old e groups :
  userId e ∈ map Leaderboard.userId groups ->
  map Leaderboard.userId (groupAdd e groups) = map Leaderboard.userId groups.
Proof.
  induction groups as [|g groups IH]; cbn [groupAdd map].
  - intros Hin. by apply elem_of_nil in Hin.
  - intros Hin.
    destruct (String.eqb_spec (Leaderboard.userId g) (userId e)) as [Heq|Hne];
      [done|].
    cbn [map]. rewrite IH; [done|].
    apply elem_of_cons in Hin as [?|?]; [congruence|done].
Qed.

Lemma groupAdd_ids_new e groups :
  userId e ∉ map Leaderboard.userId groups ->
  map Leaderboard.userId (groupAdd e groups) =
  map Leaderboard.userId groups ++ [userId e].
Proof.
  induction groups as [|g groups IH]; cbn [groupAdd map]; [done|].
  intros Hin. apply not_elem_of_cons in Hin as [Hne Hin].
  destruct (String.eqb_spec (Leaderboard.userId g) (userId e)) as [Heq|_];
    [congruence|].
  cbn [map]. by rewrite IH.
Qed.

Lemma groupAdd_NoDup e groups :
  NoDup (map Leaderboard.userId groups) ->
  NoDup (map Leaderboard.userId (groupAdd e groups)).
Proof.
  intros Hnd.
  destruct (decide (userId e ∈ map Leaderboard.userId groups)) as [Hin|Hin].
  - by rewrite groupAdd_ids_old.
  - rewrite groupAdd_ids_new by done.
    apply NoDup_app. split; [done|]. split; [|apply NoDup_singleton].
    intros x Hx Hx'. apply list_elem_of_singleton in Hx' as ->. done.
Qed.

Lemma fold_groupAdd_NoDup docs groups :
  NoDup (map Leaderboard.userId groups) ->
  NoDup (map Leaderboard.userId
           (fold_left (fun gs e => groupAdd e gs) docs groups)).
Proof.
  revert groups. induction docs as [|e docs IH]; intros groups Hnd; [done|].
  simpl. by apply IH, groupAdd_NoDup.
Qed.

Lemma fold_groupAdd_total uid docs groups :
  totalOf uid (fold_left (fun gs e => groupAdd e gs) docs groups) =
  totalOf uid groups
  + sumMg (List.filter (fun e => String.eqb (userId e) uid) docs).
Proof.
  revert groups. induction docs as [|e docs IH]; intros groups; simpl; [lia|].
  rewrite IH, totalOf_groupAdd.
  destruct (String.eqb (userId e) uid); simpl; lia.
Qed.

Lemma fold_groupAdd_count uid docs groups :
  countOf uid (fold_left (fun gs e => groupAdd e gs) docs groups) =
  countOf uid groups
  + Z.of_nat (length (List.filter (fun e => String.eqb (userId e) uid) docs)).
Proof.
  revert groups. induction docs as [|e docs IH]; intros groups; simpl; [lia|].
  rewrite IH, countOf_groupAdd.
  destruct (String.eqb (userId e) uid); simpl; lia.
Qed.

(** With one accumulator per user, the accumulator is the total. *)
Lemma totalOf_countOf_row groups r :
  NoDup (map Leaderboard.userId groups) -> r ∈ groups ->
  totalOf (Leaderboard.userId r) groups = Leaderboard.totalCaffeine r /\
  countOf (Leaderboard.userId r) groups = Leaderboard.entryCount r.
Proof.
  induction groups as [|g groups IH]; simpl.
  - intros _ Hin. by apply elem_of_nil in Hin.
  - intros Hnd Hin. apply NoDup_cons in Hnd as [Hnotin Hnd].
    assert (forall uid, uid ∉ map Leaderboard.userId groups ->
              totalOf uid groups = 0 /\ countOf uid groups = 0) as Hzero.
    { clear. intros uid. induction groups as [|g groups IH]; simpl; [done|].
      intros Hn. apply not_elem_of_cons in Hn as [Hne Hn].
      destruct (String.eqb_spec (Leaderboard.userId g) uid); [done|auto]. }
    apply elem_of_cons in Hin as [->|Hin].
    + rewrite String.eqb_refl. destruct (Hzero _ Hnotin) as [-> ->]. lia.
    + destruct (String.eqb_spec (Leaderboard.userId g) (Leaderboard.userId r))
        as [Heq|Hne]; [|by apply IH].
      exfalso. apply Hnotin. rewrite Heq.
      apply list_elem_of_In, in_map, list_elem_of_In, Hin.
Qed.

Lemma stageGroup_spec docs r :
  r ∈ stageGroup docs ->
  let mine := List.filter
                (fun e => String.eqb (userId e) (Leaderboard.userId r)) docs in
  Leaderboard.totalCaffeine r = sumMg mine /\
  Leaderboard.entryCount r = Z.of_nat (length mine).
Proof.
  intros Hin mine. unfold stageGroup in *.
  pose proof (fold_groupAdd_NoDup docs [] (NoDup_nil_2)) as Hnd.
  destruct (totalOf_countOf_row _ r Hnd Hin) as [<- <-].
  rewrite fold_groupAdd_total, fold_groupAdd_count. simpl. done.
Qed.

(** *** The [$sort] and [$limit] stages *)

Global Instance byTotalDesc_trans : Transitive byTotalDesc.
Proof. unfold byTotalDesc. intros a b c. lia. Qed.

Global Instance byTotalDesc_total : Total byTotalDesc.
Proof. unfold byTotalDesc. intros a b. lia. Qed.

Lemma StronglySorted_take {A} (R : relation A) n (l : list A) :
  StronglySorted R l -> StronglySorted R (take n l).
Proof.
  intros Hs. revert n. induction Hs as [|x l Hs IH Hall]; intros [|n]; simpl;
    try constructor; [apply IH|].
  apply List.Forall_forall. intros y Hy.
  rewrite List.Forall_forall in Hall. apply Hall.
  apply list_elem_of_In. apply list_elem_of_In in Hy.
  eapply elem_of_take in Hy as (i & Hi & _). by eapply list_elem_of_lookup_2.
Qed.

Lemma stageLimit_sort_elem r rows :
  r ∈ stageLimit (stageSort rows) -> r ∈ rows.
Proof.
  unfold stageLimit, stageSort. intros Hin.
  apply elem_of_take in Hin as (i & Hi & _).
  apply list_elem_of_lookup_2 in Hi. by rewrite merge_sort_Permutation in Hi.
Qed.

Lemma stageLimit_sort_NoDup rows :
  NoDup (map Leaderboard.userId rows) ->
  NoDup (map Leaderboard.userId (stageLimit (stageSort rows))).
Proof.
  unfold stageLimit, stageSort. intros Hnd.
  change (map Leaderboard.userId) with (fmap (M:=list) Leaderboard.userId) in *.
  rewrite fmap_take.
  eapply sublist_NoDup; [|apply sublist_take].
  by rewrite (merge_sort_Permutation byTotalDesc rows).
Qed.


(** ** The chart *)

Lemma bucketMembers_elem step startDate now key store e :
  e ∈ bucketMembers step startDate now key store <->
  e ∈ store /\ startDate <= timestamp e <= now
  /\ entryKey step (timestamp e) = key.
Proof.
  unfold bucketMembers, inWindow.
  rewrite !list_elem_of_In, filter_In, !andb_true_iff, !Z.leb_le, String.eqb_eq.
  tauto.
Qed.

(** C1 - Chart sum correctness.  Whenever the period is one the chart
    knows and there is something to plot, the endpoint answers 200 with one
    label and one value per date of the axis walk.  The value at position
    [i] is exactly the sum of [caffeineMg] over the stored entries that lie
    in the window [startDate, now] and on the calendar day, in the
    calendar month or in the calendar year of the axis date [i], according
    to the step; these are the entries whose key is the key of bucket [i].
    Entries outside the window are in no bucket, and a bucket without such
    entries has the value [0].  For daily buckets, whose keys are cut out
    of the ISO string, the years of the range must have four digits. *)
Theorem chart_values_are_bucket_sums period now store startDate fmt step :
  chartPlan (default "week" period) (setHours0 now) store
    = Plan startDate fmt step ->
  (step = StepDay -> 0 <= getFullYear startDate /\ getFullYear now <= 9999) ->
  exists ls vs,
    caffeineChart period now store
      = Some (Json 200 {| labels := ls; values := vs |}) /\
    let dates :=
      axisDates (axisFuel (setHours0 now) startDate) step (setHours0 now)
        startDate in
    length ls = length dates /\ length vs = length dates /\
    forall (i : nat) d, dates !! i = Some d ->
      let members := calendarMembers step startDate now d store in
      vs !! i = Some (sumMg members) /\
      members = bucketMembers step startDate now (axisKey step d) store /\
      (forall e, e ∈ members <->
         e ∈ store /\ startDate <= timestamp e <= now /\
         match step with
         | StepDay =>
             getFullYear (timestamp e) = getFullYear d /\
             getMonth (timestamp e) = getMonth d /\
             getDate (timestamp e) = getDate d
         | StepMonth =>
             getFullYear (timestamp e) = getFullYear d /\
             getMonth (timestamp e) = getMonth d
         | StepYear => getFullYear (timestamp e) = getFullYear d
         end) /\
      (members = [] -> vs !! i = Some 0).
Proof.
  intros Hplan Hrange.
  pose proof (caffeineChart_plan _ _ _ _ _ _ Hplan) as Hchart.
  cbv zeta in Hchart. eexists _, _. split; [exact Hchart|].
  cbv zeta. rewrite !length_map. split; [done|]. split; [done|].
  intros i d Hi.
  assert (startDate <= d <= now) as Hd.
  { apply list_elem_of_lookup_2, list_elem_of_In, axisDates_bounds in Hi.
    pose proof (setHours0_le now). lia. }
  pose proof (bucketMembers_calendar step startDate now d store Hrange Hd)
    as Hsame.
  assert (map (fun d0 => sumMg (bucketMembers step startDate now
                                  (axisKey step d0) store))
              (axisDates (axisFuel (setHours0 now) startDate) step
                 (setHours0 now) startDate) !! i
          = Some (sumMg (calendarMembers step startDate now d store))) as Hv.
  { change (map ?f ?l) with (f <$> l). rewrite list_lookup_fmap, Hi. cbn.
    by rewrite Hsame. }
  split; [exact Hv|]. split; [done|]. split.
  - intros e. unfold calendarMembers, inWindow, sameBucket.
    rewrite !list_elem_of_In, filter_In, !andb_true_iff, !Z.leb_le.
    destruct step; rewrite ?andb_true_iff, ?Z.eqb_eq; tauto.
  - intros Hnone. by rewrite Hv, Hnone.
Qed.

Lemma chart_values_are_bucket_sums_witness :
  let now := utc 2024 6 15 12 0 in
  let store := [entryOf alice "e0" (utc 2023 1 1 9 0) 99;
                entryOf alice "e1" (utc 2024 1 20 9 0) 50;
                entryOf alice "e2" (utc 2024 3 5 9 0) 30;
                entryOf bob "e3" (utc 2024 3 25 9 0) 20;
                entryOf bob "e4" (utc 2024 6 12 9 0) 7] in
  (chartPlan "year" (setHours0 now) store
     = Plan (utc 2023 6 15 0 0) fmtMonth StepMonth /\
   exists ls vs,
     caffeineChart (Some "year") now store
       = Some (Json 200 {| labels := ls; values := vs |}) /\
     vs = [0; 0; 0; 0; 0; 0; 0; 50; 0; 50; 0; 0; 7]) /\
  (chartPlan "week" (setHours0 now) store
     = Plan (utc 2024 6 9 0 0) fmtMonthDay StepDay /\
   (0 <= getFullYear (utc 2024 6 9 0 0) /\ getFullYear now <= 9999) /\
   exists ls vs,
     caffeineChart (Some "week") now store
       = Some (Json 200 {| labels := ls; values := vs |}) /\
     vs = [0; 0; 0; 7; 0; 0; 0]).
Proof.
  intros now store. split.
  - split; [reflexivity|].
    destruct (chart_values_are_bucket_sums (Some "year") now store
                (utc 2023 6 15 0 0) fmtMonth StepMonth eq_refl
                ltac:(discriminate)) as (ls & vs & Hchart & _).
    exists ls, vs. split; [exact Hchart|].
    vm_compute in Hchart. by injection Hchart as _ <-.
  - assert (0 <= getFullYear (utc 2024 6 9 0 0) /\ getFullYear now <= 9999)
      as Hrange by (vm_compute; split; discriminate).
    split; [reflexivity|]. split; [exact Hrange|].
    destruct (chart_values_are_bucket_sums (Some "week") now store
                (utc 2024 6 9 0 0) fmtMonthDay StepDay eq_refl
                (fun _ => Hrange)) as (ls & vs & Hchart & _).
    exists ls, vs. split; [exact Hchart|].
    vm_compute in Hchart. by injection Hchart as _ <-.
Defined.

(** C2 - Axis length.  The claim fails on the code for [period = year]:
    on 31 January 2024 the axis starts on 31 January 2023, the first
    [setMonth] overflows into March, and the endpoint returns 12 labels
    and 12 values although 13 calendar months, January 2023 to January
    2024, lie between the start and the end of the range. *)
Theorem year_chart_misses_a_month :
  let now := utc 2024 1 31 12 0 in
  let today := setHours0 now in
  let startDate := utc 2023 1 31 0 0 in
  chartPlan "year" today [] = Plan startDate fmtMonth StepMonth /\
  caffeineChart (Some "year") now []
    = Some (Json 200
        {| labels := ["Jan"; "Mar"; "Apr"; "May"; "Jun"; "Jul"; "Aug"; "Sep";
                      "Oct"; "Nov"; "Dec"; "Jan"];
           values := [0; 0; 0; 0; 0; 0; 0; 0; 0; 0; 0; 0] |}) /\
  calendarSteps StepMonth startDate today = 13.
Proof. split; [reflexivity|]. split; vm_compute; reflexivity. Qed.

(** C3 - Month alignment.  The claim fails on the code for
    [period = year]: the start date is today's date one year earlier, not
    the first of its month, and the walk drifts.  On 31 January 2024 it
    visits 31 January 2023, then 3 March 2023 (February is skipped), and
    the third of every following month. *)
Theorem year_axis_not_aligned :
  let now := utc 2024 1 31 12 0 in
  let today := setHours0 now in
  let startDate := setFullYear today (getFullYear today - 1) in
  chartPlan "year" today [] = Plan startDate fmtMonth StepMonth /\
  map (fun d => (getFullYear d, getMonth d + 1, getDate d))
      (axisDates (axisFuel today startDate) StepMonth today startDate)
  = [(2023, 1, 31); (2023, 3, 3); (2023, 4, 3); (2023, 5, 3); (2023, 6, 3);
     (2023, 7, 3); (2023, 8, 3); (2023, 9, 3); (2023, 10, 3); (2023, 11, 3);
     (2023, 12, 3); (2024, 1, 3)].
Proof. split; [reflexivity|]. vm_compute. reflexivity. Qed.

Lemma firstOfMonth_setDate_1 ts : firstOfMonth (setDate (setHours0 ts) 1).
Proof.
  unfold setDate. rewrite (midnight_setHours0 ts).
  rewrite (MakeDay_normal _ (MonthFromTime _)).
  pose proof (MonthFromTime_range (setHours0 ts)) as Hr.
  rewrite (Z.div_small (MonthFromTime _) 12), Z.mod_small, Z.add_0_r by lia.
  apply firstOfMonth_MakeDay.
Qed.

(** The sibling branch, [period = all] with monthly buckets, does align:
    every date of its walk is the first of a month at midnight. *)
Lemma all_monthly_axis_aligned fuel today ts :
  Forall firstOfMonth
    (axisDates fuel StepMonth today (setDate (setHours0 ts) 1)).
Proof.
  apply axisDates_invariant;
    [apply firstOfMonth_advance|apply firstOfMonth_setDate_1].
Qed.

(** C4, as stated, fails: two entries 45 days apart, the later one six
    days old, give 51 daily buckets, not 45, because the axis runs on to
    today. *)
Lemma all_span45_counterexample :
  let now := utc 2024 2 20 12 0 in
  let store := [entryOf alice "e1" (utc 2024 1 1 9 0) 50;
                entryOf alice "e2" (utc 2024 2 14 9 0) 30] in
  exists earliest latest ls vs,
    findEarliest store = Some earliest /\ findLatest store = Some latest /\
    daysSpanOf (setHours0 (timestamp earliest)) (setHours0 (timestamp latest))
      = 45 /\
    caffeineChart (Some "all") now store
      = Some (Json 200 {| labels := ls; values := vs |}) /\
    length ls = 51%nat /\ length vs = 51%nat /\
    last ls = Some "Feb 20" /\
    length ls <> 45%nat.
Proof.
  eexists _, _, _, _.
  split; [reflexivity|]. split; [reflexivity|]. split; [reflexivity|].
  split; [vm_compute; reflexivity|].
  split; [reflexivity|]. split; [reflexivity|]. split; [reflexivity|].
  vm_compute. discriminate.
Qed.

Lemma daysSpanOf_midnights t1 t2 :
  daysSpanOf (setHours0 t1) (setHours0 t2) = Day t2 - Day t1 + 1.
Proof.
  unfold daysSpanOf, setHours0, MakeDate.
  change (1000 * 60 * 60 * 24) with msPerDay.
  replace (Day t2 * msPerDay + 0 - (Day t1 * msPerDay + 0))
    with ((Day t2 - Day t1) * msPerDay) by lia.
  rewrite Z.div_mul; [done|]. unfold msPerDay. lia.
Qed.

(** C4, amended - For [period = all] with a non-empty store whose span is
    at most 90 days, the chart uses daily buckets, and the axis runs from
    the day of the earliest entry to today: one bucket per day, labelled
    and summed day by day.  The number of buckets equals the span when the
    latest entry was logged today; a 45-day span ending today gives 45
    buckets. *)
Theorem all_short_span_daily_axis now store earliest latest :
  findEarliest store = Some earliest ->
  findLatest store = Some latest ->
  daysSpanOf (setHours0 (timestamp earliest)) (setHours0 (timestamp latest))
    <= 90 ->
  let startDate := setHours0 (timestamp earliest) in
  let n := Z.to_nat (Day now - Day (timestamp earliest) + 1) in
  let days := map (fun k : nat => startDate + Z.of_nat k * msPerDay) (seq 0 n) in
  caffeineChart (Some "all") now store
    = Some (Json 200
        {| labels := map fmtMonthDay days;
           values := map (fun d => sumMg (bucketMembers StepDay startDate now
                                            (axisKey StepDay d) store)) days |})
  /\ length days = n
  /\ (Day (timestamp latest) = Day now ->
      Z.of_nat n = daysSpanOf (setHours0 (timestamp earliest))
                     (setHours0 (timestamp latest))).
Proof.
  intros Hearliest Hlatest Hspan startDate n days. subst startDate n days.
  assert (chartPlan (default "week" (Some "all")) (setHours0 now) store
          = Plan (setHours0 (timestamp earliest)) fmtMonthDay StepDay) as Hplan.
  { unfold chartPlan. cbn [default String.eqb Ascii.eqb Bool.eqb].
    rewrite Hearliest, Hlatest. cbv zeta.
    destruct (Z.leb_spec
      (daysSpanOf (setHours0 (timestamp earliest))
         (setHours0 (timestamp latest))) 90); [done|lia]. }
  pose proof (caffeineChart_plan _ _ _ _ _ _ Hplan) as Hchart.
  cbv zeta in Hchart.
  rewrite axisDates_day in Hchart.
  - rewrite !setHours0_Day in Hchart. split; [exact Hchart|].
    split.
    + by rewrite length_map, length_seq.
    + intros Hsame. rewrite daysSpanOf_midnights, Hsame.
      apply findEarliest_spec in Hearliest as [_ Hmin].
      apply findLatest_spec in Hlatest as [Hin _].
      pose proof (Day_mono _ _ (Hmin latest Hin)). lia.
  - apply midnight_setHours0.
  - apply midnight_setHours0.
  - unfold axisFuel. lia.
Qed.

Lemma all_short_span_daily_axis_witness :
  let now := utc 2024 2 14 12 0 in
  let e1 := entryOf alice "e1" (utc 2024 1 1 9 0) 50 in
  let e2 := entryOf alice "e2" (utc 2024 2 14 9 0) 30 in
  (findEarliest [e1; e2] = Some e1 /\ findLatest [e1; e2] = Some e2 /\
   daysSpanOf (setHours0 (timestamp e1)) (setHours0 (timestamp e2)) <= 90) /\
  exists ls vs,
    caffeineChart (Some "all") now [e1; e2]
      = Some (Json 200 {| labels := ls; values := vs |}) /\
    length ls = 45%nat.
Proof.
  split; [split; [reflexivity|split; [reflexivity|vm_compute; discriminate]]|].
  destruct (all_short_span_daily_axis (utc 2024 2 14 12 0)
    [entryOf alice "e1" (utc 2024 1 1 9 0) 50;
     entryOf alice "e2" (utc 2024 2 14 9 0) 30]
    (entryOf alice "e1" (utc 2024 1 1 9 0) 50)
    (entryOf alice "e2" (utc 2024 2 14 9 0) 30)
    eq_refl eq_refl ltac:(vm_compute; discriminate)) as (Hchart & Hlen & _).
  eexists _, _. split; [exact Hchart|].
  rewrite length_map. exact Hlen.
Defined.

(** C5, as stated, fails: the labels of [period = year] are bare month
    names, and its axis of thirteen months ends on the month it starts
    with. *)
Lemma year_labels_repeat_counterexample :
  exists ls vs,
    caffeineChart (Some "year") (utc 2024 11 2 12 0) []
      = Some (Json 200 {| labels := ls; values := vs |}) /\
    ls !! 0%nat = Some "Nov" /\ ls !! 12%nat = Some "Nov" /\ ~ NoDup ls.
Proof.
  eexists _, _. split; [vm_compute; reflexivity|].
  split; [reflexivity|]. split; [reflexivity|].
  intros Hnd. apply NoDup_cons in Hnd as [Hnotin _]. apply Hnotin.
  do 11 right. left.
Qed.

Lemma setDate_sub_midnight today k :
  midnight today ->
  midnight (setDate today (getDate today - k))
  /\ Day today - Day (setDate today (getDate today - k)) = k.
Proof.
  intros Ht. replace (getDate today - k) with (getDate today + - k) by lia.
  rewrite setDate_add.
  replace (today + - k * msPerDay) with (MakeDate (Day today - k) 0).
  - split; [apply midnight_MakeDate|].
    rewrite Day_MakeDate by (unfold msPerDay; lia). lia.
  - rewrite (Day_TimeWithinDay today) at 2. rewrite Ht. unfold MakeDate. lia.
Qed.

Lemma firstOfYear_newDate y : firstOfYear (newDateYMD y 0 1).
Proof.
  unfold newDateYMD.
  destruct (firstOfMonth_MakeDay
              (if (0 <=? y) && (y <=? 99) then 1900 + y else y) 0)
    as (H1 & _ & H3).
  by split.
Qed.

(** C5, amended - Distinct buckets render distinct labels for
    [period = week] and [period = month], and for [period = all] with
    monthly or yearly buckets; with daily buckets under [period = all]
    they do as long as the axis, from the earliest entry's day to today,
    is shorter than 365 days.  ([period = year] is left out: its labels
    are bare month names.) *)
Theorem chart_labels_distinct period now store startDate fmt step ls vs :
  default "week" period <> "year" ->
  chartPlan (default "week" period) (setHours0 now) store
    = Plan startDate fmt step ->
  (default "week" period = "all" -> step = StepDay ->
   Day now - Day startDate < 365) ->
  caffeineChart period now store
    = Some (Json 200 {| labels := ls; values := vs |}) ->
  NoDup ls.
Proof.
  intros Hyear Hplan Hshort Hchart.
  pose proof (caffeineChart_plan _ _ _ _ _ _ Hplan) as Hc. cbv zeta in Hc.
  set (fuel := axisFuel _ _) in Hc. clearbody fuel.
  rewrite Hc in Hchart. clear Hc.
  injection Hchart as <- _. apply NoDup_ListNoDup.
  pose proof (midnight_setHours0 now) as Htoday.
  unfold chartPlan in Hplan.
  destruct (String.eqb_spec (default "week" period) "week") as [_|_].
  { injection Hplan as <- <- <-.
    destruct (setDate_sub_midnight (setHours0 now) 6 Htoday) as [Hm Hd].
    apply labels_NoDup_day; [done|lia]. }
  destruct (String.eqb_spec (default "week" period) "month") as [_|_].
  { injection Hplan as <- <- <-.
    destruct (setDate_sub_midnight (setHours0 now) 29 Htoday) as [Hm Hd].
    apply labels_NoDup_day; [done|lia]. }
  destruct (String.eqb_spec (default "week" period) "year") as [|_]; [done|].
  destruct (String.eqb_spec (default "week" period) "all") as [Hall|_];
    [|done].
  destruct (findEarliest store) as [earliest|]; [|done].
  destruct (findLatest store) as [latest|]; [|done].
  cbv zeta in Hplan.
  destruct (_ <=? 90).
  { injection Hplan as <- <- <-. apply labels_NoDup_day.
    - apply midnight_setHours0.
    - specialize (Hshort Hall eq_refl). by rewrite setHours0_Day. }
  destruct (_ <=? 18 * 30).
  { injection Hplan as <- <- <-.
    apply labels_NoDup_month, firstOfMonth_setDate_1. }
  injection Hplan as <- <- <-. apply labels_NoDup_year, firstOfYear_newDate.
Qed.

Lemma chart_labels_distinct_witness :
  let now := utc 2024 1 7 15 30 in
  let store := [entryOf alice "e1" (utc 2024 1 1 9 0) 50] in
  ("week" <> "year"
   /\ chartPlan "week" (setHours0 now) store
      = Plan (setDate (setHours0 now) (getDate (setHours0 now) - 6))
          fmtMonthDay StepDay
   /\ caffeineChart (Some "week") now store
      = Some (Json 200
          {| labels := ["Jan 1"; "Jan 2"; "Jan 3"; "Jan 4"; "Jan 5"; "Jan 6";
                        "Jan 7"];
             values := [50; 0; 0; 0; 0; 0; 0] |}))
  /\ NoDup ["Jan 1"; "Jan 2"; "Jan 3"; "Jan 4"; "Jan 5"; "Jan 6"; "Jan 7"].
Proof.
  assert (caffeineChart (Some "week") (utc 2024 1 7 15 30)
            [entryOf alice "e1" (utc 2024 1 1 9 0) 50]
          = Some (Json 200
              {| labels := ["Jan 1"; "Jan 2"; "Jan 3"; "Jan 4"; "Jan 5";
                            "Jan 6"; "Jan 7"];
                 values := [50; 0; 0; 0; 0; 0; 0] |})) as Hchart
    by (vm_compute; reflexivity).
  split; [split; [discriminate|split; [reflexivity|exact Hchart]]|].
  apply (chart_labels_distinct (Some "week") (utc 2024 1 7 15 30)
           [entryOf alice "e1" (utc 2024 1 1 9 0) 50]
           (setDate (setHours0 (utc 2024 1 7 15 30))
              (getDate (setHours0 (utc 2024 1 7 15 30)) - 6))
           fmtMonthDay StepDay
           ["Jan 1"; "Jan 2"; "Jan 3"; "Jan 4"; "Jan 5"; "Jan 6"; "Jan 7"]
           [50; 0; 0; 0; 0; 0; 0]);
    [discriminate|reflexivity|discriminate|exact Hchart].
Defined.

(** ** The leaderboard *)

(** C6 - Leaderboard.  For every recognised period the endpoint answers
    with at most 50 rows, ordered by [totalCaffeine] from the largest to
    the smallest (equal totals may follow one another), one row per user;
    each row carries the sum of [caffeineMg] over that user's entries in
    the period's window as [totalCaffeine], and their number as
    [entryCount]. *)
Theorem leaderboard_sorted_top50 period now store rows :
  leaderboard period now store = Json 200 rows ->
  exists dateFilter,
    leaderboardFilter (default "week" period) now = Some dateFilter /\
    StronglySorted byTotalDesc rows /\
    (length rows <= 50)%nat /\
    NoDup (map Leaderboard.userId rows) /\
    forall r, r ∈ rows ->
      let mine := userEntries dateFilter (Leaderboard.userId r) store in
      Leaderboard.totalCaffeine r = sumMg mine /\
      Leaderboard.entryCount r = Z.of_nat (length mine).
Proof.
  unfold leaderboard.
  destruct (leaderboardFilter _ _) as [dateFilter|]; [|done].
  intros [= <-]. exists dateFilter. split; [done|]. split; [|split; [|split]].
  - apply StronglySorted_take, StronglySorted_merge_sort; apply _.
  - unfold stageLimit. rewrite length_take. lia.
  - apply stageLimit_sort_NoDup. unfold stageGroup.
    apply fold_groupAdd_NoDup, NoDup_nil_2.
  - intros r Hr%stageLimit_sort_elem. cbv zeta.
    destruct (stageGroup_spec _ _ Hr) as [Ht Hc]. cbv zeta in Ht, Hc.
    unfold stageMatch in Ht, Hc. rewrite filter_filter_andb in Ht, Hc.
    done.
Qed.

Lemma leaderboard_sorted_top50_witness :
  let now := utc 2024 1 7 15 30 in
  let store := [entryOf alice "e1" (utc 2024 1 1 9 0) 50;
                entryOf bob "e2" (utc 2024 1 2 9 0) 80;
                entryOf alice "e3" (utc 2024 1 3 9 0) 40;
                entryOf bob "e4" (utc 2023 12 1 9 0) 500] in
  let rows :=
    [ {| Leaderboard.userId := "g-alice"; Leaderboard.totalCaffeine := 90;
         Leaderboard.entryCount := 2; Leaderboard.userName := "Alice";
         Leaderboard.userAvatar := None |};
      {| Leaderboard.userId := "g-bob"; Leaderboard.totalCaffeine := 80;
         Leaderboard.entryCount := 1; Leaderboard.userName := "Bob";
         Leaderboard.userAvatar := None |} ] in
  leaderboard (Some "week") now store = Json 200 rows /\
  StronglySorted byTotalDesc rows.
Proof.
  split; [vm_compute; reflexivity|].
  destruct (leaderboard_sorted_top50 (Some "week") (utc 2024 1 7 15 30)
    [entryOf alice "e1" (utc 2024 1 1 9 0) 50;
     entryOf bob "e2" (utc 2024 1 2 9 0) 80;
     entryOf alice "e3" (utc 2024 1 3 9 0) 40;
     entryOf bob "e4" (utc 2023 12 1 9 0) 500]
    _ ltac:(vm_compute; reflexivity)) as (_ & _ & Hsorted & _).
  exact Hsorted.
Defined.

(** ** Entries *)

(** C7 - Rejected entries.  In both variants, [POST /api/entries] with
    [caffeineMg] equal to 0 or negative, or with [drinkName], [sizeName]
    or [caffeineMg] missing, answers 400 and leaves the entry store as it
    was. *)
Theorem post_entry_rejects_invalid `{NumberParsing} user body newId now store :
  (exists n, bodyCaffeineMg body = JNum n /\ n <= 0)
  \/ bodyCaffeineMg body = JUndefined
  \/ bodyDrinkName body = JUndefined
  \/ bodySizeName body = JUndefined ->
  let rejected : Response CaffeineEntry * list CaffeineEntry :=
    (Error 400
       "Drink name, size name, and positive caffeine amount are required",
     store) in
  postEntry (Some user) body newId now store = rejected /\
  postEntrySimple body newId now store = rejected.
Proof.
  intros Hbad. cbv zeta. unfold postEntry, postEntrySimple, requireAuth.
  assert (truthy (bodyDrinkName body) = false
          \/ truthy (bodySizeName body) = false
          \/ truthy (bodyCaffeineMg body) = false
          \/ leZero (bodyCaffeineMg body) = true) as Hc.
  { destruct Hbad as [(n & -> & Hn) | [-> | [-> | ->]]]; auto.
    right; right; right. unfold leZero. simpl. by apply Z.leb_le. }
  split; by apply createEntry_falsy.
Qed.

Lemma post_entry_rejects_invalid_witness :
  let body :=
    {| bodyDrinkName := JStr "Coffee"; bodySizeName := JStr "Large";
       bodyCaffeineMg := JNum 0; bodyCustomDescription := JUndefined;
       bodyIsCustomDrink := JUndefined |} in
  let store := [entryOf alice "e1" 0 50] in
  ((exists n, bodyCaffeineMg body = JNum n /\ n <= 0)
   \/ bodyCaffeineMg body = JUndefined
   \/ bodyDrinkName body = JUndefined
   \/ bodySizeName body = JUndefined) /\
  @postEntry decimalStrings (Some alice) body "e2" 1000 store =
    (Error 400
       "Drink name, size name, and positive caffeine amount are required",
     store).
Proof.
  split; [left; exists 0; split; [reflexivity|lia]|].
  apply (@post_entry_rejects_invalid decimalStrings alice
           {| bodyDrinkName := JStr "Coffee"; bodySizeName := JStr "Large";
              bodyCaffeineMg := JNum 0; bodyCustomDescription := JUndefined;
              bodyIsCustomDrink := JUndefined |}
           "e2" 1000 [entryOf alice "e1" 0 50]).
  left. exists 0. split; [reflexivity|lia].
Defined.

Lemma deleteEntry_cases user id store :
  NoDup (map entryId store) ->
  ((forall e, e ∈ store -> entryId e <> id) ->
   deleteEntry (Some user) id store = (Error 404 "Entry not found", store))
  /\
  (forall e, e ∈ store -> entryId e = id -> userId e <> googleId user ->
   deleteEntry (Some user) id store
     = (Error 403 "Not authorized to delete this entry", store))
  /\
  (forall e, e ∈ store -> entryId e = id -> userId e = googleId user ->
   exists store',
     deleteEntry (Some user) id store
       = (Json 200 "Entry deleted successfully", store') /\
     (e ∉ store') /\
     (forall e', e' ∈ store -> e' <> e -> e' ∈ store') /\
     (forall e', e' ∈ store' -> e' ∈ store)).
Proof.
  intros Hnd. unfold deleteEntry, requireAuth. repeat split.
  - intros Hnone. by rewrite findEntryById_None.
  - intros e Hin Hid Hother. rewrite (findEntryById_unique id store e) by done.
    destruct (String.eqb_spec (userId e) (googleId user)); done.
  - intros e Hin Hid Hown. rewrite (findEntryById_unique id store e) by done.
    rewrite Hown, String.eqb_refl. simpl. eexists. split; [done|].
    split; [by apply deleteEntryById_gone|]. split.
    + intros e' Hin' Hne. apply deleteEntryById_other; [done|].
      intros Hid'. apply Hne.
      pose proof (findEntryById_unique id store e' Hnd Hin' Hid') as H1.
      pose proof (findEntryById_unique id store e Hnd Hin Hid) as H2.
      congruence.
    + clear. induction store as [|e0 store IH]; simpl; [done|].
      intros e'. destruct (String.eqb (entryId e0) id).
      * by right.
      * intros [->|?]%elem_of_cons; [left|right; by apply IH].
Qed.

(** C8, as stated, fails: an id that matches no entry is not always
    answered 404.  The parameter [42] is no ObjectId and matches no entry;
    [findById] throws on it and the handler answers 500. *)
Lemma delete_unknown_id_counterexample :
  let store := [entryOf alice oidEntry1 0 50] in
  (forall e, e ∈ store -> entryId e <> "42") /\
  @deleteEntryRequest hexObjectIds (Some alice) "42" store
    = (Error 500 "Failed to delete entry", store) /\
  @deleteEntryRequest hexObjectIds (Some alice) "42" store
    <> (Error 404 "Entry not found", store).
Proof.
  split; [|split; [reflexivity|discriminate]].
  intros e ->%list_elem_of_singleton. discriminate.
Qed.

(** C8 - Deleting an entry, session variant, as amended.  With pairwise
    distinct [_id]s in the store and an authenticated caller.  A parameter
    that is no ObjectId answers 500 and changes nothing.  For a parameter
    that is the ObjectId [id]: when no entry carries [id] the answer is
    404; a request for an entry of another user answers 403 and the store,
    hence the entry, stays as it was; a request for one of the caller's own
    entries answers 200 and removes that entry and no other. *)
Theorem delete_entry_ownership `{ObjectIdCast} user param store :
  NoDup (map entryId store) ->
  (castObjectId param = None ->
   deleteEntryRequest (Some user) param store
     = (Error 500 "Failed to delete entry", store))
  /\
  (forall id, castObjectId param = Some id ->
   ((forall e, e ∈ store -> entryId e <> id) ->
    deleteEntryRequest (Some user) param store
      = (Error 404 "Entry not found", store))
   /\
   (forall e, e ∈ store -> entryId e = id -> userId e <> googleId user ->
    deleteEntryRequest (Some user) param store
      = (Error 403 "Not authorized to delete this entry", store))
   /\
   (forall e, e ∈ store -> entryId e = id -> userId e = googleId user ->
    exists store',
      deleteEntryRequest (Some user) param store
        = (Json 200 "Entry deleted successfully", store') /\
      (e ∉ store') /\
      (forall e', e' ∈ store -> e' <> e -> e' ∈ store') /\
      (forall e', e' ∈ store' -> e' ∈ store))).
Proof.
  intros Hnd. unfold deleteEntryRequest, requireAuth. split.
  - by intros ->.
  - intros id ->. apply deleteEntry_cases, Hnd.
Qed.

Lemma delete_entry_ownership_witness :
  let store := [entryOf alice oidEntry1 0 50; entryOf bob oidEntry2 1000 80] in
  NoDup (map entryId store) /\
  @deleteEntryRequest hexObjectIds (Some alice) oidEntry2 store
    = (Error 403 "Not authorized to delete this entry", store) /\
  @deleteEntryRequest hexObjectIds (Some alice) oidAbsent store
    = (Error 404 "Entry not found", store) /\
  @deleteEntryRequest hexObjectIds (Some alice) oidEntry1 store
    = (Json 200 "Entry deleted successfully", [entryOf bob oidEntry2 1000 80]).
Proof.
  intros store.
  assert (NoDup (map entryId store)) as Hnd.
  { apply NoDup_cons. split; [|apply NoDup_singleton].
    intros Hin%list_elem_of_singleton. discriminate. }
  split; [exact Hnd|].
  destruct (@delete_entry_ownership hexObjectIds alice oidEntry2 store Hnd)
    as [_ Hcast].
  destruct (Hcast oidEntry2 eq_refl) as (_ & Hforbidden & _).
  split; [|split; reflexivity].
  apply (Hforbidden (entryOf bob oidEntry2 1000 80)).
  - right. left.
  - reflexivity.
  - discriminate.
Defined.

(** C9, as stated, fails: a size name sent with a trailing blank is stored
    trimmed, but [fullName] keeps the blank in front of the separating
    space. *)
Lemma fullName_counterexample :
  let body :=
    {| bodyDrinkName := JStr "Coffee"; bodySizeName := JStr "Large ";
       bodyCaffeineMg := JNum 95; bodyCustomDescription := JUndefined;
       bodyIsCustomDrink := JUndefined |} in
  exists e store',
    @postEntry decimalStrings (Some alice) body "e1" 1000 []
      = (Json 201 e, store') /\
    sizeName e = "Large" /\ drinkName e = "Coffee" /\
    fullName e = "Large  Coffee" /\
    fullName e <> template2 (sizeName e) (drinkName e).
Proof.
  eexists _, _. split; [vm_compute; reflexivity|].
  repeat split. vm_compute. discriminate.
Qed.

(** C9, amended - For every created entry, in both variants, the stored
    [fullName] is the client-supplied [sizeName], a single space and the
    client-supplied [drinkName], trimmed as a whole: leading white space of
    the size name and trailing white space of the drink name are removed,
    everything in between is kept.  It equals the stored [sizeName], a
    space and the stored [drinkName] whenever the supplied size name does
    not end, and the supplied drink name does not start, with white
    space. *)
Theorem created_fullName `{NumberParsing} user body newId now store e store' :
  postEntry (Some user) body newId now store = (Json 201 e, store')
  \/ postEntrySimple body newId now store = (Json 201 e, store') ->
  exists sName dName,
    bodySizeName body = JStr sName /\ bodyDrinkName body = JStr dName /\
    sizeName e = trim sName /\ drinkName e = trim dName /\
    fullName e = trim (template2 sName dName) /\
    fullName e = trimStart sName +:+ " " +:+ trimEnd dName /\
    (trimEnd sName = sName -> trimStart dName = dName ->
     fullName e = template2 (sizeName e) (drinkName e)).
Proof.
  unfold postEntry, postEntrySimple, requireAuth.
  intros [Hc|Hc];
    apply createEntry_created in Hc
      as (sName & dName & Hs & Hd & Hsn & Hdn & Hfull & Hsne & Hdne & _);
    exists sName, dName; repeat split; try done.
  1,3: by rewrite Hfull, trim_template2.
  all: intros Hend Hstart; rewrite Hfull, trim_template2, Hsn, Hdn by done;
    unfold trim, template2;
    by rewrite (trimStart_trimEnd_comm sName), Hend, Hstart.
Qed.

Lemma created_fullName_witness :
  let body :=
    {| bodyDrinkName := JStr "Coffee  "; bodySizeName := JStr "  Large";
       bodyCaffeineMg := JNum 95; bodyCustomDescription := JUndefined;
       bodyIsCustomDrink := JUndefined |} in
  let e :=
    {| entryId := "e1"; drinkName := "Coffee"; sizeName := "Large";
       fullName := "Large Coffee"; caffeineMg := 95;
       customDescription := EmptyString; timestamp := 1000;
       isCustomDrink := false; userId := "g-alice"; userName := "Alice";
       userAvatar := None |} in
  @postEntry decimalStrings (Some alice) body "e1" 1000 [] = (Json 201 e, [e])
  /\ fullName e = template2 (sizeName e) (drinkName e).
Proof.
  intros body e.
  assert (@postEntry decimalStrings (Some alice) body "e1" 1000 []
          = (Json 201 e, [e])) as Hpost by (vm_compute; reflexivity).
  split; [exact Hpost|].
  destruct (@created_fullName decimalStrings alice body "e1" 1000 [] e [e]
              (or_introl Hpost))
    as (sName & dName & Hs & Hd & _ & _ & _ & _ & Hfull).
  cbn in Hs, Hd. injection Hs as Hs. injection Hd as Hd. subst sName dName.
  apply Hfull; reflexivity.
Defined.

(** ** Drink types *)

Lemma postType_duplicate `{NumberParsing} user body newId now store n t :
  bodyName body = JStr n -> t ∈ store -> typeName t = trim n ->
  exists err, postType (Some user) body newId now store = (Error 400 err, store).
Proof.
  intros Hn Hin Hname. unfold postType, requireAuth.
  destruct (_ || _); [by eexists|].
  destruct (existsb _ _); [by eexists|].
  rewrite Hn. cbn [callTrim].
  destruct (findTypeByName_elem (trim n) store t Hin Hname) as [t' ->].
  by eexists.
Qed.

(** C10 - Soft-deleted names stay reserved, session variant.  In a
    collection whose names are pairwise distinct, once
    [DELETE /api/types/:id] has answered 200 for a drink type, no drink
    type listed by [GET /api/types] bears its name, and every
    [POST /api/types] whose name trims to it answers 400 and creates no
    document. *)
Theorem soft_deleted_name_reserved `{NumberParsing} user id store msg store' :
  NoDup (map typeName store) ->
  deleteType (Some user) id store = (Json 200 msg, store') ->
  exists drink,
    findTypeById id store = Some drink /\
    (forall caller listed,
       getTypes (Some caller) store' = (Json 200 listed, store') ->
       forall t, t ∈ listed -> typeName t <> typeName drink) /\
    (forall caller body newId now n,
       bodyName body = JStr n -> trim n = typeName drink ->
       exists err,
         postType (Some caller) body newId now store'
           = (Error 400 err, store')).
Proof.
  intros Hnd. unfold deleteType, requireAuth.
  destruct (findTypeById id store) as [drink|] eqn:Hfind; [|done].
  destruct (deleted drink) eqn:Hdel; [done|]. intros [= _ <-].
  exists drink. split; [done|].
  destruct (findTypeById_split _ _ _ Hfind) as (before & after & -> & ->).
  split.
  - intros caller listed. unfold getTypes, requireAuth. intros [= <-] t Ht.
    rewrite merge_sort_Permutation in Ht.
    apply list_elem_of_In, filter_In in Ht as [Ht Hlive].
    apply list_elem_of_In in Ht.
    rewrite map_app in Hnd. cbn [map] in Hnd.
    apply NoDup_app in Hnd as (_ & Hbefore & Hafter).
    apply NoDup_cons in Hafter as [Hafter _].
    apply elem_of_app in Ht as [Ht|Ht].
    + intros Heq. apply (Hbefore (typeName t)).
      * apply list_elem_of_In, in_map, list_elem_of_In, Ht.
      * rewrite Heq. left.
    + apply elem_of_cons in Ht as [->|Ht]; [done|].
      intros Heq. apply Hafter. rewrite <- Heq.
      apply list_elem_of_In, in_map, list_elem_of_In, Ht.
  - intros caller body newId now n Hn Htrim.
    apply (postType_duplicate caller body newId now _ n (markDeleted drink));
      [done| |done].
    apply elem_of_app. right. left.
Qed.

Lemma soft_deleted_name_reserved_witness :
  let store := [espresso] in
  let store' := [markDeleted espresso] in
  let body :=
    {| bodyName := JStr " Espresso "; bodyImageUrl := JUndefined;
       bodySizes := SizesArray
         [ {| sizeBodyName := JStr "Double"; sizeBodyCaffeineMg := JNum 126 |} ]
    |} in
  (NoDup (map typeName store) /\
   deleteType (Some alice) "t1" store
     = (Json 200 ("Drink type " +:+ doubleQuote +:+ "Espresso" +:+ doubleQuote
                    +:+ " marked as deleted"), store')) /\
  getTypes (Some bob) store' = (Json 200 [], store') /\
  exists err,
    @postType decimalStrings (Some bob) body "t2" 1000 store'
      = (Error 400 err, store').
Proof.
  intros store store' body.
  assert (NoDup (map typeName store)) as Hnd by apply NoDup_singleton.
  assert (deleteType (Some alice) "t1" store
     = (Json 200 ("Drink type " +:+ doubleQuote +:+ "Espresso" +:+ doubleQuote
                    +:+ " marked as deleted"), store')) as Hdel
    by reflexivity.
  split; [by split|]. split; [reflexivity|].
  destruct (@soft_deleted_name_reserved decimalStrings alice "t1" store _ store'
              Hnd Hdel) as (drink & Hfind & _ & Hpost).
  injection Hfind as <-.
  apply (Hpost bob body "t2" 1000 " Espresso "); reflexivity.
Defined.


(** ** Further properties: entries *)

(** The first [n] elements of a sorted list dominate everything left out. *)
Lemma take_merge_sort_top {A} (R : relation A) `{forall x y, Decision (R x y)}
    `{!Transitive R, !Total R} (n : nat) (l : list A) x y :
  x ∈ l -> x ∉ take n (merge_sort R l) -> y ∈ take n (merge_sort R l) ->
  R y x.
Proof.
  intros Hx Hout Hy.
  pose proof (StronglySorted_merge_sort R l) as Hs.
  rewrite <- (take_drop n (merge_sort R l)) in Hs.
  apply (StronglySorted_app_1_elem_of R _ _ y x Hs Hy).
  rewrite <- (merge_sort_Permutation R l), <- (take_drop n (merge_sort R l)) in Hx.
  apply elem_of_app in Hx as [Hx|Hx]; done.
Qed.

Global Instance newestFirst_trans : Transitive newestFirst.
Proof. unfold newestFirst. intros a b c. lia. Qed.

Global Instance newestFirst_total : Total newestFirst.
Proof. unfold newestFirst. intros a b. lia. Qed.


(** X2 - [GET /api/entries] without sessions returns every stored entry,
    none twice, newest first. *)
Theorem getEntriesSimple_all store :
  exists out,
    getEntriesSimple store = Json 200 out /\
    out ≡ₚ store /\ StronglySorted newestFirst out.
Proof.
  eexists. split; [reflexivity|]. split.
  - apply merge_sort_Permutation.
  - apply StronglySorted_merge_sort; apply _.
Qed.

(** *** Totals *)

Lemma reduceMg_sumMg entries : reduceMg entries = sumMg entries.
Proof.
  unfold reduceMg.
  assert (forall acc, fold_left (fun sum entry => sum + caffeineMg entry)
                        entries acc = acc + sumMg entries) as Hgen.
  { induction entries as [|e entries IH]; intros acc; simpl; [lia|].
    rewrite IH. lia. }
  by rewrite Hgen.
Qed.

Lemma today_window now ts :
  let today := setHours0 now in
  let tomorrow := setDate today (getDate today + 1) in
  (today <=? ts) && (ts <? tomorrow) = (Day ts =? Day now).
Proof.
  cbv zeta. rewrite setDate_add. unfold setHours0, MakeDate.
  pose proof (Day_TimeWithinDay ts) as Hts. unfold MakeDate in Hts.
  pose proof (TimeWithinDay_bound ts) as Hb. unfold msPerDay in *.
  destruct (Z.eqb_spec (Day ts) (Day now)) as [Heq|Hne].
  - apply andb_true_iff. rewrite Z.leb_le, Z.ltb_lt. rewrite <- Heq. lia.
  - apply andb_false_iff. rewrite Z.leb_gt, Z.ltb_ge.
    destruct (Z.lt_ge_cases (Day ts) (Day now)); [left|right]; nia.
Qed.

(** X3 - [GET /api/total-today] adds up exactly the entries whose
    timestamp falls on the calendar day of [now], and counts them. *)
Theorem totalToday_same_day now store :
  let todays := List.filter (fun e => Day (timestamp e) =? Day now) store in
  totalToday now store =
  {| Totals.total := sumMg todays;
     Totals.count := Z.of_nat (length todays) |}.
Proof.
  cbv zeta. unfold totalToday, findToday. cbv zeta.
  rewrite reduceMg_sumMg.
  rewrite (filter_ext _ (fun e => Day (timestamp e) =? Day now)); [done|].
  intros e. apply today_window.
Qed.

Lemma sumMg_filter_le (p : CaffeineEntry -> bool) store :
  Forall (fun e => 0 <= caffeineMg e) store ->
  0 <= sumMg (List.filter p store) <= sumMg store.
Proof.
  induction 1 as [|e store He Hall IH]; simpl; [lia|].
  destruct (p e); simpl; lia.
Qed.

(** X4 - As long as no stored amount is negative, today's total and count
    never exceed the all-time total and count. *)
Theorem totalToday_le_totalAll now store :
  Forall (fun e => 0 <= caffeineMg e) store ->
  0 <= Totals.total (totalToday now store) <= Totals.total (totalAll store)
  /\ 0 <= Totals.count (totalToday now store) <= Totals.count (totalAll store).
Proof.
  intros Hpos. unfold totalToday, totalAll, findToday. cbv zeta. cbn.
  rewrite !reduceMg_sumMg. split; [by apply sumMg_filter_le|].
  split; [lia|]. apply Nat2Z.inj_le.
  rewrite <- (List.filter_length (fun e => (setHours0 now <=? timestamp e) && (timestamp e <? setDate (setHours0 now) (getDate (setHours0 now) + 1))) store). lia.
Qed.

Lemma totalToday_le_totalAll_witness :
  let store := [entryOf alice "e1" (utc 2024 1 6 9 0) 50;
                entryOf bob "e2" (utc 2024 1 7 9 0) 80] in
  Forall (fun e => 0 <= caffeineMg e) store /\
  Totals.total (totalToday (utc 2024 1 7 15 30) store) = 80 /\
  Totals.total (totalToday (utc 2024 1 7 15 30) store)
    <= Totals.total (totalAll store).
Proof.
  intros store.
  assert (Forall (fun e => 0 <= caffeineMg e) store) as Hpos.
  { repeat constructor; simpl; lia. }
  split; [exact Hpos|]. split; [reflexivity|].
  apply (totalToday_le_totalAll (utc 2024 1 7 15 30) store Hpos).
Defined.

(** *** Creating and deleting entries *)

Lemma createEntry_fields `{NumberParsing} owner body newId now store e store' :
  createEntry owner body newId now store = (Json 201 e, store') ->
  store' = store ++ [e] /\
  entryId e = newId /\ timestamp e = now /\
  userId e = from_option googleId EmptyString owner /\
  userName e = from_option name EmptyString owner /\
  userAvatar e = owner ≫= picture /\
  parseFloat (bodyCaffeineMg body) = Some (caffeineMg e) /\
  leZero (bodyCaffeineMg body) = false /\
  validEntry (bool_decide (is_Some owner)) e = true /\
  trim (drinkName e) = drinkName e /\
  trim (sizeName e) = sizeName e /\
  trim (fullName e) = fullName e.
Proof.
  unfold createEntry.
  destruct (_ || _ || _ || _) eqn:Hguard; [done|].
  apply orb_false_elim in Hguard as [_ Hle].
  destruct (bodyDrinkName body) as [| | | |dn]; try done.
  destruct (bodySizeName body) as [| | | |sn]; try done.
  destruct (trimOrEmpty _) as [description|]; [|done].
  destruct (parseFloat _) as [mg|] eqn:Hpf; [|done].
  unfold saveEntry.
  destruct (validEntry _ _) eqn:Hvalid; [|done].
  intros [= <- <-].
  cbn [entryId timestamp userId userName userAvatar caffeineMg drinkName
       sizeName fullName].
  cbn [entryId timestamp userId userName userAvatar caffeineMg drinkName
       sizeName fullName customDescription isCustomDrink] in Hvalid.
  rewrite !trim_idemp in *. by repeat split.
Qed.

(** X5 - Whatever the body says, an entry created by the session variant
    is appended to the store under the fresh [_id], stamped with the
    server's clock and attributed to the session user; its names are
    present and trimmed and its amount is not negative, and is the
    positive number sent when a number was sent. *)
Theorem created_entry_attribution `{NumberParsing} user body newId now store
    e store' :
  postEntry (Some user) body newId now store = (Json 201 e, store') ->
  store' = store ++ [e] /\
  entryId e = newId /\ timestamp e = now /\
  userId e = googleId user /\ userName e = name user /\
  userAvatar e = picture user /\
  entryWellFormed e /\
  (forall n, bodyCaffeineMg body = JNum n -> caffeineMg e = n /\ 0 < n).
Proof.
  unfold postEntry, requireAuth. intros Hc.
  apply createEntry_fields in Hc
    as (-> & Hid & Hts & Hu & Hn & Ha & Hmg & Hle & Hvalid & Hd & Hs & Hf).
  do 6 (split; [done|]). split.
  - split; [exact Hvalid|done].
  - intros n Hbody. rewrite Hbody in Hle, Hmg. unfold leZero in Hle.
    cbn in Hle, Hmg. injection Hmg as <-. split; [done|lia].
Qed.

Lemma created_entry_attribution_witness :
  let body :=
    {| bodyDrinkName := JStr " Coffee"; bodySizeName := JStr "Large";
       bodyCaffeineMg := JNum 95; bodyCustomDescription := JStr "after lunch ";
       bodyIsCustomDrink := JBool true |} in
  let e :=
    {| entryId := "e1"; drinkName := "Coffee"; sizeName := "Large";
       fullName := "Large  Coffee"; caffeineMg := 95;
       customDescription := "after lunch"; timestamp := 1000;
       isCustomDrink := true; userId := "g-alice"; userName := "Alice";
       userAvatar := None |} in
  @postEntry decimalStrings (Some alice) body "e1" 1000 [] = (Json 201 e, [e])
  /\ userId e = googleId alice /\ timestamp e = 1000.
Proof.
  intros body e.
  assert (@postEntry decimalStrings (Some alice) body "e1" 1000 []
          = (Json 201 e, [e])) as Hpost by (vm_compute; reflexivity).
  split; [exact Hpost|].
  destruct (@created_entry_attribution decimalStrings alice body "e1" 1000 []
              e [e] Hpost) as (_ & _ & Hts & Hu & _).
  by split.
Defined.

Lemma deleteEntryById_fresh id store e :
  (forall e', e' ∈ store -> entryId e' <> id) -> entryId e = id ->
  deleteEntryById id (store ++ [e]) = store.
Proof.
  intros Hfresh Hid. induction store as [|e0 store IH]; simpl.
  - rewrite Hid, String.eqb_refl. done.
  - destruct (String.eqb_spec (entryId e0) id) as [Heq|_].
    + exfalso. apply (Hfresh e0); [left|done].
    + f_equal. apply IH. intros e' He'. apply Hfresh. by right.
Qed.

Lemma findEntryById_fresh id store e :
  (forall e', e' ∈ store -> entryId e' <> id) -> entryId e = id ->
  findEntryById id (store ++ [e]) = Some e.
Proof.
  intros Hfresh Hid. unfold findEntryById.
  induction store as [|e0 store IH]; simpl.
  - by rewrite Hid, String.eqb_refl.
  - destruct (String.eqb_spec (entryId e0) id) as [Heq|_].
    + exfalso. apply (Hfresh e0); [left|done].
    + apply IH. intros e' He'. apply Hfresh. by right.
Qed.

(** X6 - Create, then delete.  When the [_id] given to a new entry is not
    in use, its creator can delete it again, which restores the store as it
    was before the entry was posted; any other user gets 403 and changes
    nothing. *)
Theorem post_then_delete `{NumberParsing} user other body newId now store
    e store' :
  (forall e', e' ∈ store -> entryId e' <> newId) ->
  postEntry (Some user) body newId now store = (Json 201 e, store') ->
  deleteEntry (Some user) newId store'
    = (Json 200 "Entry deleted successfully", store)
  /\ (googleId other <> googleId user ->
      deleteEntry (Some other) newId store'
        = (Error 403 "Not authorized to delete this entry", store')).
Proof.
  intros Hfresh Hpost. unfold postEntry, requireAuth in Hpost.
  apply createEntry_fields in Hpost as (-> & Hid & _ & Hu & _).
  cbn [from_option] in Hu.
  unfold deleteEntry, requireAuth.
  rewrite (findEntryById_fresh newId store e Hfresh Hid). split.
  - rewrite Hu, String.eqb_refl. cbn.
    by rewrite (deleteEntryById_fresh newId store e Hfresh Hid).
  - intros Hother. rewrite Hu.
    destruct (String.eqb_spec (googleId user) (googleId other)); [congruence|done].
Qed.

Lemma post_then_delete_witness :
  let body :=
    {| bodyDrinkName := JStr "Coffee"; bodySizeName := JStr "Large";
       bodyCaffeineMg := JNum 95; bodyCustomDescription := JUndefined;
       bodyIsCustomDrink := JUndefined |} in
  let store := [entryOf bob "e1" 0 80] in
  let e :=
    {| entryId := "e2"; drinkName := "Coffee"; sizeName := "Large";
       fullName := "Large Coffee"; caffeineMg := 95;
       customDescription := EmptyString; timestamp := 1000;
       isCustomDrink := false; userId := "g-alice"; userName := "Alice";
       userAvatar := None |} in
  ((forall e', e' ∈ store -> entryId e' <> "e2") /\
   @postEntry decimalStrings (Some alice) body "e2" 1000 store
     = (Json 201 e, store ++ [e])) /\
  deleteEntry (Some alice) "e2" (store ++ [e])
    = (Json 200 "Entry deleted successfully", store).
Proof.
  intros body store e.
  assert (forall e', e' ∈ store -> entryId e' <> "e2") as Hfresh.
  { intros e' ->%list_elem_of_singleton. discriminate. }
  assert (@postEntry decimalStrings (Some alice) body "e2" 1000 store
          = (Json 201 e, store ++ [e])) as Hpost by (vm_compute; reflexivity).
  split; [by split|].
  apply (@post_then_delete decimalStrings alice bob body "e2" 1000 store e
           (store ++ [e]) Hfresh Hpost).
Defined.

Lemma deleteEntryById_sublist id store : deleteEntryById id store `sublist_of` store.
Proof.
  induction store as [|e store IH]; simpl; [done|].
  destruct (String.eqb (entryId e) id).
  - by apply sublist_cons.
  - by apply sublist_skip.
Qed.

(** X7 - The entry routes of the session variant keep the store in the
    shape the schema promises: after any [POST] or [DELETE], answered with
    whatever status, every stored entry is still well formed, and the
    [_id]s are still pairwise distinct provided a [POST] is given an unused
    one. *)
Theorem entry_routes_keep_store_well_formed `{NumberParsing}
    session body newId now id store :
  Forall entryWellFormed store ->
  NoDup (map entryId store) ->
  (forall e, e ∈ store -> entryId e <> newId) ->
  let afterPost := (postEntry session body newId now store).2 in
  let afterDelete := (deleteEntry session id store).2 in
  (Forall entryWellFormed afterPost /\ NoDup (map entryId afterPost)) /\
  (Forall entryWellFormed afterDelete /\ NoDup (map entryId afterDelete)).
Proof.
  intros Hwf Hnd Hfresh. cbv zeta. split.
  - unfold postEntry, requireAuth. destruct session as [user|]; [|done].
    destruct (createEntry (Some user) body newId now store) as [resp store']
      eqn:Hc.
    cbn [snd].
    assert (store' = store \/ exists e, resp = Json 201 e) as [->|[e ->]].
    { revert Hc. unfold createEntry, serverError.
      repeat (match goal with
              | |- context [match ?x with _ => _ end] => destruct x
              | |- context [if ?x then _ else _] => destruct x
              end; try (intros [= <- <-]; by eauto)). }
    { done. }
    apply createEntry_fields in Hc
      as (-> & Hid & _ & _ & _ & _ & _ & _ & Hvalid & Hd & Hs & Hf).
    split.
    + apply Forall_app. split; [done|]. apply Forall_singleton.
      by repeat split.
    + rewrite map_app. apply NoDup_app. split; [done|].
      split; [|apply NoDup_singleton].
      intros x Hx ->%list_elem_of_singleton.
      apply list_elem_of_In, in_map_iff in Hx as (e' & He' & Hin).
      apply (Hfresh e'); [by apply list_elem_of_In|congruence].
  - unfold deleteEntry, requireAuth. destruct session as [user|]; [|done].
    destruct (findEntryById id store) as [entry|]; [|done].
    destruct (negb _); [done|]. cbn [snd].
    pose proof (deleteEntryById_sublist id store) as Hsub. split.
    + apply List.Forall_forall. intros e He.
      rewrite List.Forall_forall in Hwf. apply Hwf.
      apply list_elem_of_In. apply list_elem_of_In in He.
      eapply elem_of_sublist; [exact He|exact Hsub].
    + eapply sublist_NoDup; [exact Hnd|].
      change (map entryId) with (fmap (M:=list) entryId).
      by apply fmap_sublist.
Qed.

Lemma entry_routes_keep_store_well_formed_witness :
  let store := [entryOf alice "e1" 0 50] in
  (Forall entryWellFormed store /\ NoDup (map entryId store) /\
   (forall e, e ∈ store -> entryId e <> "e2")) /\
  Forall entryWellFormed (deleteEntry (Some alice) "e1" store).2.
Proof.
  intros store.
  assert (Forall entryWellFormed store) as Hwf.
  { apply Forall_singleton. by repeat split. }
  assert (NoDup (map entryId store)) as Hnd by apply NoDup_singleton.
  assert (forall e, e ∈ store -> entryId e <> "e2") as Hfresh.
  { intros e ->%list_elem_of_singleton. discriminate. }
  split; [by repeat split|].
  destruct (@entry_routes_keep_store_well_formed decimalStrings (Some alice)
    {| bodyDrinkName := JStr "Coffee"; bodySizeName := JStr "Large";
       bodyCaffeineMg := JNum 95; bodyCustomDescription := JUndefined;
       bodyIsCustomDrink := JUndefined |} "e2" 1000 "e1" store Hwf Hnd Hfresh)
    as [_ [Hdel _]].
  exact Hdel.
Defined.


(** ** Further properties: drink types *)

Lemma mapSizes_length `{NumberParsing} l variants :
  mapSizes l = Some variants -> length variants = length l.
Proof.
  revert variants. induction l as [|size l IH]; intros variants;
    cbn [mapSizes].
  - by intros [= <-].
  - destruct (callTrim (sizeBodyName size)),
      (parseFloat (sizeBodyCaffeineMg size)), (mapSizes l) as [rest|];
      try done.
    intros [= <-]. simpl. by rewrite (IH rest).
Qed.

Lemma postType_created `{NumberParsing} session body newId now store t store' :
  postType session body newId now store = (Json 201 t, store') ->
  store' = store ++ [t] /\ typeId t = newId /\ deleted t = false /\
  createdAt t = now /\ sizes t <> [] /\ validType t = true /\
  exists n, bodyName body = JStr n /\ typeName t = trim n
            /\ findTypeByName (trim n) store = None.
Proof.
  unfold postType, requireAuth, serverError.
  destruct session; [|done].
  destruct (_ || _) eqn:Hguard; [done|].
  apply orb_false_elim in Hguard as [_ Hsizes].
  destruct (existsb _ _); [done|].
  destruct (bodyName body) as [| | | |n]; try done. cbn [callTrim].
  destruct (findTypeByName (trim n) store) eqn:Hfind; [done|].
  destruct (imageUrlOrDefault _); [|done].
  destruct (mapSizes _) as [variants|] eqn:Hmap; [|done].
  unfold saveType. cbn [typeId typeName imageUrl sizes createdAt deleted].
  destruct (validType _) eqn:Hvalid; [|done].
  intros [= <- <-]. cbn [typeId typeName imageUrl sizes createdAt deleted].
  rewrite trim_idemp. do 4 (split; [done|]). split; [|split].
  - apply mapSizes_length in Hmap.
    destruct (bodySizes body) as [[|size elements]|]; try done.
    by destruct variants.
  - cbn [typeName] in Hvalid. by rewrite trim_idemp in Hvalid.
  - by exists n.
Qed.

Global Instance nameLe_trans : Transitive nameLe.
Proof. unfold nameLe. intros a b c. apply transitivity. Qed.

Global Instance nameLe_total : Total nameLe.
Proof. unfold nameLe. intros a b. apply total, _. Qed.

(** X8 - [GET /api/types], session variant: the answer is sorted by name
    and holds exactly the drink types that are not marked deleted. *)
Theorem getTypes_sorted_live user store :
  exists listed,
    getTypes (Some user) store = (Json 200 listed, store) /\
    StronglySorted nameLe listed /\
    listed ≡ₚ List.filter (fun t => negb (deleted t)) store.
Proof.
  eexists. split; [reflexivity|]. split.
  - apply StronglySorted_merge_sort; apply _.
  - apply merge_sort_Permutation.
Qed.

(** X9 - A created drink type is appended to the collection with the
    trimmed name and at least one size, is listed by the next
    [GET /api/types], and a second [POST] of the same body, by whoever,
    answers 400 and creates nothing. *)
Theorem posted_type_listed_and_reserved `{NumberParsing} user body newId now
    store t store' :
  postType (Some user) body newId now store = (Json 201 t, store') ->
  store' = store ++ [t] /\
  (exists n, bodyName body = JStr n /\ typeName t = trim n) /\
  sizes t <> [] /\
  (forall caller listed,
     getTypes (Some caller) store' = (Json 200 listed, store') ->
     t ∈ listed) /\
  (forall caller newId' now',
     exists err,
       postType (Some caller) body newId' now' store' = (Error 400 err, store')).
Proof.
  intros Hpost.
  apply postType_created in Hpost
    as (-> & Hid & Hlive & _ & Hsizes & _ & n & Hn & Hname & _).
  split; [done|]. split; [by exists n|]. split; [done|]. split.
  - intros caller listed. unfold getTypes, requireAuth. intros [= <-].
    rewrite merge_sort_Permutation.
    apply list_elem_of_In, filter_In. split.
    + apply in_or_app. right. by left.
    + by rewrite Hlive.
  - intros caller newId' now'.
    apply (postType_duplicate caller body newId' now' _ n t); [done| |done].
    apply elem_of_app. right. left.
Qed.

Lemma posted_type_listed_and_reserved_witness :
  let body :=
    {| bodyName := JStr " Latte "; bodyImageUrl := JUndefined;
       bodySizes := SizesArray
         [ {| sizeBodyName := JStr "Tall "; sizeBodyCaffeineMg := JNum 75 |} ]
    |} in
  let t :=
    {| typeId := "t2"; typeName := "Latte"; imageUrl := "/images/noImage.png";
       sizes := [ {| sizeVariantName := "Tall"; sizeCaffeineMg := 75 |} ];
       createdAt := 1000; deleted := false |} in
  @postType decimalStrings (Some alice) body "t2" 1000 [espresso]
    = (Json 201 t, [espresso; t]) /\
  exists err,
    @postType decimalStrings (Some bob) body "t3" 2000 [espresso; t]
      = (Error 400 err, [espresso; t]).
Proof.
  intros body t.
  assert (@postType decimalStrings (Some alice) body "t2" 1000 [espresso]
          = (Json 201 t, [espresso; t])) as Hpost by (vm_compute; reflexivity).
  split; [exact Hpost|].
  destruct (@posted_type_listed_and_reserved decimalStrings alice body "t2"
              1000 [espresso] t [espresso; t] Hpost) as (_ & _ & _ & _ & Hdup).
  apply (Hdup bob "t3" 2000).
Defined.

Lemma saveDeleted_ids id store :
  map typeId (saveDeleted id store) = map typeId store.
Proof.
  induction store as [|t store IH]; [done|]. simpl.
  destruct (String.eqb (typeId t) id); simpl; [done|]. by rewrite IH.
Qed.

Lemma findTypeById_saveDeleted id store drink :
  findTypeById id store = Some drink ->
  findTypeById id (saveDeleted id store) = Some (markDeleted drink).
Proof.
  unfold findTypeById. induction store as [|t store IH]; [done|]. simpl.
  destruct (String.eqb (typeId t) id) eqn:Heq.
  - intros [= <-]. simpl. by rewrite Heq.
  - intros Hf. simpl. rewrite Heq. by apply IH.
Qed.

(** X10 - Soft deletion.  A [DELETE /api/types/:id] answered with 200
    removes no document and touches a single one: the collection is the
    old one with the document of that [_id] replaced, in place, by a copy
    that differs only in being marked deleted; every other document, and
    the order, stay as they were.  Deleting it a second time answers 400
    and changes nothing. *)
Theorem soft_delete_keeps_documents user caller id store msg store' :
  deleteType (Some user) id store = (Json 200 msg, store') ->
  map typeId store' = map typeId store /\
  map typeName store' = map typeName store /\
  (exists drink,
     findTypeById id store = Some drink /\ deleted drink = false /\
     findTypeById id store' = Some (markDeleted drink)) /\
  (exists before drink marked after,
     store = before ++ drink :: after /\
     store' = before ++ marked :: after /\
     typeId drink = id /\ deleted drink = false /\ deleted marked = true /\
     typeId marked = typeId drink /\ typeName marked = typeName drink /\
     imageUrl marked = imageUrl drink /\ sizes marked = sizes drink /\
     createdAt marked = createdAt drink) /\
  deleteType (Some caller) id store'
    = (Error 400 "Drink type already deleted", store').
Proof.
  unfold deleteType, requireAuth.
  destruct (findTypeById id store) as [drink|] eqn:Hfind; [|done].
  destruct (deleted drink) eqn:Hdel; [done|]. intros [= _ <-].
  split; [apply saveDeleted_ids|]. split; [apply saveDeleted_names|].
  split; [exists drink; by auto using findTypeById_saveDeleted|].
  split.
  - destruct (findTypeById_split id store drink Hfind)
      as (before & after & Hstore & Hsaved).
    exists before, drink, (markDeleted drink), after.
    split; [done|]. split; [done|]. split; [|done].
    unfold findTypeById in Hfind.
    by apply find_some in Hfind as [_ ?%String.eqb_eq].
  - by rewrite (findTypeById_saveDeleted id store drink Hfind).
Qed.

Lemma soft_delete_keeps_documents_witness :
  let latte :=
    {| typeId := "t0"; typeName := "Latte"; imageUrl := "/images/noImage.png";
       sizes := [ {| sizeVariantName := "Tall"; sizeCaffeineMg := 75 |} ];
       createdAt := 0; deleted := false |} in
  let msg := "Drink type " +:+ doubleQuote +:+ "Espresso" +:+ doubleQuote
               +:+ " marked as deleted" in
  deleteType (Some alice) "t1" [latte; espresso]
    = (Json 200 msg, [latte; markDeleted espresso]) /\
  deleteType (Some bob) "t1" [latte; markDeleted espresso]
    = (Error 400 "Drink type already deleted", [latte; markDeleted espresso]).
Proof.
  intros latte msg.
  assert (deleteType (Some alice) "t1" [latte; espresso]
          = (Json 200 msg, [latte; markDeleted espresso])) as Hdel
    by reflexivity.
  split; [exact Hdel|].
  apply (soft_delete_keeps_documents alice bob "t1" [latte; espresso] msg
           [latte; markDeleted espresso] Hdel).
Defined.

(** X11 - The drink-type routes of the session variant keep the names of
    the collection pairwise distinct: whatever a [POST] or a [DELETE]
    answers, no two documents of the resulting collection share a name. *)
Theorem type_routes_keep_names_unique `{NumberParsing} session body newId now
    id store :
  NoDup (map typeName store) ->
  NoDup (map typeName (postType session body newId now store).2) /\
  NoDup (map typeName (deleteType session id store).2).
Proof.
  intros Hnd. split.
  - destruct (postType session body newId now store) as [resp store'] eqn:Hp.
    by apply postType_unique_names in Hp.
  - destruct (deleteType session id store) as [resp store'] eqn:Hd.
    by apply deleteType_unique_names in Hd.
Qed.

Lemma type_routes_keep_names_unique_witness :
  let body :=
    {| bodyName := JStr "Latte"; bodyImageUrl := JUndefined;
       bodySizes := SizesArray
         [ {| sizeBodyName := JStr "Tall"; sizeBodyCaffeineMg := JNum 75 |} ]
    |} in
  NoDup (map typeName [espresso]) /\
  NoDup (map typeName
           (@postType decimalStrings (Some alice) body "t2" 1000 [espresso]).2).
Proof.
  intros body.
  assert (NoDup (map typeName [espresso])) as Hnd by apply NoDup_singleton.
  split; [exact Hnd|].
  apply (@type_routes_keep_names_unique decimalStrings (Some alice) body "t2"
           1000 "t1" [espresso] Hnd).
Defined.

(** *** The variant that deletes for good *)





(** ** Further properties: authentication *)

Lemma findUser_None gid users :
  findUser gid users = None -> gid ∉ map User.googleId users.
Proof.
  unfold findUser. induction users as [|u users IH]; simpl.
  - intros _ Hin. by apply elem_of_nil in Hin.
  - destruct (String.eqb_spec (User.googleId u) gid) as [|Hne]; [done|].
    intros Hf [->|Hin]%elem_of_cons; [done|]. by apply IH.
Qed.

Lemma findUser_Some gid users u :
  findUser gid users = Some u -> u ∈ users /\ User.googleId u = gid.
Proof.
  unfold findUser. induction users as [|v users IH]; [done|]. simpl.
  destruct (String.eqb_spec (User.googleId v) gid) as [Heq|Hne].
  - intros [= <-]. split; [left|done].
  - intros Hf. destruct (IH Hf). split; [by right|done].
Qed.

Lemma emailTaken_false e users :
  emailTaken e users = false -> e ∉ map User.email users.
Proof.
  unfold emailTaken. induction users as [|u users IH]; simpl.
  - intros _ Hin. by apply elem_of_nil in Hin.
  - intros [Hne Hrest]%orb_false_elim [->|Hin]%elem_of_cons.
    + by rewrite String.eqb_refl in Hne.
    + by apply IH.
Qed.

Lemma replaceUser_map {B} (f : User.t -> B) u users found :
  findUser (User.googleId u) users = Some found -> f u = f found ->
  map f (replaceUser u users) = map f users.
Proof.
  unfold findUser. intros Hfind Hf.
  induction users as [|v users IH]; [done|]. simpl in *.
  destruct (String.eqb (User.googleId v) (User.googleId u)).
  - injection Hfind as <-. simpl. by rewrite Hf.
  - simpl. by rewrite IH.
Qed.

Lemma replaceUser_elem u users found :
  findUser (User.googleId u) users = Some found -> u ∈ replaceUser u users.
Proof.
  unfold findUser. induction users as [|v users IH]; [done|]. simpl.
  destruct (String.eqb (User.googleId v) (User.googleId u)).
  - intros _. left.
  - intros Hf. right. by apply IH.
Qed.

(** X13 - [POST /api/auth/google] keeps the two unique keys of the "users"
    collection: whatever the token, the [googleId]s and the [email]s of the
    resulting collection are pairwise distinct if they were before. *)
Theorem authGoogle_keeps_unique_keys ticket now users session :
  NoDup (map User.googleId users) ->
  NoDup (map User.email users) ->
  let users' := (authGoogle ticket now users session).2.1 in
  NoDup (map User.googleId users') /\ NoDup (map User.email users').
Proof.
  intros Hids Hemails. cbv zeta. unfold authGoogle.
  destruct ticket as [payload|]; [|done].
  destruct (findUser (Payload.sub payload) users) as [found|] eqn:Hfind.
  - destruct (validUser _); [|done]. cbn [fst snd].
    apply findUser_Some in Hfind as Hfound. destruct Hfound as [_ Hgid].
    rewrite (replaceUser_map User.googleId _ users found),
      (replaceUser_map User.email _ users found); try done.
    all: cbn [User.googleId]; by rewrite Hgid.
  - destruct (validUser _ && negb _) eqn:Hok; [|done]. cbn [fst snd].
    apply andb_prop in Hok as [_ Hfree]. apply negb_true_iff in Hfree.
    rewrite !map_app. cbn [map User.googleId User.email] in *. split.
    + apply NoDup_app. split; [done|]. split; [|apply NoDup_singleton].
      intros x Hx ->%list_elem_of_singleton. by apply findUser_None in Hfind.
    + apply NoDup_app. split; [done|]. split; [|apply NoDup_singleton].
      intros x Hx ->%list_elem_of_singleton. by apply emailTaken_false in Hfree.
Qed.

Lemma authGoogle_keeps_unique_keys_witness :
  let payload :=
    {| Payload.sub := "g-dave"; Payload.email := Some "dave@example.org";
       Payload.name := Some "Dave"; Payload.picture := None |} in
  (NoDup (map User.googleId [carol]) /\ NoDup (map User.email [carol])) /\
  NoDup (map User.googleId
           (authGoogle (Some payload) 1000 [carol] None).2.1).
Proof.
  intros payload.
  assert (NoDup (map User.googleId [carol])) as H1 by apply NoDup_singleton.
  assert (NoDup (map User.email [carol])) as H2 by apply NoDup_singleton.
  split; [by split|].
  apply (authGoogle_keeps_unique_keys (Some payload) 1000 [carol] None H1 H2).
Defined.

(** X14 - A login that succeeds opens a session for the token's subject,
    which [GET /api/auth/check] then returns; the user's document carries
    the login time and the token's picture.  A known user keeps the stored
    e-mail address, name and creation time and no document is added; an
    unknown one gets a single new document.  A login that fails answers 400
    and leaves the collection and the session as they were. *)
Theorem authGoogle_session ticket now users session resp users' session' :
  authGoogle ticket now users session = (resp, (users', session')) ->
  match resp with
  | Json status su =>
      status = 200 /\ session' = Some su /\ authCheck session' = Json 200 su /\
      exists payload u,
        ticket = Some payload /\ u ∈ users' /\ sessionOf u = su /\
        User.googleId u = Payload.sub payload /\
        User.lastLoginAt u = now /\
        User.picture u = Payload.picture payload /\
        match findUser (Payload.sub payload) users with
        | Some old =>
            length users' = length users /\
            User.email u = User.email old /\ User.name u = User.name old /\
            User.createdAt u = User.createdAt old
        | None => users' = users ++ [u] /\ User.createdAt u = now
        end
  | Error status _ => status = 400 /\ users' = users /\ session' = session
  end.
Proof.
  unfold authGoogle.
  destruct ticket as [payload|]; [|by intros [= <- <- <-]].
  destruct (findUser (Payload.sub payload) users) as [found|] eqn:Hfind.
  - destruct (validUser _); [|by intros [= <- <- <-]].
    intros [= <- <- <-]. cbv beta iota.
    split; [reflexivity|]. split; [reflexivity|]. split; [reflexivity|].
    pose proof (findUser_Some _ _ _ Hfind) as [_ Hgid].
    eexists payload, _. split; [done|]. split.
    { eapply replaceUser_elem. cbn [User.googleId]. by rewrite Hgid. }
    cbn [User.googleId User.email User.name User.picture User.createdAt
         User.lastLoginAt].
    rewrite Hfind. do 4 (split; [done|]). split; [|done].
    assert (length (map User.googleId (replaceUser
      {| User.googleId := User.googleId found; User.email := User.email found;
         User.name := User.name found; User.picture := Payload.picture payload;
         User.createdAt := User.createdAt found; User.lastLoginAt := now |}
      users)) = length (map User.googleId users)) as Hlen.
    { rewrite (replaceUser_map User.googleId _ users found); [done| |done].
      cbn [User.googleId]. by rewrite Hgid. }
    by rewrite !length_map in Hlen.
  - destruct (validUser _ && negb _); [|by intros [= <- <- <-]].
    intros [= <- <- <-]. cbv beta iota.
    split; [reflexivity|]. split; [reflexivity|]. split; [reflexivity|].
    eexists payload, _. split; [done|]. split.
    { apply elem_of_app. right. left. }
    cbn [User.googleId User.email User.name User.picture User.createdAt
         User.lastLoginAt].
    by rewrite Hfind.
Qed.

Lemma authGoogle_session_witness :
  let payload :=
    {| Payload.sub := "g-carol"; Payload.email := Some "new@example.org";
       Payload.name := Some "Caroline"; Payload.picture := Some "p.png" |} in
  let su :=
    {| googleId := "g-carol"; email := "carol@example.org"; name := "Carol";
       picture := Some "p.png" |} in
  let carol' :=
    {| User.googleId := "g-carol"; User.email := "carol@example.org";
       User.name := "Carol"; User.picture := Some "p.png";
       User.createdAt := 0; User.lastLoginAt := 1000 |} in
  authGoogle (Some payload) 1000 [carol] None
    = (Json 200 su, ([carol'], Some su)) /\
  authCheck (Some su) = Json 200 su.
Proof.
  intros payload su carol'.
  assert (authGoogle (Some payload) 1000 [carol] None
          = (Json 200 su, ([carol'], Some su))) as Hlogin by reflexivity.
  split; [exact Hlogin|].
  pose proof (authGoogle_session (Some payload) 1000 [carol] None _ _ _ Hlogin)
    as (_ & _ & Hcheck & _).
  exact Hcheck.
Defined.


(** ** Further properties: the calendar walks of the chart *)

Lemma MakeDay_index y m d : MakeDay y m d = MakeDay 0 (12 * y + m) d.
Proof.
  unfold MakeDay.
  replace ((12 * y + m) / 12) with (y + m / 12)
    by (Z.div_mod_to_equations; lia).
  replace ((12 * y + m) mod 12) with (m mod 12)
    by (Z.div_mod_to_equations; lia).
  by rewrite Z.add_0_l.
Qed.

Lemma monthOffset_succ_le l m :
  0 <= m <= 10 -> monthOffset l (m + 1) <= monthOffset l m + 31.
Proof.
  intros Hm.
  assert (m = 0 \/ m = 1 \/ m = 2 \/ m = 3 \/ m = 4 \/ m = 5 \/ m = 6 \/
          m = 7 \/ m = 8 \/ m = 9 \/ m = 10) as Hc by lia.
  destruct l; repeat (destruct Hc as [->|Hc]; [vm_compute; discriminate|]);
    subst; vm_compute; discriminate.
Qed.

(** From one month to the next, at the same date, there are 28 to 31
    days. *)
Lemma MakeDay_next_month M d :
  MakeDay 0 M d + 28 <= MakeDay 0 (M + 1) d <= MakeDay 0 M d + 31.
Proof.
  rewrite (MakeDay_normal 0 M), Z.add_0_l.
  replace (MakeDay 0 (M + 1) d) with (MakeDay (M / 12) (M mod 12 + 1) d).
  2:{ rewrite (MakeDay_index (M / 12)). f_equal.
      pose proof (Z.div_mod M 12). lia. }
  pose proof (Z.mod_pos_bound M 12 ltac:(lia)) as Hm.
  split; [apply MakeDay_month_succ; lia|].
  destruct (Z.eq_dec (M mod 12) 11) as [->|Hne].
  - unfold MakeDay. change ((11 + 1) / 12) with 1. change ((11 + 1) mod 12) with 0.
    change (11 / 12) with 0. change (11 mod 12) with 11.
    rewrite !Z.add_0_r, DayFromYear_succ. unfold DaysInYear.
    change (monthOffset (isLeap (M / 12 + 1)) 0) with 0.
    change (monthOffset (isLeap (M / 12)) 11)
      with (334 + if isLeap (M / 12) then 1 else 0).
    destruct (isLeap (M / 12)); lia.
  - rewrite !MakeDay_in_year by lia.
    pose proof (monthOffset_succ_le (isLeap (M / 12)) (M mod 12)). lia.
Qed.

Lemma MakeDay_month_mono M1 M2 d :
  M1 < M2 -> MakeDay 0 M1 d + 28 * (M2 - M1) <= MakeDay 0 M2 d.
Proof.
  intros H. replace M2 with (M1 + Z.of_nat (Z.to_nat (M2 - M1))) by lia.
  generalize (Z.to_nat (M2 - M1)) as k. clear H M2.
  induction k as [|k IH].
  - rewrite Z.add_0_r. lia.
  - replace (M1 + Z.of_nat (S k)) with (M1 + Z.of_nat k + 1) by lia.
    pose proof (MakeDay_next_month (M1 + Z.of_nat k) d). lia.
Qed.

Lemma MonthFromTime_of_offset t y m k :
  0 <= m <= 11 -> 0 <= k <= 27 ->
  YearFromTime t = y ->
  DayWithinYear t = monthOffset (isLeap y) m + k ->
  MonthFromTime t = m.
Proof.
  intros Hm Hk Hy Hd. unfold MonthFromTime. rewrite Hd, Hy. clear Hd Hy.
  assert (m = 0 \/ m = 1 \/ m = 2 \/ m = 3 \/ m = 4 \/ m = 5 \/ m = 6 \/
          m = 7 \/ m = 8 \/ m = 9 \/ m = 10 \/ m = 11) as Hc by lia.
  destruct (isLeap y);
    repeat (destruct Hc as [->|Hc];
            [cbn [monthOffset Z.eqb Pos.eqb];
             repeat match goal with
                    | |- context [?a <? ?b] => destruct (Z.ltb_spec a b); try lia
                    end; reflexivity|]);
    subst; cbn [monthOffset Z.eqb Pos.eqb];
    repeat match goal with
           | |- context [?a <? ?b] => destruct (Z.ltb_spec a b); try lia
           end; reflexivity.
Qed.

(** A date up to the 28th reads back as the year, month and date it was
    made of. *)
Lemma civil_of_MakeDay t y m d :
  0 <= m <= 11 -> 1 <= d <= 28 ->
  Day t = MakeDay y m d ->
  YearFromTime t = y /\ MonthFromTime t = m /\ DateFromTime t = d.
Proof.
  intros Hm Hd Hday. rewrite MakeDay_in_year in Hday by done.
  pose proof (monthOffset_bound y m Hm) as Hoff.
  assert (YearFromTime t = y) as Hy.
  { unfold YearFromTime. apply YearFromDay_unique.
    rewrite DayFromYear_succ. lia. }
  assert (DayWithinYear t = monthOffset (isLeap y) m + (d - 1)) as Hw.
  { unfold DayWithinYear. rewrite Hy. lia. }
  assert (MonthFromTime t = m) as Hmo
    by (apply (MonthFromTime_of_offset t y m (d - 1)); [done|lia|done|done]).
  repeat split; try done.
  unfold DateFromTime. rewrite Hy, Hmo, Hw. lia.
Qed.

Lemma civil_of_index M d :
  1 <= d <= 28 ->
  let t := MakeDate (MakeDay 0 M d) 0 in
  onDayOfMonth d t /\ monthIndex t = M.
Proof.
  intros Hd t.
  destruct (civil_of_MakeDay t (M / 12) (M mod 12) d) as (Hy & Hm & Hdt).
  { pose proof (Z.mod_pos_bound M 12). lia. }
  { done. }
  { unfold t. rewrite Day_MakeDate by (unfold msPerDay; lia).
    rewrite (MakeDay_normal 0 M). by rewrite Z.add_0_l. }
  split; [split; [apply midnight_MakeDate|done]|].
  unfold monthIndex. rewrite Hy, Hm. pose proof (Z.div_mod M 12). lia.
Qed.

Lemma onDayOfMonth_eq dom t :
  onDayOfMonth dom t -> t = MakeDate (MakeDay 0 (monthIndex t) dom) 0.
Proof.
  intros [Hmid Hd]. apply midnight_eq; [done|apply midnight_MakeDate|].
  rewrite Day_MakeDate by (unfold msPerDay; lia).
  unfold monthIndex. rewrite <- MakeDay_index, <- Hd. symmetry.
  apply MakeDay_civil.
Qed.

Lemma advance_month_index dom t :
  onDayOfMonth dom t ->
  advance StepMonth t = MakeDate (MakeDay 0 (monthIndex t + 1) dom) 0.
Proof.
  intros [Hmid Hd]. simpl. unfold setMonth, getMonth. rewrite Hmid, Hd.
  f_equal. rewrite MakeDay_index. f_equal. unfold monthIndex. lia.
Qed.

Lemma DateFromTime_bounds t :
  1 <= DateFromTime t
  /\ Day t < MakeDay 0 (monthIndex t + 1) 1.
Proof.
  pose proof (DayWithinYear_bound t) as Hw.
  pose proof (MonthFromTime_range t) as Hr.
  assert (forall m, MonthFromTime t = m ->
            monthOffset (isLeap (YearFromTime t)) m <= DayWithinYear t
            /\ (m < 11 -> DayWithinYear t
                          < monthOffset (isLeap (YearFromTime t)) (m + 1)))
    as Hin.
  { intros m <-. unfold MonthFromTime, DaysInYear in *.
    destruct (isLeap (YearFromTime t));
      repeat match goal with
             | |- context [?a <? ?b] => destruct (Z.ltb_spec a b)
             end;
      repeat match goal with
             | |- context [monthOffset ?l ?c] =>
                 let v := eval vm_compute in (monthOffset l c) in
                 change (monthOffset l c) with v
             end; split; intros; lia. }
  destruct (Hin _ eq_refl) as [Hlo Hhi].
  split; [unfold DateFromTime; lia|].
  unfold monthIndex. rewrite <- Z.add_assoc, <- MakeDay_index.
  destruct (Z.eq_dec (MonthFromTime t) 11) as [E|Hne].
  - rewrite E. unfold MakeDay.
    change ((11 + 1) / 12) with 1. change ((11 + 1) mod 12) with 0.
    change (monthOffset (isLeap (YearFromTime t + 1)) 0) with 0.
    rewrite DayFromYear_succ. unfold DayWithinYear in Hw. lia.
  - rewrite MakeDay_in_year by lia. unfold DayWithinYear in *.
    specialize (Hhi ltac:(lia)). lia.
Qed.

(** Whether an aligned iterator has passed [today] is decided by the month
    indices, and inside today's month by the dates. *)
Lemma onDayOfMonth_le dom x today :
  1 <= dom <= 28 -> onDayOfMonth dom x -> midnight today ->
  (x <= today <->
   monthIndex x < monthIndex today
   \/ (monthIndex x = monthIndex today /\ dom <= DateFromTime today)).
Proof.
  intros Hdom Hx Ht.
  rewrite (midnight_le x today (proj1 Hx) Ht).
  rewrite (onDayOfMonth_eq dom x Hx) at 1.
  rewrite Day_MakeDate by (unfold msPerDay; lia).
  pose proof (DateFromTime_bounds today) as [Hd1 Hnext].
  assert (Day today = MakeDay 0 (monthIndex today) 1 + DateFromTime today - 1)
    as Htoday.
  { rewrite <- (MakeDay_civil today) at 1. unfold monthIndex.
    rewrite <- MakeDay_index. unfold MakeDay. lia. }
  assert (forall M, MakeDay 0 M dom = MakeDay 0 M 1 + dom - 1) as Hdomday
    by (intros M; unfold MakeDay; lia).
  rewrite Hdomday, Htoday.
  destruct (Z.lt_trichotomy (monthIndex x) (monthIndex today))
    as [Hlt|[Heq|Hgt]].
  - pose proof (MakeDay_month_mono _ _ 1 Hlt). split; [by left|]. lia.
  - rewrite Heq. split; [right; split; [done|lia]|]. lia.
  - pose proof (MakeDay_month_mono _ _ 1 Hgt).
    destruct (Z.eq_dec (monthIndex today + 1) (monthIndex x)) as [E|Hne].
    + rewrite <- E. lia.
    + pose proof (MakeDay_month_mono (monthIndex today + 1) (monthIndex x) 1
                    ltac:(lia)). lia.
Qed.

(** The monthly walk from an aligned start visits day [dom] of successive
    months, up to and including today's month if its day [dom] has come. *)
Lemma axisDates_month dom fuel today d :
  1 <= dom <= 28 -> onDayOfMonth dom d -> midnight today ->
  (Z.to_nat (Day today - Day d + 1) < fuel)%nat ->
  axisDates fuel StepMonth today d =
  map (fun k : nat => MakeDate (MakeDay 0 (monthIndex d + Z.of_nat k) dom) 0)
      (seq 0 (Z.to_nat (monthIndex today - monthIndex d
                        + if dom <=? DateFromTime today then 1 else 0))).
Proof.
  intros Hdom Hd Ht. revert d Hd.
  induction fuel as [|fuel IH]; intros d Hd Hf; [lia|].
  cbn [axisDates].
  pose proof (onDayOfMonth_le dom d today Hdom Hd Ht) as Hle.
  destruct (Z.leb_spec d today) as [Hdt|Hdt].
  - pose proof (advance_Day_lt StepMonth d) as Hadv.
    pose proof (Day_mono _ _ Hdt) as Hday.
    rewrite (advance_month_index dom d Hd) in *.
    destruct (civil_of_index (monthIndex d + 1) dom Hdom) as [Hnext Hidx].
    cbv zeta in Hnext, Hidx.
    rewrite IH; [|done|lia]. rewrite Hidx.
    assert (0 <= monthIndex today - monthIndex d
                 + (if dom <=? DateFromTime today then 1 else 0) - 1) as Hn.
    { apply Hle in Hdt.
      destruct (Z.leb_spec dom (DateFromTime today)); lia. }
    replace (Z.to_nat (monthIndex today - monthIndex d
                       + (if dom <=? DateFromTime today then 1 else 0)))
      with (S (Z.to_nat (monthIndex today - (monthIndex d + 1)
                         + (if dom <=? DateFromTime today then 1 else 0))))
      by lia.
    cbn [seq map]. f_equal.
    + rewrite Z.add_0_r. by apply onDayOfMonth_eq.
    + rewrite <- seq_shift, map_map. apply map_ext. intros k.
      do 2 f_equal. lia.
  - assert (monthIndex today - monthIndex d
            + (if dom <=? DateFromTime today then 1 else 0) <= 0) as Hn.
    { destruct (Z.leb_spec dom (DateFromTime today)) as [H1|H1].
      - destruct (Z.lt_ge_cases (monthIndex today) (monthIndex d)); [lia|].
        exfalso. apply (Z.lt_irrefl today).
        apply Z.lt_le_trans with d; [done|]. apply Hle. lia.
      - destruct (Z.le_gt_cases (monthIndex today) (monthIndex d)); [lia|].
        exfalso. apply (Z.lt_irrefl today).
        apply Z.lt_le_trans with d; [done|]. apply Hle. lia. }
    by replace (Z.to_nat _) with 0%nat by lia.
Qed.

Lemma monthIndex_setHours0 t : monthIndex (setHours0 t) = monthIndex t.
Proof.
  unfold monthIndex. by rewrite YearFromTime_setHours0, MonthFromTime_setHours0.
Qed.

Lemma civil_of_index_month M d :
  1 <= d <= 28 -> MonthFromTime (MakeDate (MakeDay 0 M d) 0) = M mod 12.
Proof.
  intros Hd.
  destruct (civil_of_MakeDay (MakeDate (MakeDay 0 M d) 0) (M / 12) (M mod 12) d)
    as (_ & Hm & _); try done.
  - pose proof (Z.mod_pos_bound M 12). lia.
  - rewrite Day_MakeDate by (unfold msPerDay; lia).
    rewrite (MakeDay_normal 0 M). by rewrite Z.add_0_l.
Qed.

(** *** Weekly and monthly charts *)

Lemma daily_plan_chart period now store startDate fmt :
  chartPlan (default "week" period) (setHours0 now) store
    = Plan startDate fmt StepDay ->
  midnight startDate ->
  let days :=
    map (fun k : nat => startDate + Z.of_nat k * msPerDay)
        (seq 0 (Z.to_nat (Day now - Day startDate + 1))) in
  caffeineChart period now store =
  Some (Json 200
    {| labels := map fmt days;
       values := map (fun d => sumMg (bucketMembers StepDay startDate now
                                        (axisKey StepDay d) store)) days |}).
Proof.
  intros Hplan Hstart. cbv zeta.
  rewrite (caffeineChart_plan _ _ _ _ _ _ Hplan). cbv zeta.
  rewrite axisDates_day;
    [|done|apply midnight_setHours0|unfold axisFuel; lia].
  by rewrite setHours0_Day.
Qed.

(** X15 - The charts of [period = week] and [period = month] (and of a
    request without period, which means week) have exactly 7 and exactly
    30 daily buckets, for the consecutive days that end today, whatever
    the store holds. *)
Theorem week_and_month_axes now store :
  let today := setHours0 now in
  let lastDays (n : nat) :=
    map (fun k : nat => today - (Z.of_nat n - 1) * msPerDay
                        + Z.of_nat k * msPerDay) (seq 0 n) in
  (exists vs,
     caffeineChart (Some "week") now store
       = Some (Json 200 {| labels := map fmtMonthDay (lastDays 7%nat);
                           values := vs |})
     /\ length vs = 7%nat
     /\ caffeineChart None now store = caffeineChart (Some "week") now store)
  /\
  (exists vs,
     caffeineChart (Some "month") now store
       = Some (Json 200 {| labels := map fmtMonthDay (lastDays 30%nat);
                           values := vs |})
     /\ length vs = 30%nat).
Proof.
  cbv zeta.
  pose proof (midnight_setHours0 now) as Htoday.
  assert (forall k, setDate (setHours0 now) (getDate (setHours0 now) - k)
                    = setHours0 now - k * msPerDay) as Hstart.
  { intros k. replace (getDate (setHours0 now) - k)
      with (getDate (setHours0 now) + - k) by lia.
    rewrite setDate_add. lia. }
  split.
  - destruct (setDate_sub_midnight (setHours0 now) 6 Htoday) as [Hmid Hday].
    rewrite setHours0_Day in Hday.
    pose proof (daily_plan_chart (Some "week") now store _ fmtMonthDay
                  eq_refl Hmid) as Hchart.
    cbv zeta in Hchart.
    replace (Day now - Day (setDate (setHours0 now) (getDate (setHours0 now) - 6)) + 1)
      with 7 in Hchart by lia.
    rewrite Hstart in Hchart.
    eexists. split; [exact Hchart|]. split.
    + by rewrite length_map, length_map, length_seq.
    + unfold caffeineChart. cbn [default]. reflexivity.
  - destruct (setDate_sub_midnight (setHours0 now) 29 Htoday) as [Hmid Hday].
    rewrite setHours0_Day in Hday.
    pose proof (daily_plan_chart (Some "month") now store _ fmtMonthDay
                  eq_refl Hmid) as Hchart.
    cbv zeta in Hchart.
    replace (Day now - Day (setDate (setHours0 now) (getDate (setHours0 now) - 29)) + 1)
      with 30 in Hchart by lia.
    rewrite Hstart in Hchart.
    eexists. split; [exact Hchart|].
    by rewrite length_map, length_map, length_seq.
Qed.

Lemma chartPlan_invalid p today store :
  chartPlan p today store = PlanInvalidPeriod <->
  ~ p ∈ ["week"; "month"; "year"; "all"].
Proof.
  unfold chartPlan.
  destruct (String.eqb_spec p "week") as [->|H1].
  { split; [done|]. intros Hn. exfalso. apply Hn. left. }
  destruct (String.eqb_spec p "month") as [->|H2].
  { split; [done|]. intros Hn. exfalso. apply Hn. right. left. }
  destruct (String.eqb_spec p "year") as [->|H3].
  { split; [done|]. intros Hn. exfalso. apply Hn. do 2 right. left. }
  destruct (String.eqb_spec p "all") as [->|H4].
  { split.
    - destruct (findEarliest store), (findLatest store); try done.
      cbv zeta. destruct (_ <=? 90); [done|]. by destruct (_ <=? 18 * 30).
    - intros Hn. exfalso. apply Hn. do 3 right. left. }
  split; [|done]. intros _ Hin.
  repeat (apply elem_of_cons in Hin as [?|Hin]; [done|]).
  by apply elem_of_nil in Hin.
Qed.

(** X16 - The chart endpoint always answers.  It answers 400 exactly when
    the period is none of week, month, year and all, and 200 with as many
    labels as values otherwise. *)
Theorem chart_always_answers period now store :
  exists resp,
    caffeineChart period now store = Some resp /\
    let known :=
      default "week" period ∈ ["week"; "month"; "year"; "all"] in
    match resp with
    | Json status data =>
        status = 200 /\ known /\ length (labels data) = length (values data)
    | Error status _ => status = 400 /\ ~ known
    end.
Proof.
  cbv zeta.
  pose proof (chartPlan_invalid (default "week" period) (setHours0 now) store)
    as Hinv.
  assert (forall P : Prop, Decision P -> ~ ~ P -> P) as Hdn.
  { intros P [HP|HP] HnnP; [done|by destruct HnnP]. }
  destruct (chartPlan (default "week" period) (setHours0 now) store)
    as [startDate fmt step| |] eqn:Hplan.
  - eexists. split; [by apply caffeineChart_plan|]. cbn.
    split; [done|]. split; [|by rewrite !length_map].
    apply Hdn; [apply _|]. intros Hn. by apply Hinv in Hn.
  - exists (Json 200 {| labels := []; values := [] |}).
    unfold caffeineChart. rewrite Hplan. split; [done|]. cbn.
    split; [done|]. split; [|done].
    apply Hdn; [apply _|]. intros Hn. by apply Hinv in Hn.
  - exists (Error 400 "Invalid period").
    unfold caffeineChart. rewrite Hplan. split; [done|]. cbn.
    split; [done|]. by apply Hinv.
Qed.


(** *** Monthly charts *)

Lemma monthly_plan_chart period now store startDate fmt dom :
  chartPlan (default "week" period) (setHours0 now) store
    = Plan startDate fmt StepMonth ->
  1 <= dom <= 28 -> onDayOfMonth dom startDate ->
  let months :=
    map (fun k : nat =>
           MakeDate (MakeDay 0 (monthIndex startDate + Z.of_nat k) dom) 0)
        (seq 0 (Z.to_nat (monthIndex now - monthIndex startDate
                          + if dom <=? DateFromTime now then 1 else 0))) in
  caffeineChart period now store =
  Some (Json 200
    {| labels := map fmt months;
       values := map (fun d => sumMg (bucketMembers StepMonth startDate now
                                        (axisKey StepMonth d) store)) months |}).
Proof.
  intros Hplan Hdom Hstart. cbv zeta.
  rewrite (caffeineChart_plan _ _ _ _ _ _ Hplan). cbv zeta.
  rewrite (axisDates_month dom);
    [|done|done|apply midnight_setHours0|unfold axisFuel; lia].
  by rewrite monthIndex_setHours0, DateFromTime_setHours0.
Qed.

Lemma monthIndex_setDate_1 ts :
  monthIndex (setDate (setHours0 ts) 1) = monthIndex ts.
Proof.
  unfold setDate. rewrite (midnight_setHours0 ts).
  rewrite YearFromTime_setHours0, MonthFromTime_setHours0.
  rewrite MakeDay_index.
  destruct (civil_of_index (12 * YearFromTime ts + MonthFromTime ts) 1
              ltac:(lia)) as [_ Hidx].
  exact Hidx.
Qed.

Lemma calendarSteps_month a b :
  calendarSteps StepMonth a b = monthIndex b - monthIndex a + 1.
Proof. reflexivity. Qed.

(** X17 - [period = all] with monthly buckets (a span of 91 to 540 days):
    the axis holds the first day of every calendar month from the month of
    the earliest entry to the current month, none skipped and none twice,
    so that the chart has exactly as many buckets as calendar months lie
    between its start and today. *)
Theorem all_monthly_axis now store earliest latest :
  findEarliest store = Some earliest ->
  findLatest store = Some latest ->
  90 < daysSpanOf (setHours0 (timestamp earliest))
         (setHours0 (timestamp latest)) <= 540 ->
  let startDate := setDate (setHours0 (timestamp earliest)) 1 in
  let first := monthIndex (timestamp earliest) in
  let n := Z.to_nat (monthIndex now - first + 1) in
  let months :=
    map (fun k : nat => MakeDate (MakeDay 0 (first + Z.of_nat k) 1) 0)
        (seq 0 n) in
  caffeineChart (Some "all") now store
    = Some (Json 200
        {| labels := map fmtMonthYear months;
           values := map (fun d => sumMg (bucketMembers StepMonth startDate now
                                            (axisKey StepMonth d) store))
                         months |})
  /\ (forall (k : nat) d, months !! k = Some d ->
        firstOfMonth d /\ monthIndex d = first + Z.of_nat k)
  /\ Z.of_nat (length months)
     = Z.max 0 (calendarSteps StepMonth startDate (setHours0 now)).
Proof.
  intros Hearliest Hlatest [Hlo Hhi]. cbv zeta.
  assert (chartPlan (default "week" (Some "all")) (setHours0 now) store
          = Plan (setDate (setHours0 (timestamp earliest)) 1) fmtMonthYear
              StepMonth) as Hplan.
  { unfold chartPlan. cbn [default String.eqb Ascii.eqb Bool.eqb].
    rewrite Hearliest, Hlatest. cbv zeta.
    destruct (Z.leb_spec (daysSpanOf (setHours0 (timestamp earliest))
                            (setHours0 (timestamp latest))) 90); [lia|].
    destruct (Z.leb_spec (daysSpanOf (setHours0 (timestamp earliest))
                            (setHours0 (timestamp latest))) (18 * 30));
      [done|lia]. }
  pose proof (monthly_plan_chart (Some "all") now store _ fmtMonthYear 1 Hplan
                ltac:(lia) (firstOfMonth_setDate_1 (timestamp earliest)))
    as Hchart.
  cbv zeta in Hchart. rewrite monthIndex_setDate_1 in Hchart.
  destruct (DateFromTime_bounds now) as [Hd1 _].
  destruct (Z.leb_spec 1 (DateFromTime now)); [|lia].
  split; [exact Hchart|]. split.
  - intros k d Hk.
    change (map ?f ?l) with (f <$> l) in Hk.
    apply list_lookup_fmap_Some in Hk as (k' & -> & Hk').
    apply lookup_seq in Hk' as [-> _]. cbn [Nat.add].
    by destruct (civil_of_index (monthIndex (timestamp earliest) + Z.of_nat k)
                   1 ltac:(lia)).
  - rewrite length_map, length_seq, calendarSteps_month.
    rewrite monthIndex_setHours0, monthIndex_setDate_1. lia.
Qed.

Lemma all_monthly_axis_witness :
  let now := utc 2024 3 10 12 0 in
  let e1 := entryOf alice "e1" (utc 2023 11 20 9 0) 50 in
  let e2 := entryOf alice "e2" (utc 2024 3 9 9 0) 30 in
  (findEarliest [e1; e2] = Some e1 /\ findLatest [e1; e2] = Some e2 /\
   90 < daysSpanOf (setHours0 (timestamp e1)) (setHours0 (timestamp e2))
     <= 540) /\
  caffeineChart (Some "all") now [e1; e2]
    = Some (Json 200
        {| labels := ["Nov 2023"; "Dec 2023"; "Jan 2024"; "Feb 2024";
                      "Mar 2024"];
           values := [50; 0; 0; 0; 30] |}).
Proof.
  intros now e1 e2.
  assert (90 < daysSpanOf (setHours0 (timestamp e1)) (setHours0 (timestamp e2))
            <= 540) as Hspan
    by (vm_compute; split; [reflexivity|discriminate]).
  split; [by repeat split|].
  destruct (all_monthly_axis now [e1; e2] e1 e2 eq_refl eq_refl Hspan)
    as (Hchart & _).
  rewrite Hchart. vm_compute. reflexivity.
Defined.

(** X18 - [period = year] on a day of the month up to the 28th: the walk
    from the same date one year earlier visits that date of thirteen
    successive months, the last being today, so the chart has 13 buckets,
    labelled with the month names from the current month round to the
    current month. *)
Theorem year_chart_thirteen_months now store :
  getDate now <= 28 ->
  exists ls vs,
    caffeineChart (Some "year") now store
      = Some (Json 200 {| labels := ls; values := vs |}) /\
    length vs = 13%nat /\
    ls = map (fun k : nat => monthShort ((getMonth now + Z.of_nat k) mod 12))
             (seq 0 13).
Proof.
  intros Hdom. unfold getDate in Hdom.
  destruct (DateFromTime_bounds now) as [Hd1 _].
  set (dom := DateFromTime now) in *.
  set (today := setHours0 now).
  pose proof (midnight_setHours0 now) as Htoday. fold today in Htoday.
  set (startDate := setFullYear today (getFullYear today - 1)).
  assert (startDate = MakeDate (MakeDay 0 (monthIndex now - 12) dom) 0)
    as Hstart.
  { unfold startDate, setFullYear, getFullYear, today.
    rewrite (midnight_setHours0 now), YearFromTime_setHours0,
      MonthFromTime_setHours0, DateFromTime_setHours0.
    f_equal. rewrite MakeDay_index. f_equal. unfold monthIndex. lia. }
  destruct (civil_of_index (monthIndex now - 12) dom ltac:(lia))
    as [Hon Hidx].
  cbv zeta in Hon, Hidx. rewrite <- Hstart in Hon, Hidx.
  pose proof (monthly_plan_chart (Some "year") now store startDate fmtMonth
                dom eq_refl ltac:(lia) Hon) as Hchart.
  cbv zeta in Hchart. rewrite Hidx in Hchart. fold dom in Hchart.
  rewrite Z.leb_refl in Hchart.
  replace (Z.to_nat (monthIndex now - (monthIndex now - 12) + 1))
    with 13%nat in Hchart by lia.
  eexists _, _. split; [exact Hchart|]. split.
  - by rewrite length_map, length_map, length_seq.
  - rewrite map_map. apply map_ext_in. intros k _.
    unfold fmtMonth, getMonth. rewrite civil_of_index_month by lia.
    f_equal. unfold monthIndex.
    pose proof (MonthFromTime_range now).
    Z.div_mod_to_equations. lia.
Qed.

Lemma year_chart_thirteen_months_witness :
  getDate (utc 2024 11 2 12 0) <= 28 /\
  exists vs,
    caffeineChart (Some "year") (utc 2024 11 2 12 0) []
      = Some (Json 200
          {| labels := ["Nov"; "Dec"; "Jan"; "Feb"; "Mar"; "Apr"; "May";
                        "Jun"; "Jul"; "Aug"; "Sep"; "Oct"; "Nov"];
             values := vs |}).
Proof.
  assert (getDate (utc 2024 11 2 12 0) <= 28) as Hd
    by (vm_compute; discriminate).
  split; [exact Hd|].
  destruct (year_chart_thirteen_months (utc 2024 11 2 12 0) [] Hd)
    as (ls & vs & Hchart & _ & ->).
  exists vs. exact Hchart.
Defined.

(** *** Yearly charts *)

Lemma MakeDay_jan1 y : MakeDay y 0 1 = DayFromYear y.
Proof.
  rewrite MakeDay_in_year by lia.
  change (monthOffset (isLeap y) 0) with 0. lia.
Qed.

Lemma firstOfYear_eq t :
  firstOfYear t -> t = MakeDate (DayFromYear (YearFromTime t)) 0.
Proof.
  intros [[Hmid Hd] Hm]. apply midnight_eq; [done|apply midnight_MakeDate|].
  rewrite Day_MakeDate by (unfold msPerDay; lia).
  by rewrite <- (MakeDay_civil t), Hd, Hm, MakeDay_jan1.
Qed.

Lemma firstOfYear_of_year y :
  let t := MakeDate (DayFromYear y) 0 in
  firstOfYear t /\ YearFromTime t = y.
Proof.
  cbv zeta.
  rewrite <- MakeDay_jan1.
  destruct (firstOfMonth_MakeDay y 0) as (H1 & H2 & H3).
  split; [by split|]. rewrite H2. change (0 / 12) with 0. lia.
Qed.

Lemma advance_year t :
  firstOfYear t ->
  advance StepYear t = MakeDate (DayFromYear (YearFromTime t + 1)) 0.
Proof.
  intros [[Hmid Hd] Hm]. simpl. unfold setFullYear, getFullYear.
  by rewrite Hmid, Hd, Hm, MakeDay_jan1.
Qed.

Lemma firstOfYear_le x today :
  firstOfYear x -> midnight today ->
  (x <= today <-> YearFromTime x <= YearFromTime today).
Proof.
  intros Hx Ht. rewrite (midnight_le x today (proj1 (proj1 Hx)) Ht).
  rewrite (firstOfYear_eq x Hx) at 1.
  rewrite Day_MakeDate by (unfold msPerDay; lia).
  pose proof (YearFromDay_spec (Day today)) as Hs.
  fold (YearFromTime today) in Hs.
  destruct (Z.lt_trichotomy (YearFromTime x) (YearFromTime today))
    as [Hlt|[Heq|Hgt]].
  - pose proof (DayFromYear_lt _ _ Hlt). lia.
  - rewrite Heq. lia.
  - destruct (Z.eq_dec (YearFromTime today + 1) (YearFromTime x)) as [E|Hne].
    + rewrite <- E. lia.
    + pose proof (DayFromYear_lt (YearFromTime today + 1) (YearFromTime x)
                    ltac:(lia)). lia.
Qed.

Lemma axisDates_year fuel today d :
  firstOfYear d -> midnight today ->
  (Z.to_nat (Day today - Day d + 1) < fuel)%nat ->
  axisDates fuel StepYear today d =
  map (fun k : nat => MakeDate (DayFromYear (YearFromTime d + Z.of_nat k)) 0)
      (seq 0 (Z.to_nat (YearFromTime today - YearFromTime d + 1))).
Proof.
  intros Hd Ht. revert d Hd.
  induction fuel as [|fuel IH]; intros d Hd Hf; [lia|].
  cbn [axisDates].
  pose proof (firstOfYear_le d today Hd Ht) as Hle.
  destruct (Z.leb_spec d today) as [Hdt|Hdt].
  - pose proof (advance_Day_lt StepYear d) as Hadv.
    pose proof (Day_mono _ _ Hdt) as Hday.
    rewrite (advance_year d Hd) in *.
    destruct (firstOfYear_of_year (YearFromTime d + 1)) as [Hnext Hy].
    cbv zeta in Hnext, Hy.
    rewrite IH; [|done|lia]. rewrite Hy.
    apply Hle in Hdt.
    replace (Z.to_nat (YearFromTime today - YearFromTime d + 1))
      with (S (Z.to_nat (YearFromTime today - (YearFromTime d + 1) + 1)))
      by lia.
    cbn [seq map]. f_equal.
    + rewrite Z.add_0_r. by apply firstOfYear_eq.
    + rewrite <- seq_shift, map_map. apply map_ext. intros k.
      do 2 f_equal. lia.
  - assert (YearFromTime today < YearFromTime d) as Hn by lia.
    by replace (Z.to_nat _) with 0%nat by lia.
Qed.

(** X19 - [period = all] with yearly buckets (a span of more than 540
    days): the axis holds the first of January of every year from the year
    of the earliest entry to the current year, labelled with the year
    number, so that there is one bucket per calendar year.  (A year 0 to
    99 is read by [new Date(year, 0, 1)] as 1900 to 1999.) *)
Theorem all_yearly_axis now store earliest latest :
  findEarliest store = Some earliest ->
  findLatest store = Some latest ->
  540 < daysSpanOf (setHours0 (timestamp earliest))
          (setHours0 (timestamp latest)) ->
  let y := getFullYear (timestamp earliest) in
  let first := if (0 <=? y) && (y <=? 99) then 1900 + y else y in
  let startDate := newDateYMD y 0 1 in
  let years := map (fun k : nat => first + Z.of_nat k)
                   (seq 0 (Z.to_nat (getFullYear now - first + 1))) in
  caffeineChart (Some "all") now store
    = Some (Json 200
        {| labels := map numToString years;
           values := map (fun yr => sumMg (bucketMembers StepYear startDate now
                                             (numToString yr) store)) years |})
  /\ Z.of_nat (length years)
     = Z.max 0 (calendarSteps StepYear startDate (setHours0 now)).
Proof.
  intros Hearliest Hlatest Hspan. cbv zeta. unfold getFullYear.
  set (y := YearFromTime (timestamp earliest)).
  set (first := if (0 <=? y) && (y <=? 99) then 1900 + y else y).
  assert (chartPlan (default "week" (Some "all")) (setHours0 now) store
          = Plan (newDateYMD y 0 1) fmtYear StepYear) as Hplan.
  { change (default "week" (Some "all")) with "all".
    unfold chartPlan. cbn [String.eqb Ascii.eqb Bool.eqb].
    rewrite Hearliest, Hlatest. cbv zeta.
    destruct (Z.leb_spec (daysSpanOf (setHours0 (timestamp earliest))
                            (setHours0 (timestamp latest))) 90); [lia|].
    destruct (Z.leb_spec (daysSpanOf (setHours0 (timestamp earliest))
                            (setHours0 (timestamp latest))) (18 * 30));
      [lia|].
    unfold getFullYear. rewrite YearFromTime_setHours0. reflexivity. }
  assert (newDateYMD y 0 1 = MakeDate (DayFromYear first) 0) as Hstart.
  { unfold newDateYMD. fold first. by rewrite MakeDay_jan1. }
  destruct (firstOfYear_of_year first) as [Hfoy Hyear].
  cbv zeta in Hfoy, Hyear. rewrite <- Hstart in Hfoy, Hyear.
  rewrite (caffeineChart_plan _ _ _ _ _ _ Hplan). cbv zeta.
  rewrite axisDates_year;
    [|done|apply midnight_setHours0|unfold axisFuel; lia].
  rewrite Hyear, YearFromTime_setHours0. split.
  - do 3 f_equal.
    + rewrite !map_map. apply map_ext. intros k. unfold fmtYear, getFullYear.
      by destruct (firstOfYear_of_year (first + Z.of_nat k)) as [_ ->].
    + rewrite !map_map. apply map_ext. intros k.
      unfold axisKey, getFullYear.
      by destruct (firstOfYear_of_year (first + Z.of_nat k)) as [_ ->].
  - rewrite length_map, length_seq. unfold calendarSteps.
    rewrite Hyear, YearFromTime_setHours0. lia.
Qed.

Lemma all_yearly_axis_witness :
  let now := utc 2024 3 10 12 0 in
  let e1 := entryOf alice "e1" (utc 2022 5 20 9 0) 50 in
  let e2 := entryOf alice "e2" (utc 2024 3 9 9 0) 30 in
  (findEarliest [e1; e2] = Some e1 /\ findLatest [e1; e2] = Some e2 /\
   540 < daysSpanOf (setHours0 (timestamp e1)) (setHours0 (timestamp e2))) /\
  caffeineChart (Some "all") now [e1; e2]
    = Some (Json 200
        {| labels := ["2022"; "2023"; "2024"]; values := [50; 0; 30] |}).
Proof.
  intros now e1 e2.
  assert (540 < daysSpanOf (setHours0 (timestamp e1))
                  (setHours0 (timestamp e2))) as Hspan
    by (vm_compute; reflexivity).
  split; [by repeat split|].
  destruct (all_yearly_axis now [e1; e2] e1 e2 eq_refl eq_refl Hspan)
    as (Hchart & _).
  rewrite Hchart. vm_compute. reflexivity.
Defined.

(** *** Daily charts count every entry of their window *)

(** X20 - In a chart with daily buckets whose axis starts at midnight
    (week, month, and all over a short span), every stored entry of the
    window [startDate, now] is counted in one of the buckets, the one of
    its own day: none is dropped. *)
Theorem daily_chart_counts_every_entry period now store startDate fmt e :
  chartPlan (default "week" period) (setHours0 now) store
    = Plan startDate fmt StepDay ->
  e ∈ store -> startDate <= timestamp e <= now ->
  exists ls vs (i : nat),
    caffeineChart period now store
      = Some (Json 200 {| labels := ls; values := vs |}) /\
    i = Z.to_nat (Day (timestamp e) - Day startDate) /\
    ls !! i = Some (fmt (setHours0 (timestamp e))) /\
    vs !! i = Some (sumMg (bucketMembers StepDay startDate now
                             (entryKey StepDay (timestamp e)) store)) /\
    e ∈ bucketMembers StepDay startDate now
          (entryKey StepDay (timestamp e)) store.
Proof.
  intros Hplan Hin [Hlo Hhi].
  assert (midnight startDate) as Hmid.
  { revert Hplan. unfold chartPlan.
    pose proof (midnight_setHours0 now) as Htoday.
    destruct (String.eqb _ "week").
    { intros [= <- _]. by apply setDate_sub_midnight. }
    destruct (String.eqb _ "month").
    { intros [= <- _]. by apply setDate_sub_midnight. }
    destruct (String.eqb _ "year"); [done|].
    destruct (String.eqb _ "all"); [|done].
    destruct (findEarliest store), (findLatest store); try done. cbv zeta.
    destruct (_ <=? 90); [intros [= <- _]; apply midnight_setHours0|].
    by destruct (_ <=? 18 * 30). }
  pose proof (daily_plan_chart period now store startDate fmt Hplan Hmid)
    as Hchart.
  cbv zeta in Hchart.
  pose proof (Day_mono _ _ Hlo) as Hd1. pose proof (Day_mono _ _ Hhi) as Hd2.
  set (i := Z.to_nat (Day (timestamp e) - Day startDate)).
  assert (seq 0 (Z.to_nat (Day now - Day startDate + 1)) !! i = Some i)
    as Hseq by (apply lookup_seq; lia).
  assert (startDate + Z.of_nat i * msPerDay = setHours0 (timestamp e)) as Hday.
  { apply midnight_eq; [|apply midnight_setHours0|].
    - unfold midnight, TimeWithinDay in *. unfold msPerDay in *.
      Z.div_mod_to_equations. lia.
    - rewrite setHours0_Day. unfold Day, msPerDay, midnight, TimeWithinDay in *.
      unfold msPerDay in *. subst i. Z.div_mod_to_equations. lia. }
  eexists _, _, i. split; [exact Hchart|]. split; [done|].
  change (map ?f ?l) with (f <$> l).
  rewrite !list_lookup_fmap, Hseq. cbn [fmap option_fmap option_map].
  rewrite Hday. split; [done|]. split; [done|].
  apply bucketMembers_elem. repeat split; done.
Qed.

Lemma daily_chart_counts_every_entry_witness :
  let now := utc 2024 1 7 15 30 in
  let e := entryOf alice "e1" (utc 2024 1 3 9 0) 30 in
  (chartPlan "week" (setHours0 now) [e]
     = Plan (setDate (setHours0 now) (getDate (setHours0 now) - 6))
         fmtMonthDay StepDay
   /\ e ∈ [e]
   /\ setDate (setHours0 now) (getDate (setHours0 now) - 6)
        <= timestamp e <= now) /\
  exists ls vs,
    caffeineChart (Some "week") now [e]
      = Some (Json 200 {| labels := ls; values := vs |}) /\
    vs !! 2%nat = Some 30.
Proof.
  intros now e.
  assert (setDate (setHours0 now) (getDate (setHours0 now) - 6)
            <= timestamp e <= now) as Hwin
    by (vm_compute; split; discriminate).
  assert (e ∈ [e]) as Hin by left.
  split; [split; [reflexivity|split; [exact Hin|exact Hwin]]|].
  destruct (daily_chart_counts_every_entry (Some "week") now [e] _ fmtMonthDay
              e eq_refl Hin Hwin)
    as (ls & vs & i & Hchart & -> & _ & Hv & _).
  exists ls, vs. split; [exact Hchart|].
  exact Hv.
Defined.


(** ** Further properties: the leaderboard *)

Lemma MakeDay_prev_year y m d :
  0 <= m <= 11 ->
  MakeDay (y - 1) m d + 365 <= MakeDay y m d <= MakeDay (y - 1) m d + 366.
Proof.
  intros Hm. rewrite !MakeDay_in_year by lia.
  pose proof (DayFromYear_succ (y - 1)) as Hy.
  replace (y - 1 + 1) with y in Hy by lia.
  pose proof (DayFromYear_succ y) as Hy'.
  unfold DaysInYear in *.
  assert (forall l, monthOffset l m =
            monthOffset false m + if (2 <=? m) && l then 1 else 0) as Hoff.
  { intros l. unfold monthOffset.
    repeat match goal with
           | |- context [?a =? ?b] => destruct (Z.eqb_spec a b)
           end; subst; destruct l; try reflexivity;
      destruct (Z.leb_spec 2 m); simpl; lia. }
  rewrite (Hoff (isLeap (y - 1))), (Hoff (isLeap y)).
  destruct (Z.leb_spec 2 m), (isLeap (y - 1)), (isLeap y); simpl; lia.
Qed.

Lemma now_as_MakeDate now :
  now = MakeDate (MakeDay 0 (monthIndex now) (DateFromTime now))
          (TimeWithinDay now).
Proof.
  rewrite (Day_TimeWithinDay now) at 1. f_equal.
  unfold monthIndex. by rewrite <- MakeDay_index, MakeDay_civil.
Qed.

Lemma leaderboardFilter_week now :
  leaderboardFilter "week" now = Some (Some (setDate now (getDate now - 7))).
Proof. reflexivity. Qed.

Lemma leaderboardFilter_month now :
  leaderboardFilter "month" now
  = Some (Some (setMonth now (getMonth now - 1))).
Proof. reflexivity. Qed.

Lemma leaderboardFilter_year now :
  leaderboardFilter "year" now
  = Some (Some (setFullYear now (getFullYear now - 1))).
Proof. reflexivity. Qed.

Lemma setMonth_eq t m :
  setMonth t m
  = MakeDate (MakeDay (YearFromTime t) m (DateFromTime t)) (TimeWithinDay t).
Proof. reflexivity. Qed.

Lemma setFullYear_eq t y :
  setFullYear t y
  = MakeDate (MakeDay y (MonthFromTime t) (DateFromTime t)) (TimeWithinDay t).
Proof. reflexivity. Qed.

Lemma getMonth_eq t : getMonth t = MonthFromTime t.
Proof. reflexivity. Qed.

Lemma getFullYear_eq t : getFullYear t = YearFromTime t.
Proof. reflexivity. Qed.

Lemma MakeDate_eq d t : MakeDate d t = d * 86400000 + t.
Proof. reflexivity. Qed.

Lemma msPerDay_eq : msPerDay = 86400000.
Proof. reflexivity. Qed.

Lemma since_from_first y m d tm :
  MakeDate (MakeDay y m d) tm
  = MakeDate (MakeDay y m 1) 0 + (d - 1) * msPerDay + tm.
Proof.
  replace d with (1 + (d - 1)) at 1 by lia.
  rewrite MakeDay_date, !MakeDate_eq, msPerDay_eq. lia.
Qed.

(** X21 - The windows of the leaderboard.  "week" reaches back exactly
    seven days of 24 hours from now and "all" has no bound.  "month"
    starts at the time of day of now, as many days after the first of the
    previous calendar month as today lies after the first of this one;
    that is 28 to 31 days back, and it is the same date of the previous
    month whenever today is the 28th or earlier (on later days the start
    may run over into the following month).  "year" does the same from
    the first of this month in the previous year: 365 or 366 days back,
    and the same date of the previous year whenever today is the 28th or
    earlier. *)
Theorem leaderboard_windows now :
  leaderboardFilter "week" now = Some (Some (now - 7 * msPerDay)) /\
  (exists since first,
     leaderboardFilter "month" now = Some (Some since) /\
     firstOfMonth first /\ monthIndex first = monthIndex now - 1 /\
     since = first + (getDate now - 1) * msPerDay + TimeWithinDay now /\
     now - 31 * msPerDay <= since <= now - 28 * msPerDay /\
     (getDate now <= 28 ->
      monthIndex since = monthIndex now - 1 /\ getDate since = getDate now))
  /\
  (exists since first,
     leaderboardFilter "year" now = Some (Some since) /\
     firstOfMonth first /\
     getFullYear first = getFullYear now - 1 /\
     getMonth first = getMonth now /\
     since = first + (getDate now - 1) * msPerDay + TimeWithinDay now /\
     now - 366 * msPerDay <= since <= now - 365 * msPerDay /\
     (getDate now <= 28 ->
      getFullYear since = getFullYear now - 1 /\
      getMonth since = getMonth now /\ getDate since = getDate now))
  /\
  leaderboardFilter "all" now = Some None.
Proof.
  pose proof (Day_TimeWithinDay now) as Hnow.
  rewrite <- (MakeDay_civil now) in Hnow.
  pose proof (MonthFromTime_range now) as Hm.
  pose proof (DateFromTime_range now) as Hd.
  pose proof (TimeWithinDay_bound now) as Htm.
  split; [|split; [|split; [|reflexivity]]].
  - rewrite leaderboardFilter_week.
    replace (getDate now - 7) with (getDate now + - 7) by lia.
    rewrite setDate_add. do 2 f_equal; lia.
  - exists (setMonth now (getMonth now - 1)),
      (MakeDate (MakeDay (YearFromTime now) (MonthFromTime now - 1) 1) 0).
    split; [apply leaderboardFilter_month|].
    destruct (firstOfMonth_MakeDay (YearFromTime now) (MonthFromTime now - 1))
      as (Hfirst & Hfy & Hfm).
    split; [exact Hfirst|].
    assert (12 * (YearFromTime now + (MonthFromTime now - 1) / 12)
            + (MonthFromTime now - 1) mod 12
            = 12 * YearFromTime now + MonthFromTime now - 1) as Hidx.
    { pose proof (Z.div_mod (MonthFromTime now - 1) 12). lia. }
    split; [unfold monthIndex; rewrite Hfy, Hfm; exact Hidx|].
    rewrite setMonth_eq, getMonth_eq.
    split; [apply since_from_first|]. split.
    + rewrite (MakeDay_index _ (MonthFromTime now - 1)).
      rewrite (MakeDay_index _ (MonthFromTime now)) in Hnow.
      pose proof (MakeDay_next_month
                    (12 * YearFromTime now + (MonthFromTime now - 1))
                    (DateFromTime now)) as Hnext.
      replace (12 * YearFromTime now + (MonthFromTime now - 1) + 1)
        with (12 * YearFromTime now + MonthFromTime now) in Hnext by lia.
      rewrite MakeDate_eq in *. rewrite msPerDay_eq.
      revert Hnow Hnext.
      generalize (MakeDay 0 (12 * YearFromTime now + (MonthFromTime now - 1))
                    (DateFromTime now)).
      generalize (MakeDay 0 (12 * YearFromTime now + MonthFromTime now)
                    (DateFromTime now)).
      generalize (TimeWithinDay now).
      intros; lia.
    + intros Hle. unfold getDate in Hle.
      destruct (civil_of_MakeDay
                  (MakeDate (MakeDay (YearFromTime now) (MonthFromTime now - 1)
                               (DateFromTime now)) (TimeWithinDay now))
                  (YearFromTime now + (MonthFromTime now - 1) / 12)
                  ((MonthFromTime now - 1) mod 12) (DateFromTime now))
        as (Hy & Hmo & Hda).
      { pose proof (Z.mod_pos_bound (MonthFromTime now - 1) 12). lia. }
      { lia. }
      { rewrite Day_MakeDate by done. apply MakeDay_normal. }
      split; [unfold monthIndex; rewrite Hy, Hmo; exact Hidx|exact Hda].
  - exists (setFullYear now (getFullYear now - 1)),
      (MakeDate (MakeDay (YearFromTime now - 1) (MonthFromTime now) 1) 0).
    split; [apply leaderboardFilter_year|].
    destruct (firstOfMonth_MakeDay (YearFromTime now - 1) (MonthFromTime now))
      as (Hfirst & Hfy & Hfm).
    rewrite Z.div_small, Z.add_0_r in Hfy by lia.
    rewrite Z.mod_small in Hfm by lia.
    split; [exact Hfirst|]. split; [exact Hfy|]. split; [exact Hfm|].
    rewrite setFullYear_eq, getFullYear_eq.
    split; [apply since_from_first|]. split.
    + pose proof (MakeDay_prev_year (YearFromTime now) (MonthFromTime now)
                    (DateFromTime now) (MonthFromTime_range now)) as Hy.
      rewrite MakeDate_eq in *. rewrite msPerDay_eq.
      revert Hnow Hy.
      generalize (MakeDay (YearFromTime now - 1) (MonthFromTime now)
                    (DateFromTime now)).
      generalize (MakeDay (YearFromTime now) (MonthFromTime now)
                    (DateFromTime now)).
      generalize (TimeWithinDay now).
      intros; lia.
    + intros Hle. unfold getDate in Hle.
      apply (civil_of_MakeDay
               (MakeDate (MakeDay (YearFromTime now - 1) (MonthFromTime now)
                            (DateFromTime now)) (TimeWithinDay now))
               (YearFromTime now - 1) (MonthFromTime now) (DateFromTime now));
        [lia|lia|].
      by rewrite Day_MakeDate.
Qed.

Lemma leaderboard_windows_witness :
  let now := utc 2024 3 15 10 30 in
  getDate now <= 28 /\
  exists since,
    leaderboardFilter "month" now = Some (Some since) /\
    monthIndex since = monthIndex now - 1 /\ getDate since = getDate now.
Proof.
  intros now.
  assert (getDate now <= 28) as Hle by (vm_compute; discriminate).
  split; [exact Hle|].
  destruct (leaderboard_windows now)
    as (_ & (since & first & Hfilter & _ & _ & _ & _ & Hcivil) & _).
  exists since. split; [exact Hfilter|]. exact (Hcivil Hle).
Defined.

(** *** Who is on the board *)

Lemma groupAdd_ids_incl e groups x :
  x ∈ map Leaderboard.userId groups ->
  x ∈ map Leaderboard.userId (groupAdd e groups).
Proof.
  intros Hx.
  destruct (decide (userId e ∈ map Leaderboard.userId groups)) as [Hin|Hin].
  - by rewrite groupAdd_ids_old.
  - rewrite groupAdd_ids_new by done. apply elem_of_app. by left.
Qed.

Lemma groupAdd_ids_self e groups :
  userId e ∈ map Leaderboard.userId (groupAdd e groups).
Proof.
  destruct (decide (userId e ∈ map Leaderboard.userId groups)) as [Hin|Hin].
  - by rewrite groupAdd_ids_old.
  - rewrite groupAdd_ids_new by done. apply elem_of_app. right. left.
Qed.

Lemma fold_groupAdd_ids_incl docs groups x :
  x ∈ map Leaderboard.userId groups ->
  x ∈ map Leaderboard.userId (fold_left (fun gs e => groupAdd e gs) docs groups).
Proof.
  revert groups. induction docs as [|e docs IH]; intros groups Hx; [done|].
  simpl. by apply IH, groupAdd_ids_incl.
Qed.

Lemma stageGroup_complete docs e :
  e ∈ docs -> userId e ∈ map Leaderboard.userId (stageGroup docs).
Proof.
  unfold stageGroup. generalize (@nil Leaderboard.Row) as groups.
  induction docs as [|e0 docs IH]; intros groups Hin.
  - by apply elem_of_nil in Hin.
  - simpl. apply elem_of_cons in Hin as [->|Hin].
    + apply fold_groupAdd_ids_incl, groupAdd_ids_self.
    + by apply IH.
Qed.

Lemma sumTotals_groupAdd e groups :
  sumTotals (groupAdd e groups) = sumTotals groups + caffeineMg e
  /\ sumCounts (groupAdd e groups) = sumCounts groups + 1.
Proof.
  induction groups as [|g groups [IH1 IH2]]; simpl; [lia|].
  destruct (String.eqb (Leaderboard.userId g) (userId e)); simpl; lia.
Qed.

Lemma sumTotals_fold docs groups :
  sumTotals (fold_left (fun gs e => groupAdd e gs) docs groups)
    = sumTotals groups + sumMg docs
  /\ sumCounts (fold_left (fun gs e => groupAdd e gs) docs groups)
    = sumCounts groups + Z.of_nat (length docs).
Proof.
  revert groups. induction docs as [|e docs IH]; intros groups; simpl; [lia|].
  destruct (IH (groupAdd e groups)) as [-> ->].
  destruct (sumTotals_groupAdd e groups) as [-> ->]. lia.
Qed.

Lemma sumTotals_perm rows rows' :
  rows ≡ₚ rows' ->
  sumTotals rows = sumTotals rows' /\ sumCounts rows = sumCounts rows'.
Proof. induction 1; simpl; lia. Qed.

Lemma groupAdd_ids_from e groups x :
  x ∈ map Leaderboard.userId (groupAdd e groups) ->
  x ∈ map Leaderboard.userId groups \/ x = userId e.
Proof.
  destruct (decide (userId e ∈ map Leaderboard.userId groups)) as [Hin|Hin].
  - rewrite groupAdd_ids_old by done. by left.
  - rewrite groupAdd_ids_new by done.
    intros [?| ->%list_elem_of_singleton]%elem_of_app; [by left|by right].
Qed.

Lemma stageGroup_ids_from docs x :
  x ∈ map Leaderboard.userId (stageGroup docs) -> x ∈ map userId docs.
Proof.
  unfold stageGroup.
  assert (forall groups,
    x ∈ map Leaderboard.userId (fold_left (fun gs e => groupAdd e gs) docs groups) ->
    x ∈ map Leaderboard.userId groups \/ x ∈ map userId docs) as Hgen.
  { induction docs as [|e docs IH]; intros groups Hx; simpl in *; [by left|].
    destruct (IH _ Hx) as [Hg|Hd]; [|right; by right].
    destruct (groupAdd_ids_from _ _ _ Hg) as [?| ->]; [by left|right; left]. }
  intros Hx. destruct (Hgen [] Hx) as [Hnil|?]; [|done].
  by apply elem_of_nil in Hnil.
Qed.

Lemma stageGroup_length docs :
  length (stageGroup docs)
  = size (list_to_set (map userId docs) : gset string).
Proof.
  pose proof (fold_groupAdd_NoDup docs [] (NoDup_nil_2)) as Hnd.
  fold (stageGroup docs) in Hnd.
  rewrite <- (length_map Leaderboard.userId (stageGroup docs)).
  rewrite <- (size_list_to_set (C:=gset string)) by done.
  f_equal. apply set_eq. intros x. rewrite !elem_of_list_to_set. split.
  - apply stageGroup_ids_from.
  - intros Hx. apply list_elem_of_In, in_map_iff in Hx as (e & <- & He).
    apply stageGroup_complete. by apply list_elem_of_In.
Qed.

(** X22 - When at most 50 distinct users have entries in the window, the
    leaderboard is complete: every such user has a row, and the rows'
    totals and counts add up to the sum and the number of all entries of
    the window. *)
Theorem leaderboard_complete_up_to_50 period now store dateFilter :
  leaderboardFilter (default "week" period) now = Some dateFilter ->
  (size (list_to_set (map userId (stageMatch dateFilter store))
         : gset string) <= 50)%nat ->
  exists rows,
    leaderboard period now store = Json 200 rows /\
    (forall e, e ∈ store -> matchesFilter dateFilter e = true ->
       userId e ∈ map Leaderboard.userId rows) /\
    sumTotals rows = sumMg (stageMatch dateFilter store) /\
    sumCounts rows = Z.of_nat (length (stageMatch dateFilter store)).
Proof.
  intros Hfilter Hsmall. unfold leaderboard. rewrite Hfilter.
  eexists. split; [reflexivity|].
  rewrite <- stageGroup_length in Hsmall.
  assert (stageLimit (stageSort (stageGroup (stageMatch dateFilter store)))
          ≡ₚ stageGroup (stageMatch dateFilter store)) as Hperm.
  { unfold stageLimit, stageSort. rewrite take_ge.
    - apply merge_sort_Permutation.
    - by rewrite (merge_sort_Permutation byTotalDesc). }
  split; [|split].
  - intros e He Hmatch.
    change (map Leaderboard.userId) with (fmap (M:=list) Leaderboard.userId).
    rewrite Hperm.
    apply (stageGroup_complete (stageMatch dateFilter store) e).
    apply list_elem_of_In, filter_In. split; [by apply list_elem_of_In|done].
  - destruct (sumTotals_perm _ _ Hperm) as [-> _].
    destruct (sumTotals_fold (stageMatch dateFilter store) []) as [H1 _].
    unfold stageGroup. rewrite H1. simpl. lia.
  - destruct (sumTotals_perm _ _ Hperm) as [_ ->].
    destruct (sumTotals_fold (stageMatch dateFilter store) []) as [_ H2].
    unfold stageGroup. rewrite H2. simpl. lia.
Qed.

Lemma leaderboard_complete_up_to_50_witness :
  let now := utc 2024 1 7 15 30 in
  let store := [entryOf alice "e1" (utc 2024 1 1 9 0) 50;
                entryOf bob "e2" (utc 2024 1 2 9 0) 80;
                entryOf alice "e3" (utc 2024 1 3 9 0) 40] in
  (leaderboardFilter "all" now = Some None /\
   (size (list_to_set (map userId (stageMatch None store)) : gset string)
    <= 50)%nat) /\
  exists rows,
    leaderboard (Some "all") now store = Json 200 rows /\
    sumTotals rows = 170.
Proof.
  intros now store.
  assert (size (list_to_set (map userId (stageMatch None store))
                : gset string) <= 50)%nat as Hsmall.
  { rewrite <- stageGroup_length. vm_compute. lia. }
  split; [by split|].
  destruct (leaderboard_complete_up_to_50 (Some "all") now store None
              eq_refl Hsmall) as (rows & Hrows & _ & Hsum & _).
  exists rows. split; [exact Hrows|]. rewrite Hsum. reflexivity.
Defined.

(** X23 - The 50 rows are the top 50: a user with entries in the window
    who has no row was cut by the limit, and that user's total is at most
    the total of every row shown. *)
Theorem leaderboard_keeps_the_top period now store dateFilter rows uid :
  leaderboardFilter (default "week" period) now = Some dateFilter ->
  leaderboard period now store = Json 200 rows ->
  userEntries dateFilter uid store <> [] ->
  uid ∉ map Leaderboard.userId rows ->
  length rows = 50%nat /\
  forall r, r ∈ rows ->
    sumMg (userEntries dateFilter uid store) <= Leaderboard.totalCaffeine r.
Proof.
  intros Hfilter. unfold leaderboard. rewrite Hfilter. intros [= <-] Hsome Hout.
  set (matched := stageMatch dateFilter store) in *.
  assert (exists g, g ∈ stageGroup matched /\ Leaderboard.userId g = uid)
    as (g & Hg & Hgid).
  { destruct (userEntries dateFilter uid store) as [|e rest] eqn:He; [done|].
    assert (e ∈ userEntries dateFilter uid store) as Hin
      by (rewrite He; left).
    unfold userEntries in Hin.
    apply list_elem_of_In, filter_In in Hin as [Hin Hp].
    apply andb_prop in Hp as [Hm Hu]. apply String.eqb_eq in Hu.
    assert (e ∈ matched) as Hem.
    { apply list_elem_of_In, filter_In. by split. }
    apply stageGroup_complete in Hem.
    apply list_elem_of_In, in_map_iff in Hem as (g & Hgu & Hgin).
    exists g. split; [by apply list_elem_of_In|congruence]. }
  assert (g ∉ stageLimit (stageSort (stageGroup matched))) as Hgout.
  { intros Hgin. apply Hout. rewrite <- Hgid.
    apply list_elem_of_In, in_map, list_elem_of_In, Hgin. }
  destruct (stageGroup_spec _ _ Hg) as [Htotal _]. cbv zeta in Htotal.
  rewrite Hgid in Htotal. unfold matched, stageMatch in Htotal.
  rewrite filter_filter_andb in Htotal. fold (userEntries dateFilter uid store) in Htotal.
  split.
  - unfold stageLimit, stageSort in *.
    destruct (Nat.le_gt_cases (length (merge_sort byTotalDesc (stageGroup matched))) 50)
      as [Hle|Hgt].
    + exfalso. apply Hgout. rewrite take_ge by done.
      by rewrite merge_sort_Permutation.
    + rewrite length_take. lia.
  - intros r Hr. rewrite <- Htotal.
    apply (take_merge_sort_top byTotalDesc 50 (stageGroup matched) g r Hg
             Hgout Hr).
Qed.

Lemma leaderboard_keeps_the_top_witness :
  exists rows,
    (leaderboardFilter "all" 0 = Some None /\
     leaderboard (Some "all") 0 crowd = Json 200 rows /\
     userEntries None "u0" crowd <> [] /\
     "u0" ∉ map Leaderboard.userId rows) /\
    length rows = 50%nat.
Proof.
  eexists.
  assert (leaderboard (Some "all") 0 crowd = Json 200 _) as Hrows
    by (vm_compute; reflexivity).
  assert (userEntries None "u0" crowd <> []) as Hsome
    by (vm_compute; discriminate).
  match type of Hrows with _ = Json 200 ?rows =>
    assert ("u0" ∉ map Leaderboard.userId rows) as Hout
  end.
  { intros Hin. apply list_elem_of_In in Hin. vm_compute in Hin.
    repeat (destruct Hin as [Hin|Hin]; [discriminate|]). exact Hin. }
  split; [split; [reflexivity|split; [exact Hrows|split; [exact Hsome|exact Hout]]]|].
  exact (proj1 (leaderboard_keeps_the_top (Some "all") 0 crowd None _ "u0"
                  eq_refl Hrows Hsome Hout)).
Defined.

(** *** Names on the board *)

Lemma groupAdd_elem e groups g' :
  g' ∈ groupAdd e groups ->
  (exists g, g ∈ groups /\ Leaderboard.userId g = Leaderboard.userId g'
             /\ Leaderboard.userName g = Leaderboard.userName g'
             /\ Leaderboard.userAvatar g = Leaderboard.userAvatar g')
  \/ ((userId e ∉ map Leaderboard.userId groups)
      /\ Leaderboard.userId g' = userId e
      /\ Leaderboard.userName g' = userName e
      /\ Leaderboard.userAvatar g' = userAvatar e).
Proof.
  induction groups as [|g groups IH]; cbn [groupAdd].
  - intros ->%list_elem_of_singleton. right. split; [apply not_elem_of_nil|done].
  - destruct (String.eqb_spec (Leaderboard.userId g) (userId e)) as [Heq|Hne].
    + intros [->|Hin]%elem_of_cons.
      * left. exists g. split; [left|done].
      * left. exists g'. split; [by right|done].
    + intros [->|Hin]%elem_of_cons.
      * left. exists g. split; [left|done].
      * destruct (IH Hin) as [(g0 & Hg0 & Heqs)|(Hnot & Hrest)].
        -- left. exists g0. split; [by right|done].
        -- right. split; [|done]. cbn [map].
           intros [?|?]%elem_of_cons; [congruence|done].
Qed.

Lemma fold_groupAdd_first docs groups r :
  r ∈ fold_left (fun gs e => groupAdd e gs) docs groups ->
  (exists g, g ∈ groups /\ Leaderboard.userId g = Leaderboard.userId r
             /\ Leaderboard.userName g = Leaderboard.userName r
             /\ Leaderboard.userAvatar g = Leaderboard.userAvatar r)
  \/ ((Leaderboard.userId r ∉ map Leaderboard.userId groups)
      /\ exists e0,
           head (List.filter
                   (fun e => String.eqb (userId e) (Leaderboard.userId r)) docs)
             = Some e0
           /\ Leaderboard.userName r = userName e0
           /\ Leaderboard.userAvatar r = userAvatar e0).
Proof.
  revert groups. induction docs as [|e docs IH]; intros groups Hr.
  - left. exists r. by split.
  - cbn [fold_left] in Hr.
    destruct (IH _ Hr) as [(g' & Hg' & Hid & Hname & Hav)|(Hnot & e0 & Hhd & Hn & Ha)].
    + destruct (groupAdd_elem _ _ _ Hg') as [(g & Hg & Hid' & Hn' & Ha')|(Hnew & Hid' & Hn' & Ha')].
      * left. exists g. split; [done|]. split; [congruence|].
        split; congruence.
      * right. split; [congruence|]. exists e. cbn [List.filter].
        rewrite <- Hid, Hid', String.eqb_refl. cbn [head].
        split; [done|]. split; congruence.
    + right.
      assert (Leaderboard.userId r ∉ map Leaderboard.userId groups) as Hg.
      { intros Hin. apply Hnot. by apply groupAdd_ids_incl. }
      split; [done|]. exists e0. cbn [List.filter].
      destruct (String.eqb_spec (userId e) (Leaderboard.userId r)) as [Heq|_];
        [|done].
      exfalso. apply Hnot. rewrite <- Heq. apply groupAdd_ids_self.
Qed.

(** X24 - A row of the leaderboard shows the name and the avatar carried
    by that user's first entry of the window, in the order of the store:
    later entries of the user add to the total but never rename the
    row. *)
Theorem leaderboard_names_first_entry period now store dateFilter rows r :
  leaderboardFilter (default "week" period) now = Some dateFilter ->
  leaderboard period now store = Json 200 rows ->
  r ∈ rows ->
  exists e0,
    head (userEntries dateFilter (Leaderboard.userId r) store) = Some e0 /\
    Leaderboard.userName r = userName e0 /\
    Leaderboard.userAvatar r = userAvatar e0.
Proof.
  intros Hfilter. unfold leaderboard. rewrite Hfilter.
  intros [= <-] Hr%stageLimit_sort_elem.
  unfold stageGroup in Hr.
  destruct (fold_groupAdd_first _ _ _ Hr)
    as [(g & Hg & _)|(_ & e0 & Hhd & Hn & Ha)].
  - by apply elem_of_nil in Hg.
  - exists e0. split; [|done].
    unfold stageMatch in Hhd. by rewrite filter_filter_andb in Hhd.
Qed.

Lemma leaderboard_names_first_entry_witness :
  let now := utc 2024 1 7 15 30 in
  let first := entryOf alice "e1" (utc 2024 1 1 9 0) 50 in
  let renamed :=
    {| entryId := "e2"; drinkName := "Tea"; sizeName := "Small";
       fullName := "Small Tea"; caffeineMg := 20;
       customDescription := EmptyString; timestamp := utc 2024 1 2 9 0;
       isCustomDrink := false; userId := "g-alice"; userName := "Alice B.";
       userAvatar := Some "a.png" |} in
  let row :=
    {| Leaderboard.userId := "g-alice"; Leaderboard.totalCaffeine := 70;
       Leaderboard.entryCount := 2; Leaderboard.userName := "Alice";
       Leaderboard.userAvatar := None |} in
  (leaderboardFilter "all" now = Some None /\
   leaderboard (Some "all") now [first; renamed] = Json 200 [row] /\
   row ∈ [row]) /\
  Leaderboard.userName row = userName first.
Proof.
  intros now first renamed row.
  assert (leaderboard (Some "all") now [first; renamed] = Json 200 [row])
    as Hrows by (vm_compute; reflexivity).
  assert (row ∈ [row]) as Hin by left.
  split; [split; [reflexivity|split; [exact Hrows|exact Hin]]|].
  destruct (leaderboard_names_first_entry (Some "all") now [first; renamed]
              None [row] row eq_refl Hrows Hin) as (e0 & Hhd & Hn & _).
  injection Hhd as <-. exact Hn.
Defined.


(** ** Further properties: the variants without ownership *)

Lemma findEntryById_absent id store :
  id ∉ map entryId store -> findEntryById id store = None.
Proof.
  intros Hnot. apply findEntryById_None. intros e He <-. apply Hnot.
  apply list_elem_of_In, in_map, list_elem_of_In, He.
Qed.

Lemma deleteEntrySimple_cases id store :
  NoDup (map entryId store) ->
  (id ∈ map entryId store ->
   exists store',
     deleteEntrySimple id store
       = (Json 200 "Entry deleted successfully", store') /\
     (id ∉ map entryId store') /\
     S (length store') = length store /\
     forall e, e ∈ store -> entryId e <> id -> e ∈ store') /\
  (id ∉ map entryId store ->
   deleteEntrySimple id store = (Error 404 "Entry not found", store)).
Proof.
  intros Hnd. unfold deleteEntrySimple. split.
  - intros Hin. apply list_elem_of_In, in_map_iff in Hin as (e & Hid & He).
    apply list_elem_of_In in He.
    rewrite (findEntryById_unique id store e Hnd He Hid).
    eexists. split; [reflexivity|]. split; [|split].
    + intros Hin'. apply list_elem_of_In, in_map_iff in Hin' as (e' & Hid' & He').
      apply list_elem_of_In in He'.
      by apply (deleteEntryById_gone id store e' Hnd Hid').
    + clear Hnd. induction store as [|e' store IH]; [by apply elem_of_nil in He|].
      cbn [deleteEntryById].
      destruct (String.eqb_spec (entryId e') id) as [Heq|Hne]; [done|].
      apply elem_of_cons in He as [->|He]; [done|].
      cbn [length]. by rewrite IH.
    + intros e' He' Hne. by apply deleteEntryById_other.
  - intros Hnot. by rewrite findEntryById_absent.
Qed.

(** X25 - [DELETE /api/entries/:id] without sessions deletes by id alone,
    whoever stored the entry.  A parameter that is no ObjectId answers 500
    and changes nothing.  For a parameter that is the ObjectId [id], with
    pairwise distinct ids in the collection: when an entry carries [id]
    the answer is 200, no entry carries it afterwards and every other
    entry stays; otherwise the answer is 404 and nothing changes. *)
Theorem delete_simple_any_owner `{ObjectIdCast} param store :
  NoDup (map entryId store) ->
  (castObjectId param = None ->
   deleteEntrySimpleRequest param store
     = (Error 500 "Failed to delete entry", store)) /\
  (forall id, castObjectId param = Some id ->
   (id ∈ map entryId store ->
    exists store',
      deleteEntrySimpleRequest param store
        = (Json 200 "Entry deleted successfully", store') /\
      (id ∉ map entryId store') /\
      S (length store') = length store /\
      forall e, e ∈ store -> entryId e <> id -> e ∈ store') /\
   (id ∉ map entryId store ->
    deleteEntrySimpleRequest param store
      = (Error 404 "Entry not found", store))).
Proof.
  intros Hnd. unfold deleteEntrySimpleRequest. split.
  - by intros ->.
  - intros id ->. apply deleteEntrySimple_cases, Hnd.
Qed.

Lemma delete_simple_any_owner_witness :
  let e1 := entryOf alice oidEntry1 0 50 in
  let e2 := entryOf bob oidEntry2 0 80 in
  NoDup (map entryId [e1; e2]) /\
  @deleteEntrySimpleRequest hexObjectIds oidEntry2 [e1; e2]
    = (Json 200 "Entry deleted successfully", [e1]) /\
  @deleteEntrySimpleRequest hexObjectIds oidAbsent [e1; e2]
    = (Error 404 "Entry not found", [e1; e2]) /\
  @deleteEntrySimpleRequest hexObjectIds "e3" [e1; e2]
    = (Error 500 "Failed to delete entry", [e1; e2]).
Proof.
  intros e1 e2.
  assert (NoDup (map entryId [e1; e2])) as Hnd.
  { apply NoDup_cons. split; [|apply NoDup_singleton].
    intros Hin%list_elem_of_singleton. discriminate Hin. }
  split; [exact Hnd|].
  destruct (@delete_simple_any_owner hexObjectIds oidAbsent [e1; e2] Hnd)
    as [_ Hcast].
  destruct (Hcast oidAbsent eq_refl) as [_ Hmiss].
  split; [reflexivity|]. split; [|reflexivity]. apply Hmiss.
  intros Hin. apply list_elem_of_In in Hin. cbn in Hin.
  destruct Hin as [Hin|[Hin|[]]]; discriminate Hin.
Defined.

(** Every [DELETE] route answers 500 and changes nothing when the
    parameter is no ObjectId, and otherwise does what the handler does on
    the ObjectId. *)
Lemma delete_requests_cast `{ObjectIdCast} user param :
  match castObjectId param with
  | None =>
      (forall store,
         deleteEntryRequest (Some user) param store
           = (Error 500 "Failed to delete entry", store)) /\
      (forall store,
         deleteTypeRequest (Some user) param store
           = (Error 500 "Failed to delete drink type", store)) /\
      (forall store,
         deleteTypeHardRequest (Some user) param store
           = (Error 500 "Failed to delete drink type", store))
  | Some id =>
      (forall store,
         deleteEntryRequest (Some user) param store
           = deleteEntry (Some user) id store) /\
      (forall store,
         deleteTypeRequest (Some user) param store
           = deleteType (Some user) id store) /\
      (forall store,
         deleteTypeHardRequest (Some user) param store
           = deleteTypeHard (Some user) id store)
  end.
Proof.
  unfold deleteEntryRequest, deleteTypeRequest, deleteTypeHardRequest,
    requireAuth.
  by destruct (castObjectId param).
Qed.

Lemma deleteTypeById_other id store t :
  t ∈ store -> typeId t <> id -> t ∈ deleteTypeById id store.
Proof.
  induction store as [|t' store IH]; simpl; [done|].
  intros Hin Hne. destruct (String.eqb_spec (typeId t') id) as [Heq|Hne'].
  - apply elem_of_cons in Hin as [->|Hin]; [done|done].
  - apply elem_of_cons in Hin as [->|Hin]; [left|right; by apply IH].
Qed.

Lemma deleteTypeById_gone id store :
  NoDup (map typeId store) -> id ∉ map typeId (deleteTypeById id store).
Proof.
  induction store as [|t store IH]; simpl.
  - intros _. apply not_elem_of_nil.
  - intros [Hnotin Hnd]%NoDup_cons.
    destruct (String.eqb_spec (typeId t) id) as [Heq|Hne]; [by rewrite <- Heq|].
    cbn [map]. intros [?|Hin]%elem_of_cons; [congruence|]. by apply IH.
Qed.

(** X26 - The module that deletes drink types for good: once its [DELETE]
    has answered 200 in a collection with pairwise distinct ids, its
    [GET /api/types] lists no document with that id, still lists every
    other drink type, and lists them sorted by name. *)
Theorem hard_deleted_type_unlisted user caller id store msg store' :
  NoDup (map typeId store) ->
  deleteTypeHard (Some user) id store = (Json 200 msg, store') ->
  exists listed,
    getTypesAll (Some caller) store' = (Json 200 listed, store') /\
    (id ∉ map typeId listed) /\
    (forall t, t ∈ store -> typeId t <> id -> t ∈ listed) /\
    StronglySorted nameLe listed.
Proof.
  intros Hnd. unfold deleteTypeHard, requireAuth.
  destruct (findTypeById id store) as [drink|]; [|done].
  intros [= _ <-].
  exists (merge_sort nameLe (deleteTypeById id store)).
  split; [reflexivity|].
  pose proof (merge_sort_Permutation nameLe (deleteTypeById id store)) as Hperm.
  split; [|split].
  - rewrite Hperm. by apply deleteTypeById_gone.
  - intros t Ht Hne. rewrite Hperm. by apply deleteTypeById_other.
  - apply StronglySorted_merge_sort; apply _.
Qed.

Lemma hard_deleted_type_unlisted_witness :
  let latte :=
    {| typeId := "t0"; typeName := "Latte"; imageUrl := "/images/noImage.png";
       sizes := [ {| sizeVariantName := "Tall"; sizeCaffeineMg := 75 |} ];
       createdAt := 0; deleted := false |} in
  (NoDup (map typeId [latte; espresso]) /\
   deleteTypeHard (Some alice) "t0" [latte; espresso]
     = (Json 200 "Drink type deleted successfully", [espresso])) /\
  getTypesAll (Some bob) [espresso] = (Json 200 [espresso], [espresso]).
Proof.
  intros latte.
  assert (NoDup (map typeId [latte; espresso])) as Hnd.
  { apply NoDup_cons. split; [|apply NoDup_singleton].
    intros Hin%list_elem_of_singleton. discriminate Hin. }
  assert (deleteTypeHard (Some alice) "t0" [latte; espresso]
          = (Json 200 "Drink type deleted successfully", [espresso])) as Hdel
    by reflexivity.
  split; [by split|].
  destruct (hard_deleted_type_unlisted alice bob "t0" [latte; espresso] _
              [espresso] Hnd Hdel) as (listed & Hget & _).
  reflexivity.
Defined.

(** X27 - The leaderboard of the second module of [server.js] answers
    every request as the first module does, except for the period "year",
    which it turns down with 400. *)
Theorem older_leaderboard_has_no_year period now store :
  leaderboardOld period now store
  = if String.eqb (default "week" period) "year"
    then Error 400 "Invalid period"
    else leaderboard period now store.
Proof.
  unfold leaderboardOld, leaderboard, leaderboardFilterOld, leaderboardFilter.
  generalize (default "week" period). intros p.
  destruct (String.eqb_spec p "week") as [->|Hweek]; [reflexivity|].
  destruct (String.eqb_spec p "month") as [->|Hmonth]; [reflexivity|].
  destruct (String.eqb_spec p "year") as [->|Hyear]; [reflexivity|].
  reflexivity.
Qed.

(** ** Further properties: [escapeHtml] of the client *)

Lemma escapeChar_cases c :
  (c = "&"%char /\ escapeChar c = "&amp;") \/
  (c = "<"%char /\ escapeChar c = "&lt;") \/
  (c = ">"%char /\ escapeChar c = "&gt;") \/
  (c = ascii_of_nat 34 /\ escapeChar c = "&quot;") \/
  (c = "'"%char /\ escapeChar c = "&#039;") \/
  (c <> "&"%char /\ isMarkup c = false /\ escapeChar c = String c EmptyString).
Proof.
  unfold escapeChar, isMarkup.
  destruct (Ascii.eqb_spec c "&") as [->|Hamp]; [by left|].
  destruct (Ascii.eqb_spec c "<") as [->|Hlt]; [by right; left|].
  destruct (Ascii.eqb_spec c ">") as [->|Hgt]; [by right; right; left|].
  destruct (Ascii.eqb_spec c (ascii_of_nat 34)) as [->|Hq];
    [by right; right; right; left|].
  destruct (Ascii.eqb_spec c "'") as [->|Hs];
    [by right; right; right; right; left|].
  by right; right; right; right; right.
Qed.

Lemma stringForall_app p a b :
  stringForall p (a +:+ b) = stringForall p a && stringForall p b.
Proof.
  induction a as [|c a IH]; [done|]. simpl. by rewrite IH, andb_assoc.
Qed.

(** X28 - Whatever the text, the output of [escapeHtml] holds none of the
    characters [<], [>], double quote and single quote. *)
Theorem escapeHtml_no_markup text :
  stringForall (fun c => negb (isMarkup c)) (escapeHtml text) = true.
Proof.
  induction text as [|c text IH]; [done|]. cbn [escapeHtml].
  rewrite stringForall_app, IH, andb_true_r.
  destruct (escapeChar_cases c)
    as [[_ ->]|[[_ ->]|[[_ ->]|[[_ ->]|[[_ ->]|(_ & Hplain & ->)]]]]];
    try reflexivity.
  cbn [stringForall]. by rewrite Hplain.
Qed.

Lemma escapeHtml_inj s t : escapeHtml s = escapeHtml t -> s = t.
Proof.
  revert t. induction s as [|c s IH]; intros [|d t]; cbn [escapeHtml].
  - done.
  - intros Heq. exfalso.
    destruct (escapeChar_cases d)
      as [[_ E]|[[_ E]|[[_ E]|[[_ E]|[[_ E]|(_ & _ & E)]]]]];
      rewrite E in Heq; discriminate Heq.
  - intros Heq. exfalso.
    destruct (escapeChar_cases c)
      as [[_ E]|[[_ E]|[[_ E]|[[_ E]|[[_ E]|(_ & _ & E)]]]]];
      rewrite E in Heq; discriminate Heq.
  - intros Heq.
    destruct (escapeChar_cases c)
      as [[-> E]|[[-> E]|[[-> E]|[[-> E]|[[-> E]|(Hc & _ & E)]]]]];
    destruct (escapeChar_cases d)
      as [[-> F]|[[-> F]|[[-> F]|[[-> F]|[[-> F]|(Hd & _ & F)]]]]];
    rewrite ?E, ?F in Heq; cbn in Heq;
    try discriminate Heq;
    try (injection Heq as Hrest; f_equal; by apply IH);
    try (injection Heq as Hhd Hrest; congruence).
    injection Heq as -> Hrest. f_equal. by apply IH.
Qed.

(** X29 - [escapeHtml] loses nothing: two different texts never have the
    same output, so a text that already reads like an entity is told
    apart from the character the entity stands for. *)
Theorem escapeHtml_keeps_texts_apart s t :
  s <> t -> escapeHtml s <> escapeHtml t.
Proof. intros Hne Heq. by apply Hne, escapeHtml_inj. Qed.

Lemma escapeHtml_keeps_texts_apart_witness :
  "<" <> "&lt;" /\ escapeHtml "<" <> escapeHtml "&lt;".
Proof.
  assert ("<" <> "&lt;") as Hne by discriminate.
  split; [exact Hne|]. exact (escapeHtml_keeps_texts_apart "<" "&lt;" Hne).
Defined.
